(** * An IRC server: channel records, JOIN / MODE / NICK / TOPIC handlers
      and the message parser, embedded from the C++ sources.

    Layout of the development:
    - [StdMap]   : [std::map] as a key-ordered association list;
    - [Str]      : the [std::string] operations the sources use;
    - replies    : the reply macros, kept symbolic;
    - [Client], [Channel], [Server] records and the channel methods;
    - [ParseMessage] and the command handlers ([joinCommand],
      [handelModeCommand], [nickCommand], [topicCommand],
      [handelKickCommand]);
    - the properties. *)

From Stdlib Require Import List String Ascii ZArith Bool Lia PeanoNat.
Import ListNotations.

Set Implicit Arguments.
Local Open Scope bool_scope.
Local Open Scope string_scope.
Local Open Scope list_scope.

(* ================================================================== *)
(** ** Keys of a [std::map] *)

(** A key type carries the equality test and the strict order that
    [std::less] gives it. *)
Class Ordered (K : Type) := {
  key_eqb : K -> K -> bool;
  key_ltb : K -> K -> bool;
  key_eqb_spec : forall a b : K, reflect (a = b) (key_eqb a b)
}.

#[export] Instance Ordered_string : Ordered string :=
  {| key_eqb := String.eqb; key_ltb := String.ltb;
     key_eqb_spec := String.eqb_spec |}.

#[export] Instance Ordered_ascii : Ordered ascii :=
  {| key_eqb := Ascii.eqb; key_ltb := Ascii.ltb;
     key_eqb_spec := Ascii.eqb_spec |}.

#[export] Instance Ordered_nat : Ordered nat :=
  {| key_eqb := Nat.eqb; key_ltb := Nat.ltb;
     key_eqb_spec := Nat.eqb_spec |}.

#[export] Instance Ordered_Z : Ordered Z :=
  {| key_eqb := Z.eqb; key_ltb := Z.ltb;
     key_eqb_spec := Z.eqb_spec |}.

(* ================================================================== *)
(** ** [std::map<K,V>] *)

(** The map is the list of its entries in iteration order, that is, in
    increasing key order.  [assign] is [m[k] = v], [insert] is
    [m.insert(make_pair(k,v))] (which keeps an existing entry), [erase]
    is [m.erase(k)], [begin] is [*m.begin()]. *)
Module StdMap.
Section Ops.
Context {K V : Type} `{Ordered K}.

Definition t := list (K * V).

Fixpoint find (k : K) (m : t) : option V :=
    match m with
    | [] => None
    | (k', v) :: r => if key_eqb k k' then Some v else find k r
    end.

Definition contains (k : K) (m : t) : bool :=
    match find k m with Some _ => true | None => false end.

Fixpoint assign (k : K) (v : V) (m : t) : t :=
    match m with
    | [] => [(k, v)]
    | (k', v') :: r =>
        if key_eqb k k' then (k, v) :: r
        else if key_ltb k k' then (k, v) :: (k', v') :: r
        else (k', v') :: assign k v r
    end.

Definition insert (k : K) (v : V) (m : t) : t :=
    if contains k m then m else assign k v m.

Fixpoint erase (k : K) (m : t) : t :=
    match m with
    | [] => []
    | (k', v) :: r => if key_eqb k k' then erase k r else (k', v) :: erase k r
    end.

Definition begin (m : t) : option (K * V) := hd_error m.

Definition size (m : t) : nat := List.length m.

Definition empty (m : t) : bool :=
    match m with [] => true | _ => false end.

Definition keys (m : t) : list K := List.map fst m.

End Ops.
Arguments t : clear implicits.
End StdMap.

(* ================================================================== *)
(** ** [std::string] operations *)

Module Str.

(** [std::isspace], [std::isdigit] and [std::isalnum] in the C locale. *)
Definition isspace (c : ascii) : bool :=
let n := nat_of_ascii c in (n =? 32)%nat || ((9 <=? n)%nat && (n <=? 13)%nat).

Definition isdigit (c : ascii) : bool :=
let n := nat_of_ascii c in (48 <=? n)%nat && (n <=? 57)%nat.

Definition isalnum (c : ascii) : bool :=
let n := nat_of_ascii c in
isdigit c || ((65 <=? n)%nat && (n <=? 90)%nat)
          || ((97 <=? n)%nat && (n <=? 122)%nat).

(** Membership of a character in a character set given as a string. *)
Fixpoint mem (c : ascii) (set : string) : bool :=
match set with
| EmptyString => false
| String d r => Ascii.eqb c d || mem c r
end.

(** [s.empty()] *)
Definition empty (s : string) : bool :=
match s with EmptyString => true | _ => false end.

(** [s[0]]: the first character, and the terminating NUL when [s] is
    empty. *)
Definition front (s : string) : ascii :=
match s with EmptyString => zero | String c _ => c end.

(** [s.find_first_of(set)], [s.find_first_not_of(set)] and
    [s.find_last_not_of(set)]; [None] is [npos]. *)
Fixpoint find_first_of (set s : string) : option nat :=
match s with
| EmptyString => None
| String c r =>
    if mem c set then Some 0%nat
    else option_map S (find_first_of set r)
end.

Fixpoint find_first_not_of (set s : string) : option nat :=
match s with
| EmptyString => None
| String c r =>
    if mem c set then option_map S (find_first_not_of set r)
    else Some 0%nat
end.

Fixpoint find_last_not_of (set s : string) : option nat :=
match s with
| EmptyString => None
| String c r =>
    match find_last_not_of set r with
    | Some i => Some (S i)
    | None => if mem c set then None else Some 0%nat
    end
end.

(** [s.substr(pos, len)] and [s.substr(pos)]; at the call sites [pos]
    never exceeds the length, so the [out_of_range] case is absent. *)
Definition substr (s : string) (pos len : nat) : string :=
String.substring pos len s.

Definition substr_from (s : string) (pos : nat) : string :=
String.substring pos (String.length s - pos) s.

(** [s.find(needle)]: the position of the first occurrence. *)
Definition find (s needle : string) : option nat :=
String.index 0 needle s.

(** The splitting loop shared by [ft_split], [remove_spaces] and the
    extraction [iss >> token]: characters are appended to [word]; a
    separator flushes a non-empty [word]. *)
Fixpoint split_loop (sep : ascii -> bool) (s word : string) : list string :=
match s with
| EmptyString => if empty word then [] else [word]
| String c r =>
    if sep c
    then (if empty word then split_loop sep r EmptyString
          else word :: split_loop sep r EmptyString)
    else split_loop sep r (word ++ String c EmptyString)%string
end.

(** [std::string(n, c)] *)
Fixpoint replicate (n : nat) (c : ascii) : string :=
match n with O => EmptyString | S k => String c (replicate k c) end.

(** The white space and the digits that [strtol] reads. *)
Fixpoint skip_space (s : string) : string :=
match s with
| String c r => if isspace c then skip_space r else s
| EmptyString => EmptyString
end.

Fixpoint digits (s : string) (acc : Z) : Z :=
match s with
| String c r =>
    if isdigit c
    then digits r (10 * acc + (Z.of_nat (nat_of_ascii c) - 48))%Z
    else acc
| EmptyString => acc
end.

(** The number [strtol(s, NULL, 10)] reads before it looks at the range
    of [long]: leading white space, an optional sign, then the longest
    run of digits. *)
Definition strtol_value (s : string) : Z :=
match skip_space s with
| String "-"%char r => (- digits r 0)%Z
| String "+"%char r => digits r 0%Z
| s' => digits s' 0%Z
end.

(** [strtol] answers [LONG_MIN] or [LONG_MAX] for a number outside the
    64-bit [long]. *)
Definition clamp_long (v : Z) : Z :=
Z.max (- 2 ^ 63) (Z.min v (2 ^ 63 - 1)).

(** The conversion of a [long] to the 32-bit [int]: the low 32 bits,
    read in two's complement. *)
Definition to_int (v : Z) : Z :=
((v + 2 ^ 31) mod 2 ^ 32 - 2 ^ 31)%Z.

(** [std::atoi], which is [(int) strtol(s, NULL, 10)].  For a number
    inside the range of [int] this is the number itself; outside it the
    value is the one the GNU C library computes. *)
Definition atoi (s : string) : Z :=
to_int (clamp_long (strtol_value s)).

End Str.

(** The line end ["\r\n"]. *)
Definition CRLF : string := String "013" (String "010" EmptyString).

(** [ft_trim] (Channel.cpp and ParseMessage.cpp, the same body). *)
Definition ft_trim (text : string) : string :=
let ws := String " " (String "010" (String "013" (String "009" EmptyString))) in
match Str.find_first_not_of ws text, Str.find_last_not_of ws text with
| Some first, Some last => Str.substr text first (last - first + 1)
| _, _ => ""
end.

(** [ft_split(str, delimiter)] *)
Definition ft_split (str : string) (delimiter : ascii) : list string :=
Str.split_loop (Ascii.eqb delimiter) str "".

(** The tokens that repeated [iss >> token] extracts from a stream. *)
Definition stream_tokens (s : string) : list string :=
Str.split_loop Str.isspace s "".

(** [Server::isAlphanumeric] *)
Fixpoint isAlphanumeric (str : string) : bool :=
match str with
| EmptyString => true
| String c r => if Str.isalnum c then isAlphanumeric r else false
end.

(* ================================================================== *)
(** ** Replies *)

(** The reply macros ([ERR_...], [RPL_...], [MODE_...] and [user_id]) are
    defined in a header that is not among the sources.  Each macro is
    kept symbolic: one constructor per macro, applied to the arguments
    the call site passes, in the order it passes them.  A frame, one
    element of [serverReplies], is the concatenation of such pieces. *)
Inductive UserId := user_id (nickname username : string).

Inductive Reply :=
| ERR_NEEDMOREPARAMS (client command : string)
| ERR_USERONCHANNEL (user nick channel : string)
| ERR_CHANNELISFULL (client channel : string)
| ERR_INVITEONLYCHAN (client channel : string)
| ERR_BADCHANNELKEY (client channel : string)
| RPL_JOIN (uid : UserId) (channel : string)
| MODE_CHANNELMSG (channel modes : string)
| RPL_TOPIC (client channel topic : string)
| RPL_NAMREPLY (client : string) (symbol : ascii) (channel users : string)
| RPL_ENDOFNAMES (client channel : string)
| RPL_CHANNELMODEISWITHKEY (client channel modes key : string)
| ERR_INVALIDMODEPARAM (client channel : string) (mode : ascii) (param : string)
| ERR_USERNOTINCHANNEL (client nick channel : string)
| ERR_UNKNOWNMODE (client mode : string)
| MODE_CHANNELCHANGEMODE (uid : UserId) (channel modes : string)
| ERR_NOSUCHCHANNEL (client channel : string)
| RPL_CHANNELMODEIS (client channel modes : string)
| ERR_CHANOPRIVSNEEDED (client channel : string)
| ERR_NONICKNAMEGIVEN (client : string)
| ERR_ERRONEUSNICKNAME (client nick : string)
| ERR_NICKNAMEINUSE (client nick : string)
| RPL_NICK (oldnick username newnick : string)
| ERR_NOTONCHANNEL (client channel : string)
| RPL_NOTOPIC (client channel : string)
| RPL_CHANGETOPIC (uid : UserId) (channel topic : string)
| RPL_KICK (uid : UserId) (channel kicked reason : string)
| Literal (text : string).

Definition Frame := list Reply.

(* ================================================================== *)
(** ** Clients and the store they live in *)

Record Client := {
  _fd : Z;
  _nickname : string;
  _username : string;
  serverReplies : list Frame
}.

(** [Client::Client(int fd)] *)
Definition Client_ctor (fd : Z) : Client :=
{| _fd := fd; _nickname := ""; _username := ""; serverReplies := [] |}.

(** A [Client *] is an address; the store maps the addresses of the
    live clients to their records.  Channels hold addresses, so a reply
    pushed through one channel entry is seen through every other entry
    for the same client. *)
Definition ptr := nat.
Definition heap := StdMap.t ptr Client.

(** Reading through a pointer.  The sources never test a member pointer
    for NULL; reading an address that is not in the store has no defined
    meaning there, and yields a blank client here. *)
Definition deref (h : heap) (p : ptr) : Client :=
match StdMap.find p h with Some c => c | None => Client_ctor 0 end.

Definition getNickname (h : heap) (p : ptr) : string := _nickname (deref h p).
Definition getUsername (h : heap) (p : ptr) : string := _username (deref h p).
Definition getFd (h : heap) (p : ptr) : Z := _fd (deref h p).

(** [p->serverReplies.push_back(msg)] *)
Definition push_reply (p : ptr) (msg : Frame) (h : heap) : heap :=
match StdMap.find p h with
| Some c =>
    StdMap.assign p
      {| _fd := _fd c; _nickname := _nickname c; _username := _username c;
         serverReplies := serverReplies c ++ [msg] |} h
| None => h
end.

(** [p->setNickname(nick)] *)
Definition setNickname (p : ptr) (nick : string) (h : heap) : heap :=
match StdMap.find p h with
| Some c =>
    StdMap.assign p
      {| _fd := _fd c; _nickname := nick; _username := _username c;
         serverReplies := serverReplies c |} h
| None => h
end.

(* ================================================================== *)
(** ** Channels *)

Record Channel := {
  channelName : string;
  users : StdMap.t string ptr;
  operators : StdMap.t string ptr;
  inviteList : StdMap.t string ptr;
  modes : StdMap.t ascii bool;
  _topic : string;
  _key : string;
  UserLimit : Z
}.

Definition with_users (u : StdMap.t string ptr) (ch : Channel) : Channel :=
{| channelName := channelName ch; users := u; operators := operators ch;
   inviteList := inviteList ch; modes := modes ch; _topic := _topic ch;
   _key := _key ch; UserLimit := UserLimit ch |}.

Definition with_operators (o : StdMap.t string ptr) (ch : Channel) : Channel :=
{| channelName := channelName ch; users := users ch; operators := o;
   inviteList := inviteList ch; modes := modes ch; _topic := _topic ch;
   _key := _key ch; UserLimit := UserLimit ch |}.

Definition with_inviteList (i : StdMap.t string ptr) (ch : Channel) : Channel :=
{| channelName := channelName ch; users := users ch; operators := operators ch;
   inviteList := i; modes := modes ch; _topic := _topic ch;
   _key := _key ch; UserLimit := UserLimit ch |}.

Definition with_modes (m : StdMap.t ascii bool) (ch : Channel) : Channel :=
{| channelName := channelName ch; users := users ch; operators := operators ch;
   inviteList := inviteList ch; modes := m; _topic := _topic ch;
   _key := _key ch; UserLimit := UserLimit ch |}.

Definition with_topic (t : string) (ch : Channel) : Channel :=
{| channelName := channelName ch; users := users ch; operators := operators ch;
   inviteList := inviteList ch; modes := modes ch; _topic := t;
   _key := _key ch; UserLimit := UserLimit ch |}.

Definition with_key (k : string) (ch : Channel) : Channel :=
{| channelName := channelName ch; users := users ch; operators := operators ch;
   inviteList := inviteList ch; modes := modes ch; _topic := _topic ch;
   _key := k; UserLimit := UserLimit ch |}.

Definition with_UserLimit (n : Z) (ch : Channel) : Channel :=
{| channelName := channelName ch; users := users ch; operators := operators ch;
   inviteList := inviteList ch; modes := modes ch; _topic := _topic ch;
   _key := _key ch; UserLimit := n |}.

(** [Channel::setMode].  The method reads [itr->second] before it tests
    [itr] against [end()]; every caller passes one of the five letters
    the constructor enters, so the entry exists.  For a letter without
    an entry the read is undefined in the sources; here the channel is
    then left alone and the result is [false]. *)
Definition setMode (c : ascii) (setting : bool) (ch : Channel) : bool * Channel :=
match StdMap.find c (modes ch) with
| Some cur =>
    if Bool.eqb setting cur then (false, ch)
    else (true, with_modes (StdMap.assign c setting (modes ch)) ch)
| None => (false, ch)
end.

(** [Channel::Channel(channelName, client)] *)
Definition Channel_ctor (name : string) (h : heap) (client : ptr) : Channel :=
let nick := getNickname h client in
let m0 : StdMap.t ascii bool := [] in
let m1 := StdMap.assign "i"%char false m0 in
let m2 := StdMap.assign "t"%char false m1 in
let m3 := StdMap.assign "k"%char false m2 in
let m4 := StdMap.assign "o"%char false m3 in
let m5 := StdMap.assign "l"%char false m4 in
snd (setMode "t"%char true
       {| channelName := name;
          users := StdMap.assign nick client [];
          operators := StdMap.assign nick client [];
          inviteList := [];
          modes := m5;
          _topic := ""; _key := ""; UserLimit := 0 |}).

Definition isClientInChannel (nickname : string) (ch : Channel) : bool :=
StdMap.contains nickname (users ch).

Definition isInvited (nickname : string) (ch : Channel) : bool :=
StdMap.contains nickname (inviteList ch).

Definition isOperator (nickname : string) (ch : Channel) : bool :=
StdMap.contains nickname (operators ch).

Definition checkMode (c : ascii) (ch : Channel) : bool :=
match StdMap.find c (modes ch) with Some b => b | None => false end.

Definition getUsers (ch : Channel) : StdMap.t string ptr := users ch.
Definition getKey (ch : Channel) : string := _key ch.
Definition getUserLimit (ch : Channel) : Z := UserLimit ch.
Definition getTopic (ch : Channel) : string := _topic ch.
Definition getChannelName (ch : Channel) : string := channelName ch.
Definition getModesMap (ch : Channel) : StdMap.t ascii bool := modes ch.

(** [Channel::addClient] *)
Definition addClient (h : heap) (client : ptr) (ch : Channel) : Channel :=
let nick := getNickname h client in
let ch1 := with_users (StdMap.assign nick client (users ch)) ch in
let ch2 := if isInvited nick ch1
           then with_inviteList (StdMap.erase nick (inviteList ch1)) ch1
           else ch1 in
if (StdMap.size (operators ch2) =? 0)%nat
then with_operators (StdMap.assign nick client (operators ch2)) ch2
else ch2.

(** [Channel::setTopic] *)
Definition setTopic (topic : string) (ch : Channel) : Channel :=
snd (setMode "t"%char true (with_topic topic ch)).

(** [Channel::inviteClient] *)
Definition inviteClient (h : heap) (client : ptr) (ch : Channel) : Channel :=
with_inviteList (StdMap.assign (getNickname h client) client (inviteList ch)) ch.

(** [Channel::setKey] and [Channel::removeKey] *)
Definition setKey (password : string) (ch : Channel) : Channel :=
snd (setMode "k"%char true (with_key password ch)).

Definition removeKey (ch : Channel) : Channel :=
snd (setMode "k"%char false (with_key "" ch)).

(** [Channel::setUserLimit] and [Channel::removeUserLimit] *)
Definition setUserLimit (limit : Z) (ch : Channel) : Channel :=
if (0 <? limit)%Z
then snd (setMode "l"%char true (with_UserLimit limit ch))
else ch.

Definition removeUserLimit (ch : Channel) : Channel :=
snd (setMode "l"%char false (with_UserLimit (-1) ch)).

(** [Channel::getModes]: the letters whose flag is set, in key order,
    after a ["+"]. *)
Definition getModes (ch : Channel) : string :=
let result :=
  fold_left (fun acc (e : ascii * bool) =>
               if snd e then (acc ++ String (fst e) "")%string else acc)
            (modes ch) "" in
if Str.empty result then "" else ("+" ++ result)%string.

(** [Channel::broadcastMessage] *)
Definition broadcastMessage (message : Frame) (ch : Channel) (h : heap) : heap :=
fold_left (fun hp (e : string * ptr) =>
             if (getFd hp (snd e) =? -1)%Z then hp
             else push_reply (snd e) message hp)
          (users ch) h.

(** [Channel::sendToOthers] *)
Definition sendToOthers (client : ptr) (message : Frame) (ch : Channel)
  (h : heap) : heap :=
fold_left (fun hp (e : string * ptr) =>
             if negb (getFd hp (snd e) =? -1)%Z && negb (snd e =? client)%nat
             then push_reply (snd e) message hp
             else hp)
          (users ch) h.

(** [Channel::addOperator]: the new entry is keyed by the nickname the
    client record holds, not by the argument. *)
Definition addOperator (h : heap) (nickname : string) (ch : Channel) : Channel :=
match StdMap.find nickname (users ch) with
| Some p =>
    snd (setMode "o"%char true
           (with_operators (StdMap.assign (getNickname h p) p (operators ch)) ch))
| None => ch
end.

(** [Channel::removeOperator] *)
Definition removeOperator (nickname : string) (ch : Channel) : Channel :=
let ch1 :=
  match StdMap.find nickname (operators ch) with
  | Some _ =>
      snd (setMode "o"%char false
             (with_operators (StdMap.erase nickname (operators ch)) ch))
  | None => ch
  end in
if StdMap.empty (operators ch1) && negb (StdMap.empty (users ch1))
then match StdMap.begin (users ch1) with
     | Some (k, v) => with_operators (StdMap.assign k v (operators ch1)) ch1
     | None => ch1
     end
else ch1.

(** [Channel::removeInvite] *)
Definition removeInvite (invite : string) (ch : Channel) : Channel :=
match StdMap.find invite (inviteList ch) with
| Some _ => with_inviteList (StdMap.erase invite (inviteList ch)) ch
| None => ch
end.

(** [Channel::removeClient] *)
Definition removeClient (h : heap) (client : ptr) (ch : Channel) : Channel :=
let ch1 := removeOperator (getNickname h client) ch in
match StdMap.find (getNickname h client) (users ch1) with
| Some _ => with_users (StdMap.erase (getNickname h client) (users ch1)) ch1
| None => ch1
end.

(** [Channel::getUsersList] *)
Definition getUsersList (h : heap) (ch : Channel) : string :=
ft_trim
  (fold_left (fun memberList (e : string * ptr) =>
                let nick := getNickname h (snd e) in
                let memberList' :=
                  if isOperator nick ch then (memberList ++ "@")%string
                  else memberList in
                (memberList' ++ (nick ++ " "))%string)
             (getUsers ch) "").

(** [Channel::updateNickname] *)
Definition updateNickname (oldNick newNick : string) (ch : Channel) : Channel :=
let ch1 :=
  match StdMap.find oldNick (users ch) with
  | Some client =>
      with_users (StdMap.assign newNick client (StdMap.erase oldNick (users ch))) ch
  | None => ch
  end in
let ch2 :=
  match StdMap.find oldNick (operators ch1) with
  | Some client =>
      with_operators
        (StdMap.assign newNick client (StdMap.erase oldNick (operators ch1))) ch1
  | None => ch1
  end in
match StdMap.find oldNick (inviteList ch2) with
| Some client =>
    with_inviteList
      (StdMap.assign newNick client (StdMap.erase oldNick (inviteList ch2))) ch2
| None => ch2
end.

(* ================================================================== *)
(** ** The parsed message *)

Record ParseMessage := {
  _cmd : string;
  _params : list string;
  _trailing : string;
  _notValidParam : bool;
  _errorMsg : string
}.

Definition getParams (m : ParseMessage) : list string := _params m.
Definition getTrailing (m : ParseMessage) : string := _trailing m.

(** [ParseMessage::isValid] *)
Definition isValid (param : string) : bool :=
let invalidChars := String "010" (String "013" (String "009" (String ":" EmptyString))) in
match Str.find_first_of invalidChars param with
| None => true
| Some _ => false
end.

(** The [while (iss >> token)] loop of the constructor, one token per
    step; [continue] is the recursive call, [break] returns the record
    as it stands.  [message] is the untrimmed line, which the trailing
    parameter is cut from. *)
Fixpoint parse_loop (message : string) (tokens : list string)
  (tagFlag tagCmd : bool) (m : ParseMessage) : ParseMessage :=
match tokens with
| [] => m
| token :: rest =>
    if tagFlag then
      if Ascii.eqb (Str.front token) ":"
      then parse_loop message rest false false
             {| _cmd := Str.substr_from token 1; _params := _params m;
                _trailing := _trailing m; _notValidParam := _notValidParam m;
                _errorMsg := _errorMsg m |}
      else parse_loop message rest tagFlag tagCmd m
    else if tagCmd then
      parse_loop message rest tagFlag false
        {| _cmd := token; _params := _params m;
           _trailing := _trailing m; _notValidParam := _notValidParam m;
           _errorMsg := _errorMsg m |}
    else if Ascii.eqb (Str.front token) ":" then
      (* [npos + 1] wraps around to 0 *)
      let pos := match Str.find message token with
                 | Some i => (i + 1)%nat
                 | None => 0%nat
                 end in
      {| _cmd := _cmd m; _params := _params m;
         _trailing := ft_trim (Str.substr_from message pos);
         _notValidParam := _notValidParam m; _errorMsg := _errorMsg m |}
    else if isValid token then
      parse_loop message rest tagFlag tagCmd
        {| _cmd := _cmd m; _params := _params m ++ [token];
           _trailing := _trailing m; _notValidParam := _notValidParam m;
           _errorMsg := _errorMsg m |}
    else
      {| _cmd := _cmd m; _params := _params m; _trailing := _trailing m;
         _notValidParam := true;
         _errorMsg := ("Invalid character in parameter: " ++ token)%string |}
end.

(** [ParseMessage::ParseMessage(message)].  On the empty line the
    constructor returns before it initialises anything; the strings and
    the vector are then empty, and the flag, which the sources leave
    uninitialised, is taken as [false]. *)
Definition ParseMessage_ctor (message : string) : ParseMessage :=
let blank := {| _cmd := ""; _params := []; _trailing := "";
                _notValidParam := false; _errorMsg := "" |} in
if Str.empty message then blank
else
  let trimmedMsg := ft_trim message in
  let tagFlag := Ascii.eqb (Str.front trimmedMsg) "@" in
  parse_loop message (stream_tokens trimmedMsg) tagFlag true blank.

(* ================================================================== *)
(** ** The server *)

Record Server := {
  _channels : StdMap.t string Channel;
  _nicknames : list string;
  _clients : StdMap.t Z ptr;
  mem : heap
}.

Definition with_channels (c : StdMap.t string Channel) (s : Server) : Server :=
{| _channels := c; _nicknames := _nicknames s; _clients := _clients s;
   mem := mem s |}.

Definition with_nicknames (n : list string) (s : Server) : Server :=
{| _channels := _channels s; _nicknames := n; _clients := _clients s;
   mem := mem s |}.

Definition with_mem (h : heap) (s : Server) : Server :=
{| _channels := _channels s; _nicknames := _nicknames s;
   _clients := _clients s; mem := h |}.

(** [client->serverReplies.push_back(msg)] on the server's store. *)
Definition reply (client : ptr) (msg : Frame) (s : Server) : Server :=
with_mem (push_reply client msg (mem s)) s.

(** [v.empty()] on a [std::vector] *)
Definition vector_empty {A : Type} (v : list A) : bool :=
match v with [] => true | _ => false end.

(** [Server::isChannelInServer] *)
Definition isChannelInServer (channelName : string) (s : Server) : bool :=
StdMap.contains channelName (_channels s).

(** [Server::isUserInServer] *)
Definition isUserInServer (nickname : string) (s : Server) : bool :=
existsb (String.eqb nickname) (_nicknames s).

(** [Server::getClient]: the first client, in descriptor order, whose
    nickname matches; [None] is the NULL pointer. *)
Definition getClient (nickname : string) (s : Server) : option ptr :=
option_map snd
  (List.find (fun e : Z * ptr => String.eqb (getNickname (mem s) (snd e)) nickname)
             (_clients s)).

(** [Server::greetJoinedUser] *)
Definition greetJoinedUser (h : heap) (client : ptr) (channel : Channel) : Frame :=
let r1 := [RPL_JOIN (user_id (getNickname h client) (getUsername h client))
                    (getChannelName channel)] in
let r2 := if (StdMap.size (getUsers channel) =? 1)%nat
          then r1 ++ [MODE_CHANNELMSG (getChannelName channel) (getModes channel)]
          else r1 in
let r3 := if negb (Str.empty (getTopic channel))
          then r2 ++ [RPL_TOPIC (getNickname h client) (getChannelName channel)
                                (getTopic channel)]
          else r2 in
r3 ++ [RPL_NAMREPLY (getNickname h client) "@" (getChannelName channel)
                    (getUsersList h channel)]
   ++ [RPL_ENDOFNAMES (getUsername h client) (getChannelName channel)].

(** [Server::getChannel]: [None] stands for the dereference of
    [_channels.end()], which the callers exclude by testing
    [isChannelInServer] first. *)
Definition getChannel (channelName : string) (s : Server) : option Channel :=
StdMap.find channelName (_channels s).

(** A channel name is processed when its first character is [#] or [&]. *)
Definition channel_prefix (name : string) : bool :=
Ascii.eqb (Str.front name) "#" || Ascii.eqb (Str.front name) "&".

(* ------------------------------------------------------------------ *)
(** *** JOIN *)

(** The [if / else if] chain of admission checks on an existing channel:
    the reply it leaves in [response] and the value it leaves in
    [allowedJoin].  [itr_key] is the key list from the key iterator on. *)
Definition join_checks (h : heap) (client : ptr) (chanName : string)
  (itr_key : list string) (tempChannel : Channel) : Frame * bool :=
let nick := getNickname h client in
if isClientInChannel nick tempChannel then
  ([ERR_USERONCHANNEL (getUsername h client) nick chanName], false)
else if negb (isInvited nick tempChannel) && checkMode "l" tempChannel
        && (getUserLimit tempChannel <=? Z.of_nat (StdMap.size (getUsers tempChannel)))%Z
then ([ERR_CHANNELISFULL nick chanName], false)
else if checkMode "i" tempChannel && negb (isInvited nick tempChannel) then
  ([ERR_INVITEONLYCHAN nick chanName], false)
else if checkMode "k" tempChannel then
  match itr_key with
  | k :: _ =>
      if String.eqb k (getKey tempChannel) then ([], true)
      else ([ERR_BADCHANNELKEY nick chanName], false)
  | [] => ([ERR_BADCHANNELKEY nick chanName], false)
  end
else ([], true).

(** The branch of the loop body for an existing channel, up to its
    [break].  [allowedJoin] is [true] on entry: it is initialised to
    [true] and only ever cleared in this branch, which leaves the loop. *)
Definition join_existing (client : ptr) (chanName : string)
  (itr_key : list string) (tempChannel : Channel) (s : Server) : Server :=
let h := mem s in
let nick := getNickname h client in
match join_checks h client chanName itr_key tempChannel with
| (_, true) =>
    let response := [RPL_JOIN (user_id nick (getUsername h client)) chanName] in
    let ch1 := removeInvite nick tempChannel in
    let h1 := broadcastMessage response ch1 h in
    let ch2 := addClient h1 client ch1 in
    let response := greetJoinedUser h1 client ch2 in
    with_mem (push_reply client response h1)
      (with_channels (StdMap.assign chanName ch2 (_channels s)) s)
| (response, false) => reply client response s
end.

(** The branch of the loop body that creates a channel. *)
Definition join_new (client : ptr) (chanName : string) (s : Server) : Server :=
let s1 := with_channels
            (StdMap.insert chanName (Channel_ctor chanName (mem s) client)
                           (_channels s)) s in
match getChannel chanName s1 with
| Some ch => reply client (greetJoinedUser (mem s1) client ch) s1
| None => s1
end.

(** The [for] loop over the channel list.  [chanName.at(0)] throws on an
    empty name; [ft_split] never yields one, and [channel_prefix] sends
    the empty name to the [continue] branch. *)
Fixpoint join_loop (client : ptr) (itr_key : list string)
  (chan_list : list string) (s : Server) : Server :=
match chan_list with
| [] => s
| chanName :: rest =>
    if negb (channel_prefix chanName) then join_loop client itr_key rest s
    else
      match getChannel chanName s with
      | Some tempChannel => join_existing client chanName itr_key tempChannel s
      | None => join_loop client itr_key rest (join_new client chanName s)
      end
end.

(** [Server::joinCommand] *)
Definition joinCommand (client : ptr) (ParsedMsg : ParseMessage) (s : Server)
  : Server :=
let params := getParams ParsedMsg in
if (2 <? List.length params)%nat then s
else if (List.length params <? 1)%nat then
  reply client [ERR_NEEDMOREPARAMS (getNickname (mem s) client) "JOIN"] s
else
  let chan_list := ft_split (nth 0 params "") "," in
  let key_list := if (1 <? List.length params)%nat
                  then ft_split (nth 1 params "") ","
                  else [] in
  join_loop client key_list chan_list s.

(* ------------------------------------------------------------------ *)
(** *** MODE *)

(** What the mode handlers read and write: the channel (a reference into
    the registry), the client store and the index of the next positional
    argument. *)
Record ModeState := {
  m_channel : Channel;
  m_mem : heap;
  paramIndex : nat
}.

Definition mode_flag (c : ascii) (ch : Channel) : bool :=
match StdMap.find c (getModesMap ch) with Some b => b | None => false end.

(** [Server::handleKeyMode] *)
Definition handleKeyMode (client : ptr) (isAdding : bool) (params : list string)
  (st : ModeState) : bool * ModeState :=
let channel := m_channel st in
let h := m_mem st in
let i := paramIndex st in
if Bool.eqb isAdding (mode_flag "k" channel) then (false, st)
else if isAdding && (i <? List.length params)%nat then
  let p := nth i params "" in
  if isAlphanumeric p then
    let channel' := setKey p channel in
    let key := Str.replicate (String.length (getKey channel')) "*" in
    (true,
     {| m_channel := channel';
        m_mem := push_reply client
                   [RPL_CHANNELMODEISWITHKEY (getNickname h client)
                      (getChannelName channel') (getModes channel') key] h;
        paramIndex := S i |})
  else
    (false,
     {| m_channel := channel;
        m_mem := push_reply client
                   [ERR_INVALIDMODEPARAM (getNickname h client)
                      (getChannelName channel) "k" p] h;
        paramIndex := S i |})
else if isAdding then
  (false,
   {| m_channel := channel;
      m_mem := push_reply client
                 [ERR_NEEDMOREPARAMS (getNickname h client) "MODE +k"] h;
      paramIndex := i |})
else
  (true, {| m_channel := removeKey channel; m_mem := h; paramIndex := i |}).

(** [Server::handleLimitMode] *)
Definition handleLimitMode (client : ptr) (isAdding : bool) (params : list string)
  (st : ModeState) : bool * ModeState :=
let channel := m_channel st in
let h := m_mem st in
let i := paramIndex st in
if Bool.eqb isAdding (mode_flag "l" channel) then (false, st)
else if isAdding && (i <? List.length params)%nat then
  let p := nth i params "" in
  let limit := Str.atoi p in
  if (0 <? limit)%Z then
    let channel' := setUserLimit limit channel in
    (true,
     {| m_channel := channel';
        m_mem := push_reply client
                   [RPL_CHANNELMODEISWITHKEY (getNickname h client)
                      (getChannelName channel') (getModes channel') p] h;
        paramIndex := S i |})
  else
    (false,
     {| m_channel := channel;
        m_mem := push_reply client
                   [ERR_INVALIDMODEPARAM (getNickname h client)
                      (getChannelName channel) "l" p] h;
        paramIndex := S i |})
else if isAdding then
  (false,
   {| m_channel := channel;
      m_mem := push_reply client
                 [ERR_NEEDMOREPARAMS (getNickname h client) "MODE +l"] h;
      paramIndex := i |})
else
  (true, {| m_channel := removeUserLimit channel; m_mem := h; paramIndex := i |}).

(** [Server::handleOperatorMode] *)
Definition handleOperatorMode (client : ptr) (isAdding : bool)
  (params : list string) (st : ModeState) : bool * ModeState :=
let channel := m_channel st in
let h := m_mem st in
let i := paramIndex st in
if Bool.eqb isAdding (mode_flag "o" channel) then (false, st)
else if (i <? List.length params)%nat then
  let targetNick := nth i params "" in
  if negb (isClientInChannel targetNick channel) then
    (false,
     {| m_channel := channel;
        m_mem := push_reply client
                   [ERR_USERNOTINCHANNEL (getNickname h client) targetNick
                      (getChannelName channel)] h;
        paramIndex := S i |})
  else
    (true,
     {| m_channel := if isAdding then addOperator h targetNick channel
                     else removeOperator targetNick channel;
        m_mem := h;
        paramIndex := S i |})
else
  (false,
   {| m_channel := channel;
      m_mem := push_reply client
                 [ERR_NEEDMOREPARAMS (getNickname h client) "MODE o"] h;
      paramIndex := i |}).

(** [Server::processSingleChannelMode] *)
Definition processSingleChannelMode (client : ptr) (mode : ascii)
  (isAdding : bool) (params : list string) (st : ModeState) : bool * ModeState :=
let set_flag c :=
  let r := setMode c isAdding (m_channel st) in
  (fst r, {| m_channel := snd r; m_mem := m_mem st; paramIndex := paramIndex st |}) in
if Ascii.eqb mode "i" then set_flag "i"%char
else if Ascii.eqb mode "k" then handleKeyMode client isAdding params st
else if Ascii.eqb mode "l" then handleLimitMode client isAdding params st
else if Ascii.eqb mode "t" then set_flag "t"%char
else if Ascii.eqb mode "o" then handleOperatorMode client isAdding params st
else if Ascii.eqb mode "b" then (false, st)
else
  (false,
   {| m_channel := m_channel st;
      m_mem := push_reply client
                 [ERR_UNKNOWNMODE (getNickname (m_mem st) client) (String mode "")]
                 (m_mem st);
      paramIndex := paramIndex st |}).

(** The [for] loop of [processChannelModes] over the characters of the
    mode string; the result carries the accumulated [modeStr]. *)
Fixpoint mode_loop (client : ptr) (params : list string) (modeString : string)
  (isAdding : bool) (modeStr : string) (st : ModeState) : string * ModeState :=
match modeString with
| EmptyString => (modeStr, st)
| String mode rest =>
    if Ascii.eqb mode "+" || Ascii.eqb mode "-" then
      mode_loop client params rest (Ascii.eqb mode "+") modeStr st
    else
      let r := processSingleChannelMode client mode isAdding params st in
      let modeStr' :=
        if fst r
        then (modeStr ++ (if isAdding then "+" else "-") ++ String mode "")%string
        else modeStr in
      mode_loop client params rest isAdding modeStr' (snd r)
end.

(** [Server::processChannelModes] *)
Definition processChannelModes (client : ptr) (channel : Channel)
  (params : list string) (h : heap) : Channel * heap :=
let modeString := nth 1 params "" in
let r := mode_loop client params modeString true ""
           {| m_channel := channel; m_mem := h; paramIndex := 2 |} in
let modeStr := fst r in
let st := snd r in
if negb (Str.empty modeStr) then
  let modeChanges :=
    [MODE_CHANNELCHANGEMODE
       (user_id (getNickname (m_mem st) client) (getUsername (m_mem st) client))
       (getChannelName (m_channel st)) modeStr] in
  (m_channel st, broadcastMessage modeChanges (m_channel st) (m_mem st))
else (m_channel st, m_mem st).

(** [Server::handleChannelMode] *)
Definition handleChannelMode (client : ptr) (channelName : string)
  (params : list string) (s : Server) : Server :=
let nick := getNickname (mem s) client in
match getChannel channelName s with
| None => reply client [ERR_NOSUCHCHANNEL nick channelName] s
| Some channel =>
    if (List.length params =? 1)%nat then
      reply client [RPL_CHANNELMODEIS nick channelName (getModes channel)] s
    else if negb (isOperator nick channel) then
      reply client [ERR_CHANOPRIVSNEEDED nick channelName] s
    else
      let r := processChannelModes client channel params (mem s) in
      with_mem (snd r)
        (with_channels (StdMap.assign channelName (fst r) (_channels s)) s)
end.

(** [Server::handelModeCommand] *)
Definition handelModeCommand (client : ptr) (parsedMsg : ParseMessage)
  (s : Server) : Server :=
let params :=
  if negb (Str.empty (getTrailing parsedMsg))
  then getParams parsedMsg ++ ft_split (getTrailing parsedMsg) " "
  else getParams parsedMsg in
if (List.length params <? 1)%nat then
  reply client [ERR_NEEDMOREPARAMS (getNickname (mem s) client) "MODE"] s
else
  let target := nth 0 params "" in
  if channel_prefix target then handleChannelMode client target params s
  else if negb (isUserInServer target s) then
    reply client [ERR_NOSUCHCHANNEL (getNickname (mem s) client) target] s
  else s.

(* ------------------------------------------------------------------ *)
(** *** NICK *)

(** The body of the loop over [_channels] in [nickCommand]. *)
Definition nick_update_channel (oldNick newNick : string) (ch : Channel) : Channel :=
if isClientInChannel oldNick ch then updateNickname oldNick newNick ch
else if isInvited oldNick ch then updateNickname oldNick newNick ch
else ch.

(** [Server::nickCommand] *)
Definition nickCommand (client : ptr) (params : list string) (s : Server)
  : Server :=
match params with
| [] => reply client [ERR_NONICKNAMEGIVEN "ircserver"] s
| newNick :: _ =>
    let oldNick := getNickname (mem s) client in
    match Str.find_first_of "#@:&" newNick with
    | Some _ => reply client [ERR_ERRONEUSNICKNAME "ircserver" newNick] s
    | None =>
        if negb (vector_empty (_nicknames s))
           && existsb (String.eqb newNick) (_nicknames s)
        then reply client [ERR_NICKNAMEINUSE "ircserver" newNick] s
        else
          let s1 :=
            if negb (Str.empty oldNick) then
              reply client
                [RPL_NICK oldNick (getUsername (mem s) client) newNick]
                (with_nicknames
                   (List.filter (fun n => negb (String.eqb n oldNick))
                                (_nicknames s)) s)
            else s in
          let s2 := with_nicknames (_nicknames s1 ++ [newNick]) s1 in
          let s3 :=
            with_channels
              (List.map (fun e : string * Channel =>
                           (fst e, nick_update_channel oldNick newNick (snd e)))
                        (_channels s2)) s2 in
          with_mem (setNickname client newNick (mem s3)) s3
    end
end.

(* ------------------------------------------------------------------ *)
(** *** TOPIC *)

(** [Server::topicCommand] *)
Definition topicCommand (client : ptr) (ParsedMsg : ParseMessage) (s : Server)
  : Server :=
let nick := getNickname (mem s) client in
match getParams ParsedMsg with
| [] => reply client [ERR_NEEDMOREPARAMS nick "TOPIC"] s
| channelName :: _ =>
    if negb (channel_prefix channelName) then s
    else
      match getChannel channelName s with
      | None => reply client [ERR_NOSUCHCHANNEL nick channelName] s
      | Some channel =>
          if negb (isClientInChannel nick channel) then
            reply client [ERR_NOTONCHANNEL nick channelName] s
          else if Str.empty (getTrailing ParsedMsg) then
            if Str.empty (getTopic channel)
            then reply client [RPL_NOTOPIC nick channelName] s
            else reply client [RPL_TOPIC nick channelName (getTopic channel)] s
          else if checkMode "t" channel && negb (isOperator nick channel) then
            reply client [ERR_CHANOPRIVSNEEDED nick channelName] s
          else
            let newTopic := getTrailing ParsedMsg in
            let channel' := setTopic newTopic channel in
            let topicChangeMsg :=
              [RPL_CHANGETOPIC (user_id nick (getUsername (mem s) client))
                               (getChannelName channel') newTopic] in
            with_mem (broadcastMessage topicChangeMsg channel' (mem s))
              (with_channels (StdMap.assign channelName channel' (_channels s)) s)
      end
end.

(* ------------------------------------------------------------------ *)
(** *** KICK *)

(** The loop of [handelKickCommand] over the target nicks.  [channel] is
    a reference into the registry, read here at each step.  Once the
    channel is erased the reference dangles and a further step has no
    defined meaning in the sources; the loop stops there. *)
Fixpoint kick_loop (client : ptr) (channelName trailingMessage : string)
  (targets : list string) (s : Server) : Server :=
match targets with
| [] => s
| targetNick :: rest =>
    let nick := getNickname (mem s) client in
    match getChannel channelName s with
    | None => s
    | Some channel =>
        if String.eqb targetNick nick then
          kick_loop client channelName trailingMessage rest
            (reply client
               [Literal (": localhost  482 " ++ nick ++ " " ++ channelName
                         ++ " :You can't kick yourself" ++ CRLF)%string] s)
        else
          match getClient targetNick s with
          | None =>
              kick_loop client channelName trailingMessage rest
                (reply client [ERR_USERNOTINCHANNEL nick targetNick channelName] s)
          | Some targetClient =>
              if negb (isClientInChannel targetNick channel) then
                kick_loop client channelName trailingMessage rest
                  (reply client [ERR_USERNOTINCHANNEL nick targetNick channelName] s)
              else
                let kickMsg :=
                  [RPL_KICK (user_id nick (getUsername (mem s) client)) channelName
                            (getNickname (mem s) targetClient) trailingMessage] in
                let h1 := broadcastMessage kickMsg channel (mem s) in
                let channel' := removeClient h1 targetClient channel in
                let s1 := with_mem h1
                            (with_channels
                               (StdMap.assign channelName channel' (_channels s)) s) in
                if StdMap.empty (getUsers channel')
                then with_channels (StdMap.erase channelName (_channels s1)) s1
                else kick_loop client channelName trailingMessage rest s1
          end
    end
end.

(** [Server::handelKickCommand] *)
Definition handelKickCommand (client : ptr) (ParsedMsg : ParseMessage)
  (s : Server) : Server :=
let params := getParams ParsedMsg in
let nick := getNickname (mem s) client in
if (List.length params <? 2)%nat then
  reply client [ERR_NEEDMOREPARAMS nick "KICK"] s
else
  let trailingMessage := getTrailing ParsedMsg in
  let channelName := nth 0 params "" in
  match getChannel channelName s with
  | None => reply client [ERR_NOSUCHCHANNEL nick channelName] s
  | Some channel =>
      if negb (isClientInChannel nick channel) then
        reply client [ERR_NOTONCHANNEL nick channelName] s
      else if negb (isOperator nick channel) then
        reply client [ERR_CHANOPRIVSNEEDED nick channelName] s
      else
        kick_loop client channelName trailingMessage
                  (ft_split (nth 1 params "") ",") s
  end.

(* ================================================================== *)
(** ** Vocabulary of the properties *)

(** [operators ⊆ users], on keys. *)
Definition ops_subset_users (ch : Channel) : Prop :=
forall n, isOperator n ch = true -> isClientInChannel n ch = true.

(** The same test, computed. *)
Definition ops_subset_usersb (ch : Channel) : bool :=
forallb (fun n => isClientInChannel n ch) (StdMap.keys (operators ch)).

(** Every entry of [users] is keyed by the nickname its client holds. *)
Definition users_keyed (h : heap) (ch : Channel) : Prop :=
forall n p, StdMap.find n (users ch) = Some p -> getNickname h p = n.

(** A nickname that is no key of any of the three member maps. *)
Definition fresh_in (n : string) (ch : Channel) : Prop :=
StdMap.find n (users ch) = None /\
StdMap.find n (operators ch) = None /\
StdMap.find n (inviteList ch) = None.

(** What [updateNickname] does to each of the three member maps. *)
Definition rekey (oldNick newNick : string) (m : StdMap.t string ptr)
  : StdMap.t string ptr :=
match StdMap.find oldNick m with
| Some client => StdMap.assign newNick client (StdMap.erase oldNick m)
| None => m
end.

(** The nickname index covers the channels: every key of a member map
    of a registered channel is in [_nicknames]. *)
Definition nick_index_covers (s : Server) : Prop :=
forall name ch n,
  StdMap.find name (_channels s) = Some ch ->
  StdMap.contains n (users ch) = true \/
  StdMap.contains n (operators ch) = true \/
  StdMap.contains n (inviteList ch) = true ->
  In n (_nicknames s).

(** The parameter vector MODE works on: the parameters followed by the
    words of the trailing parameter. *)
Definition mode_params (parsedMsg : ParseMessage) : list string :=
if negb (Str.empty (getTrailing parsedMsg))
then getParams parsedMsg ++ ft_split (getTrailing parsedMsg) " "
else getParams parsedMsg.

(** The key list JOIN splits off its second parameter. *)
Definition join_keys (ParsedMsg : ParseMessage) : list string :=
if (1 <? List.length (getParams ParsedMsg))%nat
then ft_split (nth 1 (getParams ParsedMsg) "") ","
else [].



(** The frames queued for a client, oldest first. *)
Definition outbox (s : Server) (client : ptr) : list Frame :=
serverReplies (deref (mem s) client).

(* ------------------------------------------------------------------ *)
(** *** Sample states *)

Module Sample.

Definition alice : Client :=
{| _fd := 4; _nickname := "alice"; _username := "al"; serverReplies := [] |}.
Definition bob : Client :=
{| _fd := 5; _nickname := "bob"; _username := "bo"; serverReplies := [] |}.
Definition carol : Client :=
{| _fd := 6; _nickname := "carol"; _username := "ca"; serverReplies := [] |}.

(** Three registered clients at addresses 1, 2 and 3; no channel. *)
Definition s0 : Server :=
{| _channels := [];
   _nicknames := ["alice"; "bob"; "carol"];
   _clients := [(4%Z, 1%nat); (5%Z, 2%nat); (6%Z, 3%nat)];
   mem := [(1%nat, alice); (2%nat, bob); (3%nat, carol)] |}.

Definition line (text : string) : ParseMessage :=
ParseMessage_ctor (text ++ CRLF)%string.

(** alice creates [#room]; bob and carol join it. *)
Definition s_room : Server :=
joinCommand 3 (line "JOIN #room")
  (joinCommand 2 (line "JOIN #room")
     (joinCommand 1 (line "JOIN #room") s0)).

(** The channel record of [#room] in [s_room], with empty outboxes. *)
Definition room : Channel :=
{| channelName := "#room";
   users := [("alice", 1%nat); ("bob", 2%nat); ("carol", 3%nat)];
   operators := [("alice", 1%nat)];
   inviteList := [];
   modes := [("i"%char, false); ("k"%char, false); ("l"%char, false);
             ("o"%char, false); ("t"%char, true)];
   _topic := ""; _key := ""; UserLimit := 0 |}.

(** [#room] with alice as its only member and operator, and bob
    created [#b] protected by the key [k2]. *)
Definition s_keyed : Server :=
handelModeCommand 2 (line "MODE #b +k k2")
  (joinCommand 2 (line "JOIN #b") s0).

(** The channel record of [#b] in [s_keyed]. *)
Definition keyed_b : Channel :=
{| channelName := "#b";
   users := [("bob", 2%nat)];
   operators := [("bob", 2%nat)];
   inviteList := [];
   modes := [("i"%char, false); ("k"%char, true); ("l"%char, false);
             ("o"%char, false); ("t"%char, true)];
   _topic := ""; _key := "k2"; UserLimit := 0 |}.

(** In [s_room], alice has given herself [+o], which raises the [o]
    flag of the channel; she is still the only operator. *)
Definition s_oflag : Server :=
handelModeCommand 1 (line "MODE #room +o alice") s_room.

End Sample.

(* ================================================================== *)
(** ** The line framer of [handleClientMessage] *)

(** The character set [" \n\r\t"] that [ft_trim] strips. *)
Definition trim_set : string :=
String " " (String "010" (String "013" (String "009" EmptyString))).

(** Every character of [s] satisfies [p]. *)
Fixpoint string_forall (p : ascii -> bool) (s : string) : bool :=
match s with
| EmptyString => true
| String c r => p c && string_forall p r
end.

(** What [ft_trim] keeps of the text behind a first character that it
    does not strip. *)
Definition trim_tail (r : string) : string :=
match Str.find_last_not_of trim_set r with
| Some i => Str.substr r 0 (S i)
| None => ""
end.

(** A client record with further frames queued behind those it has. *)
Definition add_replies (c : Client) (msgs : list Frame) : Client :=
{| _fd := _fd c; _nickname := _nickname c; _username := _username c;
   serverReplies := serverReplies c ++ msgs |}.

(** How many entries of [users] hold the address [q]. *)
Definition held_by (ch : Channel) (q : ptr) : nat :=
count_occ Nat.eq_dec (List.map snd (users ch)) q.

(** A property of every registered channel. *)
Definition every_channel (P : Channel -> Prop) (s : Server) : Prop :=
forall name ch, getChannel name s = Some ch -> P ch.

(** The settings behind the flags [l] and [k] are meaningful: a set [l]
    comes with a positive limit, a set [k] with a non-empty key. *)
Definition mode_settings_sound (ch : Channel) : Prop :=
(checkMode "l" ch = true -> (0 < UserLimit ch)%Z) /\
(checkMode "k" ch = true -> _key ch <> "").

(** The [while ((pos = buffer.find('\n')) != npos)] loop of
    [Server::handleClientMessage]: [completeCommand] is
    [buffer.substr(0, pos + 1)], and [buffer.erase(0, pos + 1)] keeps
    the rest.  The result is the list of complete commands, in the order
    they are handed to [ParseMessage], and what stays in the buffer.
    Each turn shortens the buffer, so [fuel] bounds the turns. *)
Fixpoint frame_loop (fuel : nat) (buffer : string) : list string * string :=
match fuel with
| O => ([], buffer)
| S fuel' =>
    match Str.find_first_of (String "010" EmptyString) buffer with
    | None => ([], buffer)
    | Some pos =>
        let completeCommand := Str.substr buffer 0 (pos + 1) in
        let r := frame_loop fuel' (Str.substr_from buffer (pos + 1)) in
        (completeCommand :: fst r, snd r)
    end
end.

Definition extract_commands (buffer : string) : list string * string :=
frame_loop (String.length buffer) buffer.

(* ================================================================== *)
(** ** PRIVMSG *)

(** The reply macros of [privateMessage] are defined in the header that
    is not among the sources; they are taken as parameters, each a
    function of the arguments its call site passes. *)
Record PrivmsgMacros := {
  ERR_NORECIPIENT : string -> Frame;
  ERR_NOTEXTTOSEND : string -> Frame;
  ERR_CANNOTSENDTOCHAN : string -> string -> Frame;
  ERR_NOSUCHNICK : string -> string -> Frame;
  RPL_PRIVMSG : string -> string -> string -> string -> Frame
}.

(** [Server::privateMessage].  For a nick that is in the index while no
    connection holds it, [getClient] returns NULL and the sources write
    through it; the server is left as it is here. *)
Definition privateMessage (M : PrivmsgMacros) (client : ptr)
  (parsedMsg : ParseMessage) (s : Server) : Server :=
let params := getParams parsedMsg in
let trailing := getTrailing parsedMsg in
let nick := getNickname (mem s) client in
if vector_empty params || Str.empty trailing then
  if vector_empty params then reply client (ERR_NORECIPIENT M nick) s
  else reply client (ERR_NOTEXTTOSEND M nick) s
else
  let receiver := nth 0 params "" in
  if channel_prefix receiver then
    match getChannel receiver s with
    | None => reply client (ERR_CANNOTSENDTOCHAN M nick receiver) s
    | Some channel =>
        if negb (isClientInChannel nick channel) then
          reply client (ERR_CANNOTSENDTOCHAN M nick receiver) s
        else
          with_mem (sendToOthers client (RPL_PRIVMSG M nick nick receiver trailing)
                                 channel (mem s)) s
    end
  else if negb (isUserInServer receiver s) then
    reply client (ERR_NOSUCHNICK M nick receiver) s
  else
    match getClient receiver s with
    | Some recipientClient =>
        with_mem (push_reply recipientClient
                    (RPL_PRIVMSG M nick (getUsername (mem s) client) receiver trailing)
                    (mem s)) s
    | None => s
    end.

(** A rendering of the macros as literal text, for the sample runs. *)
Definition sample_macros : PrivmsgMacros :=
{| ERR_NORECIPIENT := fun n => [Literal ("411 " ++ n)%string];
   ERR_NOTEXTTOSEND := fun n => [Literal ("412 " ++ n)%string];
   ERR_CANNOTSENDTOCHAN := fun n c => [Literal ("404 " ++ n ++ " " ++ c)%string];
   ERR_NOSUCHNICK := fun n t => [Literal ("401 " ++ n ++ " " ++ t)%string];
   RPL_PRIVMSG := fun n u t m =>
                    [Literal (":" ++ n ++ "!" ++ u ++ " PRIVMSG " ++ t ++ " :" ++ m)%string] |}.

(* ------------------------------------------------------------------ *)
(** *** Further sample states *)

Module Sample2.



(** [#room] as in [Sample.room], with topic protection switched off. *)
Definition open_room : Channel :=
{| channelName := "#room";
   users := [("alice", 1%nat); ("bob", 2%nat); ("carol", 3%nat)];
   operators := [("alice", 1%nat)];
   inviteList := [];
   modes := [("i"%char, false); ("k"%char, false); ("l"%char, false);
             ("o"%char, false); ("t"%char, false)];
   _topic := ""; _key := ""; UserLimit := 0 |}.

(** In [Sample.s_room], alice has sent [MODE #room -t]. *)
Definition s_open : Server :=
handelModeCommand 1 (Sample.line "MODE #room -t") Sample.s_room.

End Sample2.

(* ------------------------------------------------------------------ *)
(** *** A JOIN list up to the channel it comes to *)

(** A JOIN with one or two parameters whose channel list is [before],
    then [chanName], then more, where the loop runs through [before]
    without leaving: every name of [before] that has a channel prefix is
    not registered (the JOIN creates it) and stands there once, and
    [chanName], which has a prefix, is not among them. *)
Definition JoinComesTo (ParsedMsg : ParseMessage) (s : Server)
  (before : list string) (chanName : string) : Prop :=
exists rest,
  (List.length (getParams ParsedMsg) = 1 \/ List.length (getParams ParsedMsg) = 2)%nat /\
  ft_split (nth 0 (getParams ParsedMsg) "") "," = before ++ chanName :: rest /\
  (forall n, In n before -> channel_prefix n = true -> getChannel n s = None) /\
  NoDup (List.filter channel_prefix before) /\
  ~ In chanName before /\
  channel_prefix chanName = true.

Module Sample3.

(** [Sample.s_room] after [removeClient] has run for alice on [#room]
    while alice stays connected: the registry a departure of alice from
    the channel leaves behind. *)
Definition s_left : Server :=
with_channels
  (StdMap.assign "#room" (removeClient (mem Sample.s_room) 1 Sample.room)
                 (_channels Sample.s_room))
  Sample.s_room.

(** alice, out of [#room], renames herself. *)
Definition s_renamed : Server :=
nickCommand 1 (getParams (Sample.line "NICK alicia")) s_left.

(** bob then takes the nickname alice gave up. *)
Definition s_taken : Server :=
nickCommand 2 (getParams (Sample.line "NICK alice")) s_renamed.

(** In [Sample.s_room], alice has made bob an operator and then taken
    the status from herself: bob is the only operator, and the [o] flag
    of the channel, raised by the first command, is clear again. *)
Definition s_bob_op : Server :=
handelModeCommand 1 (Sample.line "MODE #room -o alice")
  (handelModeCommand 1 (Sample.line "MODE #room +o bob") Sample.s_room).

End Sample3.

(* ================================================================== *)
(** * Properties *)

(* ------------------------------------------------------------------ *)
(** ** Facts about [std::map] *)

Lemma key_eqb_refl {K} `{Ordered K} (k : K) : key_eqb k k = true.
Proof. destruct (key_eqb_spec k k); congruence. Qed.

Lemma key_eqb_neq {K} `{Ordered K} (a b : K) : a <> b -> key_eqb a b = false.
Proof. intros Hab. destruct (key_eqb_spec a b); congruence. Qed.

Section StdMapFacts.
Context {K V : Type} `{Ordered K}.
Implicit Types (k j : K) (v : V) (m : StdMap.t K V).
Import StdMap.

(** *** Lookup after update *)

Lemma find_assign_same k v m : find k (assign k v m) = Some v.
Proof.
    induction m as [|[k' v'] r IH]; simpl.
    - now rewrite key_eqb_refl.
    - destruct (key_eqb_spec k k') as [->|Hne]; simpl.
      + now rewrite key_eqb_refl.
      + destruct (key_ltb k k'); simpl.
        * now rewrite key_eqb_refl.
        * now rewrite (key_eqb_neq Hne).
Qed.

Lemma find_assign_other k j v m :
    k <> j -> find j (assign k v m) = find j m.
Proof.
    intros Hkj. induction m as [|[k' v'] r IH]; simpl.
    - rewrite key_eqb_neq; auto.
    - destruct (key_eqb_spec k k') as [->|Hne]; simpl.
      + rewrite !key_eqb_neq; auto.
      + destruct (key_ltb k k'); simpl.
        * rewrite (@key_eqb_neq _ _ j k); auto.
        * destruct (key_eqb j k'); auto.
Qed.

Lemma find_erase_same k m : find k (erase k m) = None.
Proof.
    induction m as [|[k' v'] r IH]; simpl; auto.
    destruct (key_eqb_spec k k') as [->|Hne]; simpl; auto.
    now rewrite (key_eqb_neq Hne).
Qed.

Lemma find_erase_other k j m :
    k <> j -> find j (erase k m) = find j m.
Proof.
    intros Hkj. induction m as [|[k' v'] r IH]; simpl; auto.
    destruct (key_eqb_spec k k') as [->|Hne]; simpl.
    - rewrite (@key_eqb_neq _ _ j k'); auto.
    - now rewrite IH.
Qed.

Lemma find_assign k j v m :
    find j (assign k v m) = if key_eqb j k then Some v else find j m.
Proof.
    destruct (key_eqb_spec j k) as [->|Hne].
    - apply find_assign_same.
    - apply find_assign_other; auto.
Qed.

Lemma find_erase k j m :
    find j (erase k m) = if key_eqb j k then None else find j m.
Proof.
    destruct (key_eqb_spec j k) as [->|Hne].
    - apply find_erase_same.
    - apply find_erase_other; auto.
Qed.

Lemma erase_absent k m : find k m = None -> erase k m = m.
Proof.
    induction m as [|[k' v'] r IH]; simpl; auto.
    destruct (key_eqb k k'); [discriminate|].
    intros Hf. now rewrite IH.
Qed.

Lemma begin_find m k v : begin m = Some (k, v) -> find k m = Some v.
Proof.
    destruct m as [|[k' v'] r]; simpl; [discriminate|].
    intros [= -> ->]. now rewrite key_eqb_refl.
Qed.

Lemma empty_find m : empty m = true -> forall k, find k m = None.
Proof. destruct m; [reflexivity|discriminate]. Qed.

Lemma begin_nonempty m : empty m = false -> exists kv, begin m = Some kv.
Proof. destruct m as [|kv r]; [discriminate|]. now exists kv. Qed.

Lemma contains_assign k j v m :
    contains j (assign k v m) = key_eqb j k || contains j m.
Proof.
    unfold contains. rewrite find_assign. now destruct (key_eqb j k).
Qed.

Lemma contains_erase k j m :
    contains j (erase k m) = negb (key_eqb j k) && contains j m.
Proof.
    unfold contains. rewrite find_erase. now destruct (key_eqb j k).
Qed.

Lemma contains_empty m j : empty m = true -> contains j m = false.
Proof. unfold contains. intros E. now rewrite (empty_find _ E). Qed.

Lemma contains_false m k : contains k m = false -> find k m = None.
Proof. unfold contains. now destruct (find k m). Qed.

Lemma keys_contains m k : In k (keys m) <-> contains k m = true.
Proof.
    unfold contains, keys. induction m as [|[k' v'] r IH]; simpl.
    - split; [tauto|discriminate].
    - destruct (key_eqb_spec k k') as [->|Hne].
      + split; auto.
      + rewrite <- IH. split; [intros [E|I]; [congruence|auto]|auto].
Qed.

End StdMapFacts.

(* ------------------------------------------------------------------ *)
(** ** The member maps under the channel methods *)

Lemma setMode_users c b ch : users (snd (setMode c b ch)) = users ch.
Proof.
  unfold setMode. destruct (StdMap.find c (modes ch)) as [cur|]; [|reflexivity].
  now destruct (Bool.eqb b cur).
Qed.

Lemma setMode_operators c b ch : operators (snd (setMode c b ch)) = operators ch.
Proof.
  unfold setMode. destruct (StdMap.find c (modes ch)) as [cur|]; [|reflexivity].
  now destruct (Bool.eqb b cur).
Qed.

Lemma setMode_inviteList c b ch : inviteList (snd (setMode c b ch)) = inviteList ch.
Proof.
  unfold setMode. destruct (StdMap.find c (modes ch)) as [cur|]; [|reflexivity].
  now destruct (Bool.eqb b cur).
Qed.

Lemma addClient_users h p ch :
  users (addClient h p ch) = StdMap.assign (getNickname h p) p (users ch).
Proof.
  unfold addClient.
  destruct (isInvited _ _); simpl;
    destruct (StdMap.size _ =? 0)%nat; reflexivity.
Qed.

Lemma addClient_operators h p ch :
  operators (addClient h p ch) =
  if (StdMap.size (operators ch) =? 0)%nat
  then StdMap.assign (getNickname h p) p (operators ch)
  else operators ch.
Proof.
  unfold addClient.
  destruct (isInvited _ _); simpl;
    destruct (StdMap.size (operators ch) =? 0)%nat; reflexivity.
Qed.

Lemma removeOperator_users n ch : users (removeOperator n ch) = users ch.
Proof.
  unfold removeOperator.
  set (ch1 := match StdMap.find n (operators ch) with
              | Some _ => _ | None => ch end).
  assert (E : users ch1 = users ch).
  { subst ch1. destruct (StdMap.find n (operators ch)); [|reflexivity].
    now rewrite setMode_users. }
  destruct (StdMap.empty (operators ch1) && negb (StdMap.empty (users ch1))); auto.
  destruct (StdMap.begin (users ch1)) as [[k v]|]; auto.
Qed.

(** What [removeOperator] leaves in [operators]: the map without
    [n], refilled from the first user when that leaves it empty. *)
Lemma removeOperator_operators n ch :
  let o1 := StdMap.erase n (operators ch) in
  operators (removeOperator n ch) =
  if StdMap.empty o1 && negb (StdMap.empty (users ch))
  then match StdMap.begin (users ch) with
       | Some (k, v) => StdMap.assign k v o1
       | None => o1
       end
  else o1.
Proof.
  intros o1. unfold removeOperator.
  set (ch1 := match StdMap.find n (operators ch) with
              | Some _ => _ | None => ch end).
  assert (Eu : users ch1 = users ch).
  { subst ch1. destruct (StdMap.find n (operators ch)); [|reflexivity].
    now rewrite setMode_users. }
  assert (Eo : operators ch1 = o1).
  { subst ch1 o1. destruct (StdMap.find n (operators ch)) eqn:F.
    - now rewrite setMode_operators.
    - now rewrite erase_absent. }
  rewrite Eu, Eo.
  destruct (StdMap.empty o1 && negb (StdMap.empty (users ch))); auto.
  destruct (StdMap.begin (users ch)) as [[k v]|]; auto.
Qed.

Lemma removeClient_users h p ch :
  users (removeClient h p ch) = StdMap.erase (getNickname h p) (users ch).
Proof.
  unfold removeClient. rewrite removeOperator_users.
  destruct (StdMap.find (getNickname h p) (users ch)) eqn:F; simpl;
    rewrite ?removeOperator_users; auto.
  now rewrite erase_absent.
Qed.

Lemma removeClient_operators h p ch :
  operators (removeClient h p ch) = operators (removeOperator (getNickname h p) ch).
Proof.
  unfold removeClient. rewrite removeOperator_users.
  now destruct (StdMap.find (getNickname h p) (users ch)).
Qed.

Lemma updateNickname_maps o n ch :
  users (updateNickname o n ch) = rekey o n (users ch) /\
  operators (updateNickname o n ch) = rekey o n (operators ch) /\
  inviteList (updateNickname o n ch) = rekey o n (inviteList ch).
Proof.
  unfold updateNickname, rekey.
  destruct (StdMap.find o (users ch)); simpl;
    destruct (StdMap.find o (operators ch)); simpl;
      destruct (StdMap.find o (inviteList ch)); simpl; auto.
Qed.

Lemma find_rekey_old o n m : o <> n -> StdMap.find o (rekey o n m) = None.
Proof.
  intros Hne. unfold rekey. destruct (StdMap.find o m) eqn:F; auto.
  rewrite find_assign_other by congruence. apply find_erase_same.
Qed.

Lemma find_rekey_new o n m :
  o <> n -> StdMap.find n m = None ->
  StdMap.find n (rekey o n m) = StdMap.find o m.
Proof.
  intros Hne Hfresh. unfold rekey. destruct (StdMap.find o m) eqn:F; auto.
  apply find_assign_same.
Qed.

Lemma find_rekey_other o n j m :
  j <> o -> j <> n -> StdMap.find j (rekey o n m) = StdMap.find j m.
Proof.
  intros Ho Hn. unfold rekey. destruct (StdMap.find o m) eqn:F; auto.
  rewrite find_assign_other by congruence.
  apply find_erase_other. congruence.
Qed.

(* ------------------------------------------------------------------ *)
(** ** [operators ⊆ users] *)

Lemma ops_subset_usersb_spec ch :
  ops_subset_usersb ch = true <-> ops_subset_users ch.
Proof.
  unfold ops_subset_usersb, ops_subset_users, isOperator.
  rewrite forallb_forall. split; intros I n Hn; apply I.
  - now apply keys_contains.
  - now apply keys_contains in Hn.
Qed.

Lemma addClient_subset h p ch :
  ops_subset_users ch -> ops_subset_users (addClient h p ch).
Proof.
  intros I n. unfold isOperator, isClientInChannel.
  rewrite addClient_users, addClient_operators, contains_assign.
  destruct (StdMap.size (operators ch) =? 0)%nat.
  - rewrite contains_assign.
    destruct (key_eqb n (getNickname h p)); simpl; auto. apply I.
  - intros Hn. apply I in Hn. unfold isClientInChannel in Hn.
    rewrite Hn. apply orb_true_r.
Qed.

Lemma addOperator_subset h n ch :
  users_keyed h ch -> ops_subset_users ch -> ops_subset_users (addOperator h n ch).
Proof.
  intros Hk I m. unfold addOperator.
  destruct (StdMap.find n (users ch)) as [p|] eqn:F; [|apply I].
  unfold isOperator, isClientInChannel.
  rewrite setMode_operators, setMode_users. simpl.
  rewrite contains_assign, (Hk _ _ F).
  destruct (key_eqb_spec m n) as [->|Hne]; simpl.
  - intros _. unfold StdMap.contains. now rewrite F.
  - apply I.
Qed.

Lemma removeOperator_subset n ch :
  ops_subset_users ch -> ops_subset_users (removeOperator n ch).
Proof.
  intros I m. unfold isOperator, isClientInChannel.
  rewrite removeOperator_users, removeOperator_operators.
  assert (E : StdMap.contains m (StdMap.erase n (operators ch)) = true ->
              StdMap.contains m (users ch) = true).
  { rewrite contains_erase. intros [_ Hm]%andb_prop. now apply I. }
  destruct (StdMap.empty _ && negb (StdMap.empty (users ch))); auto.
  destruct (StdMap.begin (users ch)) as [[k v]|] eqn:B; auto.
  rewrite contains_assign.
  destruct (key_eqb_spec m k) as [->|Hne]; simpl; auto.
  intros _. unfold StdMap.contains. now rewrite (begin_find _ B).
Qed.

Lemma contains_rekey o n j m :
  StdMap.contains j (rekey o n m) =
  if StdMap.contains o m
  then key_eqb j n || (negb (key_eqb j o) && StdMap.contains j m)
  else StdMap.contains j m.
Proof.
  unfold rekey, StdMap.contains at 2.
  destruct (StdMap.find o m); auto.
  now rewrite contains_assign, contains_erase.
Qed.

Lemma updateNickname_subset o n ch :
  ops_subset_users ch -> ops_subset_users (updateNickname o n ch).
Proof.
  intros I m. unfold isOperator, isClientInChannel.
  destruct (updateNickname_maps o n ch) as (-> & -> & _).
  rewrite !contains_rekey.
  destruct (StdMap.contains o (operators ch)) eqn:Oo.
  - pose proof (I _ Oo) as Uo. unfold isClientInChannel in Uo. rewrite Uo.
    destruct (key_eqb m n), (key_eqb m o); simpl; auto. exact (I m).
  - destruct (StdMap.contains o (users ch)) eqn:Uo; [|exact (I m)].
    intros Hm. destruct (key_eqb_spec m o) as [->|Hne]; [congruence|].
    apply I in Hm. unfold isClientInChannel in Hm. rewrite Hm.
    apply orb_true_r.
Qed.

(** [removeClient] keeps the inclusion whenever an operator other than
    the departing client remains, which is the situation of KICK: the
    kicker is an operator and cannot name itself. *)
Lemma removeClient_subset_other h p ch m :
  ops_subset_users ch ->
  m <> getNickname h p -> isOperator m ch = true ->
  ops_subset_users (removeClient h p ch).
Proof.
  intros I Hm Om j. unfold isOperator, isClientInChannel.
  rewrite removeClient_users, removeClient_operators, removeOperator_operators.
  assert (Hm1 : StdMap.contains m (StdMap.erase (getNickname h p) (operators ch)) = true).
  { rewrite contains_erase, (key_eqb_neq Hm). exact Om. }
  assert (Hne : StdMap.empty (StdMap.erase (getNickname h p) (operators ch)) = false).
  { destruct (StdMap.empty _) eqn:E; auto.
    rewrite (contains_empty _ m E) in Hm1. discriminate. }
  rewrite Hne. simpl. rewrite !contains_erase.
  intros [-> Hj]%andb_prop. simpl. now apply I.
Qed.

(** C1 (operators ⊆ users after every channel-mutating operation; in
    particular removeClient(c) removes c from operators and users).
    The code breaks it: [removeClient] calls [removeOperator] while the
    departing client is still in [users], so a sole operator who is the
    first user in key order is promoted again and then erased from
    [users] only.  On [#room], as three JOINs build it (users alice, bob
    and carol, operator alice), [removeClient(alice)] leaves alice in
    [operators] and outside [users]. *)
Theorem C1_removeClient_keeps_departed_operator :
  getChannel "#room" Sample.s_room = Some Sample.room /\
  ops_subset_usersb Sample.room = true /\
  users (removeClient (mem Sample.s_room) 1 Sample.room)
    = [("bob", 2%nat); ("carol", 3%nat)] /\
  operators (removeClient (mem Sample.s_room) 1 Sample.room)
    = [("alice", 1%nat)] /\
  ops_subset_usersb (removeClient (mem Sample.s_room) 1 Sample.room) = false /\
  ~ ops_subset_users (removeClient (mem Sample.s_room) 1 Sample.room).
Proof.
  repeat split; try (vm_compute; reflexivity).
  intros I. apply ops_subset_usersb_spec in I. vm_compute in I. discriminate.
Qed.

(* ------------------------------------------------------------------ *)
(** ** JOIN *)

Lemma reply_channels client msg s : _channels (reply client msg s) = _channels s.
Proof. reflexivity. Qed.

Lemma join_loop_skip client keys skipped chans s :
  forallb (fun n => negb (channel_prefix n)) skipped = true ->
  join_loop client keys (skipped ++ chans) s = join_loop client keys chans s.
Proof.
  induction skipped as [|n r IH]; simpl; auto.
  intros [Hn Hr]%andb_prop. rewrite Hn. auto.
Qed.

(** The loop leaves at the first existing channel it processes: what
    follows it in the list is never looked at. *)
Lemma join_loop_existing client keys chanName rest ch s :
  channel_prefix chanName = true ->
  getChannel chanName s = Some ch ->
  join_loop client keys (chanName :: rest) s
  = join_existing client chanName keys ch s.
Proof. intros Hp Hg. simpl. now rewrite Hp, Hg. Qed.


(** A refused admission pushes the refusal on the client and touches
    nothing else. *)
Lemma join_existing_refused client chanName keys ch s r :
  join_checks (mem s) client chanName keys ch = (r, false) ->
  join_existing client chanName keys ch s = reply client r s.
Proof. intros E. unfold join_existing. now rewrite E. Qed.

Lemma outbox_reply s client msg c :
  StdMap.find client (mem s) = Some c ->
  outbox (reply client msg s) client = outbox s client ++ [msg].
Proof.
  intros F. unfold outbox, reply, deref, push_reply. simpl.
  rewrite F. now rewrite find_assign_same.
Qed.

Lemma find_push_reply_other p q msg h :
  q <> p -> StdMap.find q (push_reply p msg h) = StdMap.find q h.
Proof.
  intros Hne. unfold push_reply. destruct (StdMap.find p h); auto.
  apply find_assign_other. congruence.
Qed.

(** C2 (every channel of a JOIN list is processed, each paired with the
    key at the same position).  The code does neither.  The loop leaves
    at the first existing channel, and the key iterator only moves in
    that branch, so the one existing channel it examines is always
    tested against the first key.  In [s_keyed], where [#b] exists with
    key [k2]:
    - [JOIN #b k2] admits alice;
    - [JOIN #a,#b k1,k2] creates [#a] and then refuses [#b] with
      ERR_BADCHANNELKEY, having compared [k1] with [k2];
    - [JOIN #b,#c k2] admits alice to [#b] and never creates [#c]. *)
Theorem C2_join_list_cut_short_and_first_key_only :
  (exists ch, getChannel "#b" (joinCommand 1 (Sample.line "JOIN #b k2") Sample.s_keyed)
              = Some ch /\ isClientInChannel "alice" ch = true) /\
  (let s' := joinCommand 1 (Sample.line "JOIN #a,#b k1,k2") Sample.s_keyed in
   isChannelInServer "#a" s' = true /\
   getChannel "#b" s' = Some Sample.keyed_b /\
   last (outbox s' 1) [] = [ERR_BADCHANNELKEY "alice" "#b"]) /\
  (let s' := joinCommand 1 (Sample.line "JOIN #b,#c k2") Sample.s_keyed in
   (exists ch, getChannel "#b" s' = Some ch /\ isClientInChannel "alice" ch = true) /\
   isChannelInServer "#c" s' = false /\
   List.length (outbox s' 1) = 1%nat).
Proof.
  split; [|split].
  - eexists. split; vm_compute; reflexivity.
  - repeat split; vm_compute; reflexivity.
  - split; [|split]; [eexists; split|..]; vm_compute; reflexivity.
Qed.

(* ------------------------------------------------------------------ *)
(** ** MODE [o] *)

(** After [removeOperator n], [n] is an operator only if the map ran
    empty and [n], the first user, was promoted back, alone. *)
Lemma removeOperator_still_operator n ch :
  isOperator n (removeOperator n ch) = true ->
  (exists v, StdMap.begin (users ch) = Some (n, v)) /\
  (forall m, isOperator m (removeOperator n ch) = true -> m = n).
Proof.
  unfold isOperator. rewrite removeOperator_operators.
  destruct (StdMap.empty (StdMap.erase n (operators ch))) eqn:E; simpl.
  2:{ unfold StdMap.contains. now rewrite find_erase_same. }
  destruct (negb (StdMap.empty (users ch))).
  2:{ unfold StdMap.contains. now rewrite find_erase_same. }
  destruct (StdMap.begin (users ch)) as [[k v]|] eqn:B.
  2:{ unfold StdMap.contains. now rewrite find_erase_same. }
  rewrite contains_assign, (contains_empty _ n E), orb_false_r.
  intros Hk. destruct (key_eqb_spec n k) as [->|]; [|discriminate].
  split; [now exists v|].
  intros m. rewrite contains_assign, (contains_empty _ m E), orb_false_r.
  intros Hm. now destruct (key_eqb_spec m k).
Qed.

(** Closed statements about the sample states are settled by running
    the handlers. *)
Ltac evaluate :=
  repeat match goal with
         | |- _ /\ _ => split
         | |- exists _, _ => eexists
         end;
  vm_compute; reflexivity.

(** What [handleOperatorMode] does with an argument that names an entry
    of [users] keyed by the nickname its client holds.  It first
    compares the direction with the channel's [o] flag: when they agree
    it returns at once and reads no argument; when they differ, [+]
    enters the nick in [operators] and [-] calls [removeOperator], after
    which the nick is an operator only if it is the first user and was
    promoted back as the sole operator. *)
Lemma handleOperatorMode_gated client isAdding params st p :
  let ch := m_channel st in
  let i := paramIndex st in
  let targetNick := nth i params "" in
  (i < List.length params)%nat ->
  StdMap.find targetNick (users ch) = Some p ->
  getNickname (m_mem st) p = targetNick ->
  let r := handleOperatorMode client isAdding params st in
  (mode_flag "o" ch = isAdding -> r = (false, st)) /\
  (mode_flag "o" ch = negb isAdding ->
   fst r = true /\
   paramIndex (snd r) = S i /\
   m_mem (snd r) = m_mem st /\
   (isAdding = true ->
    StdMap.find targetNick (operators (m_channel (snd r))) = Some p) /\
   (isAdding = false ->
    m_channel (snd r) = removeOperator targetNick ch /\
    (isOperator targetNick (m_channel (snd r)) = true ->
     (exists v, StdMap.begin (users ch) = Some (targetNick, v)) /\
     (forall m, isOperator m (m_channel (snd r)) = true -> m = targetNick)))).
Proof.
  intros ch i targetNick Hi Hu Hn r. subst r. unfold handleOperatorMode.
  fold ch i. split.
  - intros ->. now rewrite eqb_reflx.
  - intros ->. rewrite eqb_negb2.
    apply Nat.ltb_lt in Hi. rewrite Hi. fold targetNick.
    assert (Hin : isClientInChannel targetNick ch = true)
      by (unfold isClientInChannel, StdMap.contains; now rewrite Hu).
    rewrite Hin. simpl.
    split; [reflexivity|split; [reflexivity|split; [reflexivity|split]]].
    + intros ->. unfold addOperator. fold ch. rewrite Hu, Hn.
      rewrite setMode_operators. simpl. apply find_assign_same.
    + intros ->. split; [reflexivity|].
      apply removeOperator_still_operator.
Qed.

(** C4 (MODE [+o nick] from an operator makes a member an operator,
    [-o nick] takes the status away, and each [o] consumes one
    positional argument).  The handler is documented as
    "+o <nickname>: Grant operator status", yet it starts with the test
    of [handleKeyMode], applied to the channel-wide [o] flag, and
    returns before it looks at the nickname when the flag already has
    the direction.  In [s_oflag] the flag is set (alice once sent
    [+o alice]), alice is the operator and carol a member:
    - [MODE #room +o carol] from alice changes nothing at all and is
      answered by nothing;
    - in [MODE #room +ok carol secret] the letter [o] leaves its argument
      unread, so [k] takes [carol] for the key;
    - in [s_room], where the flag is clear, the same [+o carol] makes
      carol an operator.
    In [s_bob_op] the flag is clear and bob is the one operator:
    [MODE #room -o bob] from bob changes nothing and bob stays
    operator. *)
Theorem C4_plus_o_ignored_while_o_flag_is_set :
  (exists ch,
     getChannel "#room" Sample.s_oflag = Some ch /\
     isOperator "alice" ch = true /\
     StdMap.find "carol" (users ch) = Some 3%nat /\
     isOperator "carol" ch = false /\
     checkMode "o" ch = true) /\
  handelModeCommand 1 (Sample.line "MODE #room +o carol") Sample.s_oflag
  = Sample.s_oflag /\
  (exists ch,
     getChannel "#room"
       (handelModeCommand 1 (Sample.line "MODE #room +ok carol secret") Sample.s_oflag)
     = Some ch /\
     isOperator "carol" ch = false /\
     getKey ch = "carol") /\
  (exists ch,
     getChannel "#room"
       (handelModeCommand 1 (Sample.line "MODE #room +o carol") Sample.s_room)
     = Some ch /\
     isOperator "carol" ch = true) /\
  (exists ch,
     getChannel "#room" Sample3.s_bob_op = Some ch /\
     isOperator "bob" ch = true /\
     isClientInChannel "bob" ch = true /\
     checkMode "o" ch = false) /\
  handelModeCommand 2 (Sample.line "MODE #room -o bob") Sample3.s_bob_op
  = Sample3.s_bob_op.
Proof. evaluate. Qed.

(* ------------------------------------------------------------------ *)
(** ** MODE: what is reported *)

(** A flag set twice: the second call reports no change. *)
Lemma setMode_twice c b ch : fst (setMode c b (snd (setMode c b ch))) = false.
Proof.
  unfold setMode at 2.
  destruct (StdMap.find c (modes ch)) as [cur|] eqn:F; simpl.
  - destruct (Bool.eqb b cur) eqn:E; simpl; unfold setMode; simpl.
    + now rewrite F, E.
    + now rewrite find_assign_same, eqb_reflx.
  - unfold setMode. now rewrite F.
Qed.

(** A letter that [processSingleChannelMode] reports as not applied
    leaves the channel record as it was. *)
Lemma mode_not_applied_keeps_channel client mode isAdding params st :
  fst (processSingleChannelMode client mode isAdding params st) = false ->
  m_channel (snd (processSingleChannelMode client mode isAdding params st))
  = m_channel st.
Proof.
  unfold processSingleChannelMode, handleKeyMode, handleLimitMode,
    handleOperatorMode, setMode.
  repeat match goal with
         | |- context [if ?b then _ else _] => destruct b; simpl; auto
         | |- context [match StdMap.find ?c ?m with _ => _ end] =>
             destruct (StdMap.find c m); simpl; auto
         end; discriminate.
Qed.

(** C6 (a toggle that changes nothing is not reported; no effect, no
    broadcast).  The code reports [-o] whenever the [o] flag is set and
    the argument names a member, whether or not that member is an
    operator.  In [s_oflag] bob is a member of [#room] and no operator:
    [MODE #room -o bob] from alice leaves the registry as it was and
    still broadcasts [MODE -o] to all three members, and it does so
    again when repeated.  By contrast [+i] is reported once: a second
    [+i] changes and sends nothing. *)
Theorem C6_minus_o_on_non_operator_is_broadcast :
  let cmd := Sample.line "MODE #room -o bob" in
  let notice := [MODE_CHANNELCHANGEMODE (user_id "alice" "al") "#room" "-o"] in
  let s := Sample.s_oflag in
  let s1 := handelModeCommand 1 cmd s in
  let s2 := handelModeCommand 1 cmd s1 in
  (exists ch, getChannel "#room" s = Some ch /\
              isOperator "bob" ch = false /\ isClientInChannel "bob" ch = true) /\
  _channels s1 = _channels s /\
  List.map (outbox s1) [1; 2; 3]%nat
  = List.map (fun q => outbox s q ++ [notice]) [1; 2; 3]%nat /\
  _channels s2 = _channels s1 /\
  List.map (outbox s2) [1; 2; 3]%nat
  = List.map (fun q => outbox s1 q ++ [notice]) [1; 2; 3]%nat /\
  (let t1 := handelModeCommand 1 (Sample.line "MODE #room +i") s in
   handelModeCommand 1 (Sample.line "MODE #room +i") t1 = t1).
Proof.
  split; [eexists; repeat split; vm_compute; reflexivity|].
  repeat split; vm_compute; reflexivity.
Qed.

(* ------------------------------------------------------------------ *)
(** ** MODE on a nickname *)

(** C10: MODE on a target that has no channel prefix and is in the
    nickname index returns the server as it was: no reply is queued for
    anyone and nothing changes. *)
Theorem C10_mode_on_known_nick_is_silent client parsedMsg s target rest :
  mode_params parsedMsg = target :: rest ->
  channel_prefix target = false ->
  isUserInServer target s = true ->
  handelModeCommand client parsedMsg s = s.
Proof.
  intros Hp Hc Hu. unfold handelModeCommand.
  change (if negb (Str.empty (getTrailing parsedMsg))
          then getParams parsedMsg ++ ft_split (getTrailing parsedMsg) " "
          else getParams parsedMsg) with (mode_params parsedMsg).
  rewrite Hp. simpl. now rewrite Hc, Hu.
Qed.

Lemma C10_witness :
  handelModeCommand 1 (Sample.line "MODE bob +i") Sample.s_room = Sample.s_room.
Proof.
  apply (@C10_mode_on_known_nick_is_silent 1 (Sample.line "MODE bob +i")
           Sample.s_room "bob" ["+i"]); vm_compute; reflexivity.
Defined.

(* ------------------------------------------------------------------ *)
(** ** The trailing parameter *)

(** C5 (the trailing parameter is the rest of the original line after
    the leading colon of the first colon token).  The constructor cuts
    the line at [message.find(token) + 1], the first place where the
    text of the token occurs, which need not be the token.  With a tag
    block or a sender prefix in front, the text can occur earlier, and
    the trailing parameter then swallows the command and its
    parameters.  A line where the token text does not occur earlier is
    cut where the claim says. *)
Theorem C5_trailing_cut_at_first_occurrence_of_token_text :
  let tagged := ParseMessage_ctor ("@time=12:30 :PRIVMSG #c :30 is late" ++ CRLF)%string in
  let prefixed := ParseMessage_ctor (":alice PRIVMSG #c :a b" ++ CRLF)%string in
  let plain := ParseMessage_ctor ("PRIVMSG #c :hello : there" ++ CRLF)%string in
  (_cmd tagged = "PRIVMSG" /\ _params tagged = ["#c"] /\
   _trailing tagged = "30 :PRIVMSG #c :30 is late" /\
   _trailing tagged <> "30 is late") /\
  (_params prefixed = ["PRIVMSG"; "#c"] /\
   _trailing prefixed = "alice PRIVMSG #c :a b" /\
   _trailing prefixed <> "a b") /\
  _trailing plain = "hello : there".
Proof.
  repeat split; try (vm_compute; reflexivity); vm_compute; discriminate.
Qed.

(* ------------------------------------------------------------------ *)
(** ** NICK *)

Lemma find_map_values {A B : Type} (f : A -> B) (name : string)
  (m : StdMap.t string A) :
  StdMap.find name (List.map (fun e => (fst e, f (snd e))) m)
  = option_map f (StdMap.find name m).
Proof.
  induction m as [|[k v] r IH]; simpl; auto.
  now destruct (String.eqb name k).
Qed.

(** An accepted NICK maps [nick_update_channel] over the registry. *)
Lemma nickCommand_channels client newNick rest s :
  Str.find_first_of "#@:&" newNick = None ->
  isUserInServer newNick s = false ->
  _channels (nickCommand client (newNick :: rest) s)
  = List.map (fun e => (fst e,
                        nick_update_channel (getNickname (mem s) client) newNick
                                            (snd e)))
             (_channels s).
Proof.
  intros Hv Hu. unfold nickCommand. rewrite Hv.
  unfold isUserInServer in Hu. rewrite Hu, andb_false_r. simpl.
  now destruct (negb (Str.empty (getNickname (mem s) client))).
Qed.

(** The uniqueness index gives the two side conditions of the rekeying:
    a nick that passes the in-use test differs from every nick in a
    channel and is fresh there. *)
Lemma index_gives_fresh s name ch oldNick newNick :
  nick_index_covers s ->
  isUserInServer newNick s = false ->
  StdMap.find name (_channels s) = Some ch ->
  isClientInChannel oldNick ch = true \/ isInvited oldNick ch = true ->
  oldNick <> newNick /\ fresh_in newNick ch.
Proof.
  intros Hc Hu Hf Hold.
  assert (Hnot : ~ In newNick (_nicknames s)).
  { intros Hin. unfold isUserInServer in Hu.
    assert (E : existsb (String.eqb newNick) (_nicknames s) = true).
    { apply existsb_exists. exists newNick. split; auto. apply String.eqb_refl. }
    congruence. }
  split.
  - intros <-. apply Hnot. apply (Hc name ch oldNick Hf).
    destruct Hold; [left|right; right]; assumption.
  - unfold fresh_in.
    assert (G : forall m : StdMap.t string ptr,
                (StdMap.contains newNick m = true -> In newNick (_nicknames s)) ->
                StdMap.find newNick m = None).
    { intros m Hm. unfold StdMap.contains in Hm.
      destruct (StdMap.find newNick m); auto. exfalso. auto. }
    repeat split; apply G; intros Hm; apply (Hc name ch newNick Hf); auto.
Qed.

(** [updateNickname] on a channel that has the old nick in none of its
    maps is the identity. *)
Lemma updateNickname_absent o n ch :
  StdMap.find o (users ch) = None ->
  StdMap.find o (operators ch) = None ->
  StdMap.find o (inviteList ch) = None ->
  updateNickname o n ch = ch.
Proof.
  intros Fu Fo Fi. unfold updateNickname. rewrite Fu, Fo, Fi. now destruct ch.
Qed.

(** An accepted NICK on a registered channel where [updateNickname]
    runs (the old nick is in [users] or in [inviteList]) or where the
    old nick is no operator, for a new nick that differs from the old
    one and is no key of the channel's maps: the old nick is a key of
    none of the three maps, the new nick has in each the entry the old
    one had, and every other entry is as before. *)
Lemma nickCommand_rekeys_channel_maps client newNick rest s name ch :
  let oldNick := getNickname (mem s) client in
  Str.find_first_of "#@:&" newNick = None ->
  isUserInServer newNick s = false ->
  StdMap.find name (_channels s) = Some ch ->
  isClientInChannel oldNick ch = true \/ isInvited oldNick ch = true \/
  isOperator oldNick ch = false ->
  oldNick <> newNick ->
  fresh_in newNick ch ->
  exists ch',
    StdMap.find name (_channels (nickCommand client (newNick :: rest) s)) = Some ch' /\
    ch' = updateNickname oldNick newNick ch /\
    (StdMap.find oldNick (users ch') = None /\
     StdMap.find oldNick (operators ch') = None /\
     StdMap.find oldNick (inviteList ch') = None) /\
    (StdMap.find newNick (users ch') = StdMap.find oldNick (users ch) /\
     StdMap.find newNick (operators ch') = StdMap.find oldNick (operators ch) /\
     StdMap.find newNick (inviteList ch') = StdMap.find oldNick (inviteList ch)) /\
    (forall j, j <> oldNick -> j <> newNick ->
       StdMap.find j (users ch') = StdMap.find j (users ch) /\
       StdMap.find j (operators ch') = StdMap.find j (operators ch) /\
       StdMap.find j (inviteList ch') = StdMap.find j (inviteList ch)).
Proof.
  intros oldNick Hv Hu Hf Hold Hne (Fu & Fo & Fi).
  exists (updateNickname oldNick newNick ch).
  split.
  - rewrite (@nickCommand_channels client newNick rest s Hv Hu), find_map_values, Hf.
    simpl. fold oldNick. unfold nick_update_channel.
    destruct (isClientInChannel oldNick ch) eqn:M; [reflexivity|].
    destruct (isInvited oldNick ch) eqn:Iv; [reflexivity|].
    destruct Hold as [?|[?|Op]]; try discriminate.
    f_equal. symmetry. apply updateNickname_absent; now apply contains_false.
  - destruct (updateNickname_maps oldNick newNick ch) as (-> & -> & ->).
    split; [reflexivity|].
    split; [|split].
    + repeat split; now apply find_rekey_old.
    + repeat split; now apply find_rekey_new.
    + intros j Ho Hn. repeat split; now apply find_rekey_other.
Qed.

(** C8 (after NICK the old nick is in none of [users], [operators],
    [inviteList] of any channel, and the new nick holds the entries the
    old one held).  [nickCommand] calls [updateNickname] only on channels
    where the old nick is in [users] or in [inviteList]; an entry that
    the old nick has in [operators] alone is not looked at.
    [removeClient] leaves such an entry (C1): in [s_left] alice is out
    of [#room] and still keyed in its [operators].
    - [NICK alicia] from alice is accepted, and [#room] keeps the entry
      under [alice]: the old nick is not gone and the new nick did not
      take its place;
    - bob, a member and no operator, whose TOPIC is refused, then sends
      [NICK alice], which is accepted since the index no longer holds
      that nick: his [users] entry is rekeyed to [alice], where the
      stale [operators] entry makes him pass the operator test, and his
      TOPIC is now carried out. *)
Theorem C8_nick_leaves_operator_entry_under_old_nick :
  (exists ch,
     getChannel "#room" Sample3.s_left = Some ch /\
     ch = removeClient (mem Sample.s_room) 1 Sample.room /\
     getNickname (mem Sample3.s_left) 1 = "alice" /\
     StdMap.find "alice" (operators ch) = Some 1%nat /\
     StdMap.find "alice" (users ch) = None /\
     StdMap.find "alice" (inviteList ch) = None) /\
  (exists ch,
     getChannel "#room" Sample3.s_renamed = Some ch /\
     getNickname (mem Sample3.s_renamed) 1 = "alicia" /\
     last (outbox Sample3.s_renamed 1) [] = [RPL_NICK "alice" "al" "alicia"] /\
     _nicknames Sample3.s_renamed = ["bob"; "carol"; "alicia"] /\
     StdMap.find "alice" (operators ch) = Some 1%nat /\
     StdMap.find "alicia" (operators ch) = None /\
     isOperator "bob" ch = false) /\
  last (outbox (topicCommand 2 (Sample.line "TOPIC #room :mine") Sample3.s_renamed) 2) []
  = [ERR_CHANOPRIVSNEEDED "bob" "#room"] /\
  (exists ch,
     getChannel "#room" Sample3.s_taken = Some ch /\
     getNickname (mem Sample3.s_taken) 2 = "alice" /\
     StdMap.find "bob" (operators ch) = None /\
     StdMap.find "alice" (users ch) = Some 2%nat /\
     StdMap.find "alice" (operators ch) = Some 1%nat /\
     isOperator (getNickname (mem Sample3.s_taken) 2) ch = true) /\
  (exists ch,
     getChannel "#room"
       (topicCommand 2 (Sample.line "TOPIC #room :mine") Sample3.s_taken) = Some ch /\
     getTopic ch = "mine").
Proof. evaluate. Qed.

(* ------------------------------------------------------------------ *)
(** ** JOIN and the records it keeps or creates; TOPIC *)

Lemma getNickname_push_reply p msg h q :
  getNickname (push_reply p msg h) q = getNickname h q.
Proof.
  unfold getNickname, deref, push_reply.
  destruct (StdMap.find p h) as [c|] eqn:F; auto.
  rewrite find_assign. destruct (key_eqb_spec q p) as [->|Hne]; auto.
  now rewrite F.
Qed.

Lemma getNickname_broadcast msg ch h q :
  getNickname (broadcastMessage msg ch h) q = getNickname h q.
Proof.
  unfold broadcastMessage. revert h.
  induction (users ch) as [|e r IH]; intros h; simpl; auto.
  rewrite IH. destruct (getFd h (snd e) =? -1)%Z; auto.
  apply getNickname_push_reply.
Qed.

(** The constructor: topic protection on, the other four flags off, no
    topic, the creator the only user and operator. *)
Lemma Channel_ctor_state name h client :
  let ch := Channel_ctor name h client in
  checkMode "t" ch = true /\
  checkMode "i" ch = false /\
  checkMode "k" ch = false /\
  checkMode "o" ch = false /\
  checkMode "l" ch = false /\
  getTopic ch = "" /\
  users ch = [(getNickname h client, client)] /\
  operators ch = [(getNickname h client, client)].
Proof. repeat split. Qed.

(** While the loop runs, a channel the client is already in keeps its
    record: the client is refused there, and the other branches write
    other entries of the registry. *)
Lemma join_loop_keeps_joined client keys chans :
  forall s c0 ch0,
    getChannel c0 s = Some ch0 ->
    isClientInChannel (getNickname (mem s) client) ch0 = true ->
    getChannel c0 (join_loop client keys chans s) = Some ch0.
Proof.
  induction chans as [|n rest IH]; intros s c0 ch0 Hg Hm; simpl; auto.
  destruct (negb (channel_prefix n)); auto.
  destruct (getChannel n s) as [chn|] eqn:Gn.
  - unfold join_existing.
    destruct (String.eqb_spec n c0) as [->|Hne].
    + assert (chn = ch0) by congruence. subst chn.
      unfold join_checks. rewrite Hm. exact Hg.
    + destruct (join_checks _ _ _ _ _) as [r [|]]; auto.
      unfold getChannel. simpl. now rewrite find_assign_other.
  - assert (Hne : n <> c0) by congruence.
    unfold join_new.
    set (s1 := with_channels
                 (StdMap.insert n (Channel_ctor n (mem s) client) (_channels s)) s).
    assert (Hi : getChannel c0 s1 = Some ch0).
    { subst s1. unfold getChannel, StdMap.insert, StdMap.contains in *. simpl.
      rewrite Gn. now rewrite find_assign_other. }
    apply IH; destruct (getChannel n s1); auto.
    simpl. now rewrite getNickname_push_reply.
Qed.


(** Whatever a JOIN lists, it leaves the record of a channel the client
    is already in as it was. *)
Lemma joinCommand_keeps_joined client pm s c0 ch0 :
  getChannel c0 s = Some ch0 ->
  isClientInChannel (getNickname (mem s) client) ch0 = true ->
  getChannel c0 (joinCommand client pm s) = Some ch0.
Proof.
  intros Hg Hm. unfold joinCommand.
  destruct (2 <? List.length (getParams pm))%nat; auto.
  destruct (List.length (getParams pm) <? 1)%nat; auto.
  now apply join_loop_keeps_joined.
Qed.

(** *** JOIN lists: the names before the channel the loop comes to *)

Lemma insert_find_other {V : Type} (k j : string) (v : V) (m : StdMap.t string V) :
  j <> k -> StdMap.find j (StdMap.insert k v m) = StdMap.find j m.
Proof.
  intros Hne. unfold StdMap.insert. destruct (StdMap.contains k m); auto.
  now apply find_assign_other.
Qed.

Lemma join_new_other client n s m :
  m <> n -> getChannel m (join_new client n s) = getChannel m s.
Proof.
  intros Hne. unfold join_new.
  set (s1 := with_channels _ s).
  assert (E : getChannel m s1 = getChannel m s).
  { subst s1. unfold getChannel. simpl. now apply insert_find_other. }
  now destruct (getChannel n s1).
Qed.

Lemma join_new_created client n s :
  getChannel n s = None ->
  getChannel n (join_new client n s) = Some (Channel_ctor n (mem s) client).
Proof.
  intros Hg. unfold join_new.
  set (s1 := with_channels _ s).
  assert (E : getChannel n s1 = Some (Channel_ctor n (mem s) client)).
  { subst s1. unfold getChannel, StdMap.insert, StdMap.contains in *. simpl.
    rewrite Hg. apply find_assign_same. }
  now rewrite E.
Qed.

Lemma join_new_frame client n s :
  (forall q, getNickname (mem (join_new client n s)) q = getNickname (mem s) q) /\
  (forall q, q <> client ->
     StdMap.find q (mem (join_new client n s)) = StdMap.find q (mem s)) /\
  _nicknames (join_new client n s) = _nicknames s /\
  _clients (join_new client n s) = _clients s.
Proof.
  unfold join_new. set (s1 := with_channels _ s).
  destruct (getChannel n s1); simpl.
  - repeat split; auto.
    + intros q. apply getNickname_push_reply.
    + intros q Hq. now apply find_push_reply_other.
  - repeat split; auto.
Qed.

Lemma getUsername_push_reply p msg h q :
  getUsername (push_reply p msg h) q = getUsername h q.
Proof.
  unfold getUsername, deref, push_reply.
  destruct (StdMap.find p h) as [c|] eqn:F; auto.
  rewrite find_assign. destruct (key_eqb_spec q p) as [->|Hne]; auto.
  now rewrite F.
Qed.

Lemma join_new_username client n s q :
  getUsername (mem (join_new client n s)) q = getUsername (mem s) q.
Proof.
  unfold join_new. set (s1 := with_channels _ s).
  destruct (getChannel n s1); simpl; auto. apply getUsername_push_reply.
Qed.

(** The loop over names that are skipped or created. *)
Lemma join_loop_before client keys before :
  forall s,
    (forall n, In n before -> channel_prefix n = true -> getChannel n s = None) ->
    NoDup (List.filter channel_prefix before) ->
    (forall chans,
       join_loop client keys (before ++ chans) s
       = join_loop client keys chans (join_loop client keys before s)) /\
    (forall m, (In m before -> channel_prefix m = false) ->
       getChannel m (join_loop client keys before s) = getChannel m s) /\
    (forall q, getNickname (mem (join_loop client keys before s)) q
               = getNickname (mem s) q) /\
    (forall q, getUsername (mem (join_loop client keys before s)) q
               = getUsername (mem s) q) /\
    (forall q, q <> client ->
       StdMap.find q (mem (join_loop client keys before s)) = StdMap.find q (mem s)) /\
    _nicknames (join_loop client keys before s) = _nicknames s /\
    _clients (join_loop client keys before s) = _clients s.
Proof.
  induction before as [|n r IH]; intros s Hnew Hnd.
  - simpl. repeat split; auto.
  - simpl in Hnd. simpl join_loop.
    destruct (channel_prefix n) eqn:Hp; simpl negb; cbv iota.
    + rewrite (Hnew n (or_introl eq_refl) Hp).
      apply NoDup_cons_iff in Hnd as [Hnotin Hnd].
      assert (Hr : forall m, In m r -> channel_prefix m = true ->
                             getChannel m (join_new client n s) = None).
      { intros m Hm Hpm.
        assert (m <> n).
        { intros ->. apply Hnotin. apply filter_In. auto. }
        rewrite join_new_other by assumption. apply Hnew; simpl; auto. }
      destruct (IH (join_new client n s) Hr Hnd) as (I1 & I2 & I3 & I4 & I5 & I6 & I7).
      destruct (join_new_frame client n s) as (F1 & F2 & F3 & F4).
      split; [exact I1|].
      split; [|split; [|split; [|split; [|split]]]].
      * intros m Hm. rewrite I2 by (intros Hin; apply Hm; simpl; auto).
        apply join_new_other. intros ->.
        specialize (Hm (or_introl eq_refl)). congruence.
      * intros q. now rewrite I3.
      * intros q. rewrite I4. apply join_new_username.
      * intros q Hq. rewrite I5 by assumption. now apply F2.
      * congruence.
      * congruence.
    + assert (Hr : forall m, In m r -> channel_prefix m = true -> getChannel m s = None)
        by (intros m Hm; apply Hnew; simpl; auto).
      destruct (IH s Hr Hnd) as (I1 & I2 & I3 & I4 & I5 & I6 & I7).
      split; [exact I1|].
      split; [|split; [|split; [|split; [|split]]]]; auto.
      intros m Hm. apply I2. intros Hin. apply Hm. simpl; auto.
Qed.

Lemma join_loop_unprefixed client keys before s :
  forallb (fun n => negb (channel_prefix n)) before = true ->
  join_loop client keys before s = s.
Proof.
  intros H. rewrite <- (app_nil_r before). now rewrite join_loop_skip.
Qed.

Lemma join_checks_ext h1 h client chanName keys ch :
  getNickname h1 client = getNickname h client ->
  getUsername h1 client = getUsername h client ->
  join_checks h1 client chanName keys ch = join_checks h client chanName keys ch.
Proof. intros E1 E2. unfold join_checks. now rewrite E1, E2. Qed.

(** A JOIN whose list comes to a registered channel runs the existing
    branch on it, in the state the names before it left. *)
Lemma joinCommand_comes_to client pm s before chanName ch :
  JoinComesTo pm s before chanName ->
  getChannel chanName s = Some ch ->
  joinCommand client pm s
  = join_existing client chanName (join_keys pm) ch
      (join_loop client (join_keys pm) before s).
Proof.
  intros (rest & Hlen & Hsplit & Hnew & Hnd & Hnotin & Hpref) Hget.
  unfold joinCommand. fold (join_keys pm).
  assert (L2 : (2 <? List.length (getParams pm))%nat = false)
    by (apply Nat.ltb_ge; lia).
  assert (L1 : (List.length (getParams pm) <? 1)%nat = false)
    by (apply Nat.ltb_ge; lia).
  rewrite L2, L1, Hsplit.
  destruct (join_loop_before client (join_keys pm) before s Hnew Hnd) as (I1 & I2 & _).
  rewrite I1. apply join_loop_existing; auto.
  rewrite I2; auto. intros Hin. contradiction.
Qed.

Lemma live_after_before client keys before s c :
  StdMap.find client (mem s) = Some c ->
  (forall n, In n before -> channel_prefix n = true -> getChannel n s = None) ->
  NoDup (List.filter channel_prefix before) ->
  exists c1, StdMap.find client (mem (join_loop client keys before s)) = Some c1.
Proof.
  revert s c. induction before as [|n r IH]; intros s c F Hnew Hnd.
  - now exists c.
  - simpl in Hnd. simpl join_loop.
    destruct (channel_prefix n) eqn:Hp; simpl negb; cbv iota.
    + rewrite (Hnew n (or_introl eq_refl) Hp).
      apply NoDup_cons_iff in Hnd as [Hnotin Hnd].
      assert (exists c', StdMap.find client (mem (join_new client n s)) = Some c') as [c' F'].
      { unfold join_new. destruct (getChannel n _); simpl; [|now exists c].
        unfold push_reply. rewrite F, find_assign_same. eauto. }
      apply (IH _ c' F'); auto.
      intros m Hm Hpm. rewrite join_new_other; [apply Hnew; simpl; auto|].
      intros ->. apply Hnotin. apply filter_In. auto.
    + apply (IH s c F); auto. intros m Hm. apply Hnew. simpl; auto.
Qed.

(** A JOIN whose list comes to a registered channel where the admission
    checks fail: the refusal is pushed on the client, in the state the
    names before the channel left, and nothing else is touched. *)
Lemma join_refused client c pm s before chanName ch err :
  StdMap.find client (mem s) = Some c ->
  JoinComesTo pm s before chanName ->
  getChannel chanName s = Some ch ->
  join_checks (mem s) client chanName (join_keys pm) ch = (err, false) ->
  let s1 := join_loop client (join_keys pm) before s in
  let s' := joinCommand client pm s in
  s' = reply client err s1 /\
  outbox s' client = outbox s1 client ++ [err] /\
  (forall q, q <> client -> StdMap.find q (mem s') = StdMap.find q (mem s)) /\
  getChannel chanName s' = Some ch /\
  _channels s' = _channels s1.
Proof.
  intros F HJ Hget Hr s1 s'.
  assert (E : s' = join_existing client chanName (join_keys pm) ch s1)
    by (now apply joinCommand_comes_to).
  destruct HJ as (rest & Hlen & Hsplit & Hnew & Hnd & Hnotin & Hpref).
  destruct (join_loop_before client (join_keys pm) before s Hnew Hnd)
    as (_ & I2 & I3 & I4 & I5 & _).
  fold s1 in I2, I3, I4, I5.
  destruct (live_after_before client (join_keys pm) before s F Hnew Hnd) as [c1 F1].
  fold s1 in F1.
  assert (Hc : join_checks (mem s1) client chanName (join_keys pm) ch
               = join_checks (mem s) client chanName (join_keys pm) ch)
    by (apply join_checks_ext; auto).
  assert (Hg1 : getChannel chanName s1 = Some ch)
    by (rewrite I2; auto; intros Hin; contradiction).
  rewrite <- Hc in Hr.
  assert (E' : s' = reply client err s1)
    by (rewrite E; now apply join_existing_refused).
  rewrite E'.
  split; [reflexivity|].
  split; [now apply outbox_reply with (c := c1)|].
  split; [|split; [exact Hg1|reflexivity]].
  intros q Hq. simpl. rewrite find_push_reply_other by assumption. now apply I5.
Qed.




(** C7 (JOIN of a channel the client is already in: ERR_USERONCHANNEL,
    state unchanged).  Every JOIN, whatever it lists, leaves the record
    of a channel the client is a member of (users, operators, invite
    list, modes, topic, key, limit) as it was, and a JOIN with more than
    two parameters changes nothing at all.  When a JOIN with one or two
    parameters comes to that channel, after names that lack the prefix
    or that it creates, the outcome is the state those names left with
    the one reply ERR_USERONCHANNEL appended to the client's queue: the
    nickname index, the connections and every other client are as
    before, and so is every channel but the ones created.  When no name
    before it is created, the whole registry is as before. *)
Theorem C7_join_already_member_no_change client pm s chanName ch c :
  StdMap.find client (mem s) = Some c ->
  getChannel chanName s = Some ch ->
  isClientInChannel (_nickname c) ch = true ->
  let s' := joinCommand client pm s in
  let err := [ERR_USERONCHANNEL (_username c) (_nickname c) chanName] in
  getChannel chanName s' = Some ch /\
  ((2 < List.length (getParams pm))%nat -> s' = s) /\
  (forall before,
     JoinComesTo pm s before chanName ->
     let s1 := join_loop client (join_keys pm) before s in
     s' = reply client err s1 /\
     outbox s' client = outbox s1 client ++ [err] /\
     _nicknames s' = _nicknames s /\
     _clients s' = _clients s /\
     (forall q, q <> client -> StdMap.find q (mem s') = StdMap.find q (mem s)) /\
     (forall m, (In m before -> channel_prefix m = false) ->
                getChannel m s' = getChannel m s) /\
     (forallb (fun n => negb (channel_prefix n)) before = true ->
      s' = reply client err s /\
      _channels s' = _channels s /\
      outbox s' client = outbox s client ++ [err])).
Proof.
  intros F Hget M s' err.
  assert (Hn : getNickname (mem s) client = _nickname c)
    by (unfold getNickname, deref; now rewrite F).
  split; [|split].
  - apply joinCommand_keeps_joined; auto. now rewrite Hn.
  - intros L. subst s'. unfold joinCommand.
    apply Nat.ltb_lt in L. now rewrite L.
  - intros before HJ s1.
    assert (Hr : join_checks (mem s) client chanName (join_keys pm) ch = (err, false)).
    { unfold join_checks. subst err. rewrite Hn.
      assert (Hu : getUsername (mem s) client = _username c)
        by (unfold getUsername, deref; now rewrite F).
      now rewrite Hu, M. }
    destruct (@join_refused client c pm s before chanName ch err F HJ Hget Hr) as (E & Ho & Hq & Hg & Hc).
    fold s' s1 in E, Ho, Hq, Hg, Hc.
    destruct HJ as (rest & Hlen & Hsplit & Hnew & Hnd & Hnotin & Hpref).
    destruct (join_loop_before client (join_keys pm) before s Hnew Hnd)
      as (_ & I2 & _ & _ & _ & I6 & I7).
    fold s1 in I2, I6, I7.
    split; [exact E|]. split; [exact Ho|].
    split; [now rewrite E|]. split; [now rewrite E|].
    split; [exact Hq|]. split.
    + intros m Hm. rewrite E. now apply I2.
    + intros Hs.
      assert (E1 : s1 = s) by (now apply join_loop_unprefixed).
      rewrite E1 in E, Ho. rewrite E. repeat split; auto. now rewrite <- E.
Qed.

Lemma C7_witness :
  getChannel "#room" (joinCommand 2 (Sample.line "JOIN x,#new,#room") Sample.s_room)
  = Some Sample.room /\
  outbox (joinCommand 2 (Sample.line "JOIN x,#new,#room") Sample.s_room) 2
  = outbox (join_loop 2 [] ["x"; "#new"] Sample.s_room) 2
    ++ [[ERR_USERONCHANNEL "bo" "bob" "#room"]] /\
  StdMap.find 1%nat (mem (joinCommand 2 (Sample.line "JOIN x,#new,#room") Sample.s_room))
  = StdMap.find 1%nat (mem Sample.s_room).
Proof.
  assert (HJ : JoinComesTo (Sample.line "JOIN x,#new,#room") Sample.s_room
                 ["x"; "#new"] "#room").
  { exists []. split; [left; reflexivity|].
    split; [vm_compute; reflexivity|].
    split; [|split; [|split]].
    - intros n Hin _. simpl in Hin.
      destruct Hin as [<-|[<-|[]]]; vm_compute; reflexivity.
    - vm_compute. repeat constructor; simpl; tauto.
    - simpl. intros [H|[H|[]]]; discriminate.
    - vm_compute. reflexivity. }
  assert (F : StdMap.find 2%nat (mem Sample.s_room)
              = Some (deref (mem Sample.s_room) 2)) by (vm_compute; reflexivity).
  assert (G : getChannel "#room" Sample.s_room = Some Sample.room)
    by (vm_compute; reflexivity).
  assert (M : isClientInChannel (_nickname (deref (mem Sample.s_room) 2)) Sample.room = true)
    by (vm_compute; reflexivity).
  destruct (@C7_join_already_member_no_change 2 (Sample.line "JOIN x,#new,#room")
              _ _ _ _ F G M) as (H0 & _ & H).
  destruct (H _ HJ) as (_ & H1 & _ & _ & H2 & _).
  split; [exact H0 | split; [exact H1 | apply H2; discriminate]].
Defined.

(** C7 as stated fails in two ways that the code intends.  A JOIN with
    more than two parameters is dropped: bob, a member of [#room], gets
    no reply to [JOIN #room k extra].  And the names of a list are each
    processed: [JOIN #new,#room] answers ERR_USERONCHANNEL for [#room]
    after it has created [#new], so the registry is not the same. *)
Lemma C7_counterexample :
  getChannel "#room" Sample.s_room = Some Sample.room /\
  isClientInChannel "bob" Sample.room = true /\
  getParams (Sample.line "JOIN #room k extra") = ["#room"; "k"; "extra"] /\
  outbox (joinCommand 2 (Sample.line "JOIN #room k extra") Sample.s_room) 2
  = outbox Sample.s_room 2 /\
  ~ In [ERR_USERONCHANNEL "bo" "bob" "#room"]
       (outbox (joinCommand 2 (Sample.line "JOIN #room k extra") Sample.s_room) 2) /\
  last (outbox (joinCommand 2 (Sample.line "JOIN #new,#room") Sample.s_room) 2) []
  = [ERR_USERONCHANNEL "bo" "bob" "#room"] /\
  isChannelInServer "#new" Sample.s_room = false /\
  isChannelInServer "#new" (joinCommand 2 (Sample.line "JOIN #new,#room") Sample.s_room)
  = true /\
  _channels (joinCommand 2 (Sample.line "JOIN #new,#room") Sample.s_room)
  <> _channels Sample.s_room.
Proof.
  repeat split; try (vm_compute; reflexivity).
  - vm_compute. intuition discriminate.
  - vm_compute. discriminate.
Qed.

Lemma join_new_member client n s :
  getChannel n s = None ->
  isClientInChannel (getNickname (mem (join_new client n s)) client)
                    (Channel_ctor n (mem s) client) = true.
Proof.
  intros Hg. destruct (join_new_frame client n s) as (F1 & _).
  rewrite F1. unfold isClientInChannel, StdMap.contains. simpl.
  now rewrite String.eqb_refl.
Qed.

Lemma join_existing_other client n keys tch s m :
  m <> n ->
  getChannel m (join_existing client n keys tch s) = getChannel m s.
Proof.
  intros Hne. unfold join_existing.
  destruct (join_checks _ _ _ _ _) as [r [|]]; auto.
  unfold getChannel. simpl. now apply find_assign_other.
Qed.

(** A name that is not registered and is registered after the loop was
    created by it, and its record is still the one the constructor
    built. *)
Lemma join_loop_created client keys c chans :
  forall s ch,
    getChannel c s = None ->
    getChannel c (join_loop client keys chans s) = Some ch ->
    exists h, ch = Channel_ctor c h client.
Proof.
  induction chans as [|n rest IH]; intros s ch Hg; simpl.
  - congruence.
  - destruct (negb (channel_prefix n)); [now apply IH|].
    destruct (getChannel n s) as [tch|] eqn:Gn.
    + assert (Hne : c <> n) by congruence.
      rewrite join_existing_other by assumption. congruence.
    + destruct (String.eqb_spec c n) as [->|Hne].
      * rewrite (@join_loop_keeps_joined client keys rest (join_new client n s) n
                   (Channel_ctor n (mem s) client)).
        -- intros [= <-]. eauto.
        -- now apply join_new_created.
        -- now apply join_new_member.
      * apply IH. now rewrite join_new_other.
Qed.

Lemma joinCommand_comes_to_new client pm s before chanName :
  JoinComesTo pm s before chanName ->
  getChannel chanName s = None ->
  getChannel chanName (joinCommand client pm s)
  = Some (Channel_ctor chanName
            (mem (join_loop client (join_keys pm) before s)) client).
Proof.
  intros (rest & Hlen & Hsplit & Hnew & Hnd & Hnotin & Hpref) Hget.
  unfold joinCommand. fold (join_keys pm).
  assert (L2 : (2 <? List.length (getParams pm))%nat = false)
    by (apply Nat.ltb_ge; lia).
  assert (L1 : (List.length (getParams pm) <? 1)%nat = false)
    by (apply Nat.ltb_ge; lia).
  rewrite L2, L1, Hsplit.
  destruct (join_loop_before client (join_keys pm) before s Hnew Hnd) as (I1 & I2 & _).
  rewrite I1.
  set (s1 := join_loop client (join_keys pm) before s) in *.
  assert (G1 : getChannel chanName s1 = None)
    by (rewrite I2; auto; intros Hin; contradiction).
  simpl. rewrite Hpref, G1. simpl.
  apply join_loop_keeps_joined.
  - now apply join_new_created.
  - now apply join_new_member.
Qed.

(** C9: a name that is not registered and is registered after a JOIN
    has mode [t] set, [i], [k], [o], [l] clear and no topic, wherever it
    stands in the list; a JOIN with one or two parameters does register
    every unregistered name with a prefix that its loop comes to; and on
    a channel with [t] set, TOPIC with a text from a member who is no
    operator is answered with ERR_CHANOPRIVSNEEDED, appended to the
    queue of the client, and changes nothing else, whether or not a
    topic was ever set. *)
Theorem C9_new_channel_is_topic_protected :
  (forall client pm s chanName ch,
     getChannel chanName s = None ->
     getChannel chanName (joinCommand client pm s) = Some ch ->
     checkMode "t" ch = true /\
     checkMode "i" ch = false /\
     checkMode "k" ch = false /\
     checkMode "o" ch = false /\
     checkMode "l" ch = false /\
     getTopic ch = "") /\
  (forall client pm s before chanName,
     JoinComesTo pm s before chanName ->
     getChannel chanName s = None ->
     exists ch, getChannel chanName (joinCommand client pm s) = Some ch) /\
  (forall client pm s chanName rest ch,
     getParams pm = chanName :: rest ->
     channel_prefix chanName = true ->
     getChannel chanName s = Some ch ->
     checkMode "t" ch = true ->
     isClientInChannel (getNickname (mem s) client) ch = true ->
     isOperator (getNickname (mem s) client) ch = false ->
     Str.empty (getTrailing pm) = false ->
     topicCommand client pm s
     = reply client [ERR_CHANOPRIVSNEEDED (getNickname (mem s) client) chanName] s) /\
  (forall client c pm s chanName rest ch,
     StdMap.find client (mem s) = Some c ->
     getParams pm = chanName :: rest ->
     channel_prefix chanName = true ->
     getChannel chanName s = Some ch ->
     checkMode "t" ch = true ->
     isClientInChannel (_nickname c) ch = true ->
     isOperator (_nickname c) ch = false ->
     Str.empty (getTrailing pm) = false ->
     outbox (topicCommand client pm s) client
     = outbox s client ++ [[ERR_CHANOPRIVSNEEDED (_nickname c) chanName]] /\
     getChannel chanName (topicCommand client pm s) = Some ch).
Proof.
  assert (Htopic : forall client pm s chanName rest ch,
     getParams pm = chanName :: rest ->
     channel_prefix chanName = true ->
     getChannel chanName s = Some ch ->
     checkMode "t" ch = true ->
     isClientInChannel (getNickname (mem s) client) ch = true ->
     isOperator (getNickname (mem s) client) ch = false ->
     Str.empty (getTrailing pm) = false ->
     topicCommand client pm s
     = reply client [ERR_CHANOPRIVSNEEDED (getNickname (mem s) client) chanName] s).
  { intros client pm s chanName rest ch Hp Hc Hg Ht Hm Ho Htr.
    unfold topicCommand. now rewrite Hp, Hc, Hg, Hm, Htr, Ht, Ho. }
  split; [|split; [|split; [exact Htopic|]]].
  - intros client pm s chanName ch Hg. unfold joinCommand.
    destruct (2 <? List.length (getParams pm))%nat; [congruence|].
    destruct (List.length (getParams pm) <? 1)%nat; [simpl; unfold getChannel in *; simpl; congruence|].
    intros Hc. apply join_loop_created in Hc as [h ->]; auto.
    repeat split.
  - intros client pm s before chanName HJ Hg. eexists.
    exact (@joinCommand_comes_to_new client pm s before chanName HJ Hg).
  - intros client c pm s chanName rest ch F Hp Hc Hg Ht Hm Ho Htr.
    assert (Hn : getNickname (mem s) client = _nickname c)
      by (unfold getNickname, deref; now rewrite F).
    rewrite (Htopic client pm s chanName rest ch), Hn; auto; try (now rewrite Hn).
    split; [now apply outbox_reply with (c := c)|exact Hg].
Qed.

Lemma C9_witness :
  (exists ch,
     getChannel "#b" (joinCommand 1 (Sample.line "JOIN #a,#b") Sample.s0) = Some ch /\
     checkMode "t" ch = true /\ checkMode "i" ch = false /\ getTopic ch = "") /\
  topicCommand 2 (Sample.line "TOPIC #room :hi") Sample.s_room
  = reply 2 [ERR_CHANOPRIVSNEEDED "bob" "#room"] Sample.s_room.
Proof.
  destruct C9_new_channel_is_topic_protected as (Hmodes & Hnew & Htopic & _).
  split.
  - destruct (Hnew 1%nat (Sample.line "JOIN #a,#b") Sample.s0 ["#a"] "#b") as [ch Hg].
    + exists []. split; [left; reflexivity|].
      split; [vm_compute; reflexivity|].
      split; [|split; [|split]].
      * intros n Hin _. simpl in Hin. destruct Hin as [<-|[]]. vm_compute. reflexivity.
      * vm_compute. repeat constructor; simpl; tauto.
      * simpl. intros [H|[]]; discriminate.
      * vm_compute. reflexivity.
    + vm_compute. reflexivity.
    + exists ch. split; [exact Hg|].
      destruct (Hmodes 1%nat (Sample.line "JOIN #a,#b") Sample.s0 "#b" ch)
        as (Ht & Hi & _ & _ & _ & Htp); auto.
  - apply (Htopic 2%nat (Sample.line "TOPIC #room :hi") Sample.s_room
             "#room" [] Sample.room); vm_compute; reflexivity.
Defined.

(* ------------------------------------------------------------------ *)
(** ** KICK keeps [operators ⊆ users] *)

Lemma getClient_nick n s p : getClient n s = Some p -> getNickname (mem s) p = n.
Proof.
  unfold getClient.
  destruct (List.find _ (_clients s)) as [e|] eqn:F; [|discriminate].
  intros [= <-]. apply find_some in F as [_ E]. now apply String.eqb_eq in E.
Qed.

Lemma removeClient_keeps_operator h p ch m :
  m <> getNickname h p -> isOperator m ch = true ->
  isOperator m (removeClient h p ch) = true.
Proof.
  intros Hm Om. unfold isOperator.
  rewrite removeClient_operators, removeOperator_operators.
  assert (Hm1 : StdMap.contains m (StdMap.erase (getNickname h p) (operators ch)) = true).
  { rewrite contains_erase, (key_eqb_neq Hm). exact Om. }
  destruct (StdMap.empty _) eqn:E; simpl; auto.
  rewrite (contains_empty _ m E) in Hm1. discriminate.
Qed.

(** The kicker is an operator and cannot name itself, so an operator
    remains at every removal and the refill of [removeOperator] never
    runs: the channel that KICK works on keeps the inclusion. *)
Lemma kick_loop_subset client name tm targets :
  forall s ch,
    getChannel name s = Some ch ->
    ops_subset_users ch ->
    isOperator (getNickname (mem s) client) ch = true ->
    forall ch',
      getChannel name (kick_loop client name tm targets s) = Some ch' ->
      ops_subset_users ch'.
Proof.
  induction targets as [|t rest IH]; intros s ch Hg I Op ch'; simpl.
  - intros E. assert (ch' = ch) by congruence. now subst.
  - rewrite Hg.
    assert (Hrep : forall msg,
               getChannel name (kick_loop client name tm rest (reply client msg s)) = Some ch' ->
               ops_subset_users ch').
    { intros msg. apply (IH (reply client msg s) ch); auto.
      simpl. now rewrite getNickname_push_reply. }
    destruct (String.eqb_spec t (getNickname (mem s) client)) as [->|Hne]; [apply Hrep|].
    destruct (getClient t s) as [tc|] eqn:Gc; [|apply Hrep].
    destruct (negb (isClientInChannel t ch)); [apply Hrep|].
    set (h1 := broadcastMessage _ ch (mem s)).
    assert (Ht : getNickname h1 tc = t).
    { subst h1. rewrite getNickname_broadcast. now apply getClient_nick. }
    assert (Hk : getNickname h1 client = getNickname (mem s) client).
    { subst h1. now rewrite getNickname_broadcast. }
    assert (Hne' : getNickname (mem s) client <> getNickname h1 tc) by congruence.
    destruct (StdMap.empty (getUsers (removeClient h1 tc ch))).
    + unfold getChannel. simpl. rewrite find_erase_same. discriminate.
    + apply (IH _ (removeClient h1 tc ch)).
      * unfold getChannel. simpl. apply find_assign_same.
      * now apply removeClient_subset_other with (m := getNickname (mem s) client).
      * simpl. rewrite Hk. now apply removeClient_keeps_operator.
Qed.

Lemma handelKickCommand_subset client pm s ch :
  getChannel (nth 0 (getParams pm) "") s = Some ch ->
  ops_subset_users ch ->
  forall ch',
    getChannel (nth 0 (getParams pm) "") (handelKickCommand client pm s) = Some ch' ->
    ops_subset_users ch'.
Proof.
  intros Hg I ch'. unfold handelKickCommand.
  assert (Hsame : forall msg,
             getChannel (nth 0 (getParams pm) "") (reply client msg s) = Some ch' ->
             ops_subset_users ch').
  { intros msg E. change (getChannel (nth 0 (getParams pm) "") s = Some ch') in E.
    assert (ch' = ch) by congruence. now subst. }
  destruct (List.length (getParams pm) <? 2)%nat; [apply Hsame|].
  rewrite Hg.
  destruct (isClientInChannel _ ch); simpl; [|apply Hsame].
  destruct (isOperator _ ch) eqn:Op; simpl; [|apply Hsame].
  now apply kick_loop_subset with (ch := ch).
Qed.

(* ================================================================== *)
(** * Further properties of the sources *)

(* ------------------------------------------------------------------ *)
(** ** [ft_split] *)

Lemma str_empty_false_iff (s : string) : Str.empty s = false <-> s <> "".
Proof. destruct s; simpl; split; congruence. Qed.

Lemma append_nil_r (s : string) : (s ++ "")%string = s.
Proof. induction s; simpl; congruence. Qed.

Lemma append_assoc (a b c : string) :
  ((a ++ b) ++ c)%string = (a ++ (b ++ c))%string.
Proof. induction a; simpl; congruence. Qed.

Lemma string_forall_app p a b :
  string_forall p (a ++ b)%string = string_forall p a && string_forall p b.
Proof. induction a as [|c r IH]; simpl; auto. now rewrite IH, andb_assoc. Qed.

Lemma append_empty_l (a b : string) : (a ++ b)%string = "" -> a = "".
Proof. destruct a; simpl; [reflexivity|discriminate]. Qed.

(** Each word the loop yields is non-empty and free of separators, as
    long as the pending word is. *)
Lemma split_loop_words sep s :
  forall word w,
    string_forall (fun c => negb (sep c)) word = true ->
    In w (Str.split_loop sep s word) ->
    w <> "" /\ string_forall (fun c => negb (sep c)) w = true.
Proof.
  induction s as [|c r IH]; intros word w Hw; simpl.
  - destruct (Str.empty word) eqn:E; simpl; [tauto|].
    intros [<-|[]]. split; auto. now apply str_empty_false_iff.
  - destruct (sep c) eqn:Sc.
    + destruct (Str.empty word) eqn:E.
      * apply IH. reflexivity.
      * intros [<-|Hin].
        -- split; auto. now apply str_empty_false_iff.
        -- apply (IH ""); auto.
    + apply IH. rewrite string_forall_app, Hw. simpl. now rewrite Sc.
Qed.

(** A run of non-separators is taken into the pending word. *)
Lemma split_loop_run sep w rest :
  forall word,
    string_forall (fun c => negb (sep c)) w = true ->
    Str.split_loop sep (w ++ rest)%string word
    = Str.split_loop sep rest (word ++ w)%string.
Proof.
  induction w as [|c r IH]; intros word Hw; simpl.
  - now rewrite append_nil_r.
  - simpl in Hw. apply andb_prop in Hw as [Hc Hr].
    apply negb_true_iff in Hc. rewrite Hc, IH by assumption.
    now rewrite append_assoc.
Qed.

(** Splitting undoes joining with one separator between the words. *)
Lemma split_loop_concat sep d ws :
  sep d = true ->
  Forall (fun w => w <> "" /\ string_forall (fun c => negb (sep c)) w = true) ws ->
  Str.split_loop sep (String.concat (String d "") ws) "" = ws.
Proof.
  intros Hd Hws. induction Hws as [|w r [Hne Hw] Hr IH]; [reflexivity|].
  destruct r as [|w2 r2].
  - simpl. rewrite <- (append_nil_r w) at 1.
    rewrite split_loop_run by assumption. simpl.
    destruct w; [congruence|reflexivity].
  - change (String.concat (String d "") (w :: w2 :: r2))
      with (w ++ String d "" ++ String.concat (String d "") (w2 :: r2))%string.
    rewrite split_loop_run by assumption.
    remember (String.concat (String d "") (w2 :: r2)) as tail eqn:Et.
    simpl. rewrite Hd.
    destruct w; [congruence|]. simpl. now rewrite IH.
Qed.

(** X1: [ft_split] never yields an empty word nor a word that
    contains the delimiter. *)
Theorem X1_ft_split_words_nonempty_delimiter_free str delimiter w :
  In w (ft_split str delimiter) ->
  w <> "" /\ string_forall (fun c => negb (Ascii.eqb delimiter c)) w = true.
Proof. apply split_loop_words. reflexivity. Qed.

Lemma X1_witness :
  In "#b" (ft_split "#a,,#b," ",") /\
  "#b" <> "" /\ string_forall (fun c => negb (Ascii.eqb "," c)) "#b" = true.
Proof.
  assert (H : In "#b" (ft_split "#a,,#b," ",")) by (vm_compute; auto).
  split; [exact H|].
  exact (@X1_ft_split_words_nonempty_delimiter_free "#a,,#b," "," "#b" H).
Defined.

(** X2: splitting the words joined by the delimiter gives the words
    back, when each word is non-empty and free of the delimiter. *)
Theorem X2_ft_split_of_joined_words delimiter ws :
  Forall (fun w => w <> "" /\
                   string_forall (fun c => negb (Ascii.eqb delimiter c)) w = true) ws ->
  ft_split (String.concat (String delimiter "") ws) delimiter = ws.
Proof.
  intros H. unfold ft_split. apply split_loop_concat; auto.
  apply Ascii.eqb_refl.
Qed.

Lemma X2_witness :
  ft_split (String.concat "," ["#a"; "#b"; "&c"]) "," = ["#a"; "#b"; "&c"].
Proof.
  apply X2_ft_split_of_joined_words.
  repeat constructor; discriminate.
Defined.

(* ------------------------------------------------------------------ *)
(** ** [ft_trim] *)

Lemma ft_trim_unfold text :
  ft_trim text =
  match Str.find_first_not_of trim_set text, Str.find_last_not_of trim_set text with
  | Some first, Some last => Str.substr text first (last - first + 1)
  | _, _ => ""
  end.
Proof. reflexivity. Qed.

Lemma ft_trim_cons_strip c r :
  Str.mem c trim_set = true -> ft_trim (String c r) = ft_trim r.
Proof.
  intros Hc. rewrite !ft_trim_unfold. cbn [Str.find_first_not_of Str.find_last_not_of].
  rewrite Hc.
  destruct (Str.find_first_not_of trim_set r) as [f|];
    destruct (Str.find_last_not_of trim_set r) as [l|]; simpl; auto.
Qed.

Lemma ft_trim_cons_keep c r :
  Str.mem c trim_set = false -> ft_trim (String c r) = String c (trim_tail r).
Proof.
  intros Hc. rewrite ft_trim_unfold. unfold trim_tail.
  cbn [Str.find_first_not_of Str.find_last_not_of]. rewrite Hc.
  destruct (Str.find_last_not_of trim_set r) as [l|]; unfold Str.substr; simpl.
  - now rewrite Nat.add_1_r.
  - now destruct r.
Qed.

Lemma trim_tail_cons d r :
  trim_tail (String d r) =
  match Str.find_last_not_of trim_set r with
  | Some _ => String d (trim_tail r)
  | None => if Str.mem d trim_set then "" else String d ""
  end.
Proof.
  unfold trim_tail. cbn [Str.find_last_not_of].
  destruct (Str.find_last_not_of trim_set r) as [l|]; [reflexivity|].
  destruct (Str.mem d trim_set); [reflexivity|].
  unfold Str.substr. simpl. now destruct r.
Qed.

Lemma find_last_not_of_none set r :
  Str.find_last_not_of set r = None ->
  string_forall (fun c => Str.mem c set) r = true.
Proof.
  induction r as [|c r IH]; simpl; auto.
  destruct (Str.find_last_not_of set r); [discriminate|].
  destruct (Str.mem c set); [auto|discriminate].
Qed.

Lemma trim_tail_suffix r :
  exists r', r = (trim_tail r ++ r')%string /\
             string_forall (fun c => Str.mem c trim_set) r' = true.
Proof.
  induction r as [|d r (r' & E & W)].
  - exists "". split; reflexivity.
  - rewrite trim_tail_cons.
    destruct (Str.find_last_not_of trim_set r) eqn:F.
    + exists r'. split; auto. simpl. now rewrite <- E.
    + pose proof (find_last_not_of_none _ _ F) as Hr.
      destruct (Str.mem d trim_set) eqn:M.
      * exists (String d r). split; [reflexivity|].
        cbn [string_forall]. now rewrite M, Hr.
      * exists r. split; [reflexivity|exact Hr].
Qed.

Lemma trim_tail_keeps_some r :
  Str.find_last_not_of trim_set (trim_tail r) = None <->
  Str.find_last_not_of trim_set r = None.
Proof.
  induction r as [|d r IH]; [tauto|].
  rewrite trim_tail_cons. cbn [Str.find_last_not_of].
  destruct (Str.find_last_not_of trim_set r) eqn:F.
  - cbn [Str.find_last_not_of].
    destruct (Str.find_last_not_of trim_set (trim_tail r)) eqn:G.
    + split; discriminate.
    + destruct IH as [IH1 _]. specialize (IH1 eq_refl). discriminate.
  - destruct (Str.mem d trim_set) eqn:M; cbn [Str.find_last_not_of];
      rewrite ?M; split; auto; discriminate.
Qed.

Lemma trim_tail_idem r : trim_tail (trim_tail r) = trim_tail r.
Proof.
  induction r as [|d r IH]; [reflexivity|].
  rewrite trim_tail_cons.
  destruct (Str.find_last_not_of trim_set r) eqn:F.
  - rewrite trim_tail_cons, IH.
    destruct (Str.find_last_not_of trim_set (trim_tail r)) eqn:G; auto.
    apply (proj1 (trim_tail_keeps_some r)) in G. congruence.
  - destruct (Str.mem d trim_set) eqn:M; [reflexivity|].
    rewrite trim_tail_cons. cbn [Str.find_last_not_of]. now rewrite M.
Qed.

(** X3: [ft_trim] returns the text less a prefix and a suffix made of
    the characters space, LF, CR and TAB only; what it returns does not
    start with one of them, and trimming it again changes nothing. *)
Theorem X3_ft_trim_strips_only_surrounding_whitespace text :
  (exists l r,
     text = (l ++ ft_trim text ++ r)%string /\
     string_forall (fun c => Str.mem c trim_set) l = true /\
     string_forall (fun c => Str.mem c trim_set) r = true) /\
  Str.mem (Str.front (ft_trim text)) trim_set = false /\
  ft_trim (ft_trim text) = ft_trim text.
Proof.
  induction text as [|c t (Hd & Hf & Hi)].
  - repeat split. exists "", "". repeat split.
  - destruct (Str.mem c trim_set) eqn:M.
    + rewrite (@ft_trim_cons_strip c t M). repeat split; auto.
      destruct Hd as (l & r & E & Wl & Wr).
      exists (String c l), r. cbn [string_forall append].
      rewrite M, Wl, <- E. auto.
    + rewrite (@ft_trim_cons_keep c t M). repeat split.
      * destruct (trim_tail_suffix t) as (r' & E & W).
        exists "", r'. simpl. rewrite <- E. auto.
      * exact M.
      * rewrite (@ft_trim_cons_keep c (trim_tail t) M). now rewrite trim_tail_idem.
Qed.

(* ------------------------------------------------------------------ *)
(** ** [ParseMessage] *)

Lemma stream_tokens_words s w :
  In w (stream_tokens s) ->
  w <> "" /\ string_forall (fun c => negb (Str.isspace c)) w = true.
Proof. apply split_loop_words. reflexivity. Qed.

Lemma parse_loop_params message tokens :
  forall tagFlag tagCmd m,
    Forall (fun p => isValid p = true /\ p <> "") (_params m) ->
    Forall (fun t => t <> "") tokens ->
    Forall (fun p => isValid p = true /\ p <> "")
           (_params (parse_loop message tokens tagFlag tagCmd m)).
Proof.
  induction tokens as [|t r IH]; intros tagFlag tagCmd m Hm Ht; simpl; auto.
  inversion Ht as [|? ? Hne Hr]; subst.
  destruct tagFlag.
  - destruct (Ascii.eqb (Str.front t) ":"); apply IH; auto.
  - destruct tagCmd; [apply IH; auto|].
    destruct (Ascii.eqb (Str.front t) ":"); [exact Hm|].
    destruct (isValid t) eqn:V; [|exact Hm].
    apply IH; auto. simpl. apply Forall_app. split; auto.
Qed.

(** X4: every parameter the parser stores is non-empty and free of LF,
    CR, TAB and colon, whatever the line. *)
Theorem X4_parsed_params_are_valid message :
  Forall (fun p => isValid p = true /\ p <> "")
         (_params (ParseMessage_ctor message)).
Proof.
  unfold ParseMessage_ctor. destruct (Str.empty message); [constructor|].
  apply parse_loop_params; [constructor|].
  apply Forall_forall. intros t Ht. now apply stream_tokens_words in Ht.
Qed.

Lemma parse_loop_error message tokens :
  forall tagFlag tagCmd m,
    _notValidParam m = false -> _errorMsg m = "" -> _trailing m = "" ->
    let r := parse_loop message tokens tagFlag tagCmd m in
    (_notValidParam r = false /\ _errorMsg r = "") \/
    (_notValidParam r = true /\ _trailing r = "" /\
     exists tok, In tok tokens /\ isValid tok = false /\
                 _errorMsg r = ("Invalid character in parameter: " ++ tok)%string).
Proof.
  induction tokens as [|t r IH]; intros tagFlag tagCmd m Hf He Ht; simpl; auto.
  assert (Hrest : forall tf tc m',
             _notValidParam m' = false -> _errorMsg m' = "" -> _trailing m' = "" ->
             let r' := parse_loop message r tf tc m' in
             (_notValidParam r' = false /\ _errorMsg r' = "") \/
             (_notValidParam r' = true /\ _trailing r' = "" /\
              exists tok, (t = tok \/ In tok r) /\ isValid tok = false /\
                          _errorMsg r' = ("Invalid character in parameter: " ++ tok)%string)).
  { intros tf tc m' Hf' He' Ht'.
    destruct (IH tf tc m' Hf' He' Ht') as [?|(? & ? & tok & ? & ? & ?)]; [now left|].
    right. repeat split; auto. exists tok. auto. }
  destruct tagFlag.
  - destruct (Ascii.eqb (Str.front t) ":"); apply Hrest; auto.
  - destruct tagCmd; [apply Hrest; auto|].
    destruct (Ascii.eqb (Str.front t) ":"); [left; auto|].
    destruct (isValid t) eqn:V; [apply Hrest; auto|].
    right. simpl. repeat split; auto. exists t. auto.
Qed.

(** X5: the parser's error flag and error text go together.  Either the
    flag is clear and the text is empty, or the flag is set, the text
    names a token of the line that [isValid] rejects, and no trailing
    parameter was taken. *)
Theorem X5_parse_error_flag_and_text message :
  let r := ParseMessage_ctor message in
  (_notValidParam r = false /\ _errorMsg r = "") \/
  (_notValidParam r = true /\ _trailing r = "" /\
   exists tok, In tok (stream_tokens (ft_trim message)) /\ isValid tok = false /\
               _errorMsg r = ("Invalid character in parameter: " ++ tok)%string).
Proof.
  unfold ParseMessage_ctor. destruct (Str.empty message); [now left|].
  now apply parse_loop_error.
Qed.

Lemma parse_loop_tags_only message tokens :
  forall tagCmd m,
    forallb (fun t => negb (Ascii.eqb (Str.front t) ":")) tokens = true ->
    parse_loop message tokens true tagCmd m = m.
Proof.
  induction tokens as [|t r IH]; intros tagCmd m H; simpl; auto.
  simpl in H. apply andb_prop in H as [Ht Hr].
  apply negb_true_iff in Ht. rewrite Ht. now apply IH.
Qed.

(** X6: a line that opens with a tag block ([@]) and has no token that
    begins with a colon is parsed to the blank record: no command, no
    parameters, no trailing parameter, no error. *)
Theorem X6_tag_block_without_command message :
  Str.front (ft_trim message) = "@"%char ->
  forallb (fun t => negb (Ascii.eqb (Str.front t) ":"))
          (stream_tokens (ft_trim message)) = true ->
  ParseMessage_ctor message
  = {| _cmd := ""; _params := []; _trailing := "";
       _notValidParam := false; _errorMsg := "" |}.
Proof.
  intros Hat Htok. unfold ParseMessage_ctor.
  destruct (Str.empty message); [reflexivity|].
  rewrite Hat. simpl (Ascii.eqb _ _). now apply parse_loop_tags_only.
Qed.

Lemma X6_witness :
  ParseMessage_ctor ("@time=12;id=7 PRIVMSG #c hello" ++ CRLF)%string
  = {| _cmd := ""; _params := []; _trailing := "";
       _notValidParam := false; _errorMsg := "" |}.
Proof.
  apply X6_tag_block_without_command; vm_compute; reflexivity.
Defined.

Lemma trim_set_isspace c : Str.mem c trim_set = true -> Str.isspace c = true.
Proof.
  unfold trim_set. cbn [Str.mem]. rewrite !orb_true_iff.
  intros [H|[H|[H|[H|H]]]]; try discriminate;
    apply Ascii.eqb_eq in H; subst c; reflexivity.
Qed.

Lemma word_not_stripped w :
  string_forall (fun c => negb (Str.isspace c)) w = true ->
  string_forall (fun c => negb (Str.mem c trim_set)) w = true.
Proof.
  induction w as [|c r IH]; cbn [string_forall]; auto.
  intros [Hc Hr]%andb_prop. rewrite (IH Hr), andb_true_r.
  destruct (Str.mem c trim_set) eqn:M; auto.
  apply trim_set_isspace in M. rewrite M in Hc. discriminate.
Qed.

Lemma find_last_not_of_all set r :
  string_forall (fun c => Str.mem c set) r = true ->
  Str.find_last_not_of set r = None.
Proof.
  induction r as [|c r IH]; simpl; auto.
  intros [Hc Hr]%andb_prop. now rewrite (IH Hr), Hc.
Qed.

Lemma find_last_not_of_app_stripped set x r :
  string_forall (fun c => Str.mem c set) r = true ->
  Str.find_last_not_of set (x ++ r) = Str.find_last_not_of set x.
Proof.
  intros Hr. induction x as [|d x IH]; simpl.
  - now apply find_last_not_of_all.
  - now rewrite IH.
Qed.

Lemma trim_tail_app_stripped x r :
  string_forall (fun c => Str.mem c trim_set) r = true ->
  trim_tail (x ++ r) = trim_tail x.
Proof.
  intros Hr. induction x as [|d x IH].
  - simpl. unfold trim_tail. now rewrite find_last_not_of_all.
  - cbn [append]. rewrite !trim_tail_cons, find_last_not_of_app_stripped, IH by assumption.
    reflexivity.
Qed.

Lemma trim_tail_word w :
  string_forall (fun c => negb (Str.mem c trim_set)) w = true -> trim_tail w = w.
Proof.
  induction w as [|d w IH]; [reflexivity|].
  cbn [string_forall]. intros [Hd Hw]%andb_prop. apply negb_true_iff in Hd.
  rewrite trim_tail_cons, (IH Hw), Hd.
  destruct (Str.find_last_not_of trim_set w) eqn:F; auto.
  apply find_last_not_of_none in F.
  destruct w as [|e w']; auto.
  cbn [string_forall] in F, Hw.
  apply andb_prop in F as [Fe _]. apply andb_prop in Hw as [He _].
  rewrite Fe in He. discriminate.
Qed.

Lemma trim_tail_app_word a w :
  w <> "" ->
  string_forall (fun c => negb (Str.mem c trim_set)) w = true ->
  trim_tail (a ++ w) = (a ++ w)%string.
Proof.
  intros Hne Hw. induction a as [|d a IH].
  - now apply trim_tail_word.
  - cbn [append]. rewrite trim_tail_cons, IH.
    destruct (Str.find_last_not_of trim_set (a ++ w)) eqn:F; auto.
    apply find_last_not_of_none in F. rewrite string_forall_app in F.
    apply andb_prop in F as [_ F].
    destruct w as [|e w']; [congruence|].
    cbn [string_forall] in F, Hw.
    apply andb_prop in F as [Fe _]. apply andb_prop in Hw as [He _].
    rewrite Fe in He. discriminate.
Qed.

Lemma concat_ends_with_word (P : string -> Prop) d w ws :
  Forall P (w :: ws) ->
  exists a v, String.concat d (w :: ws) = (a ++ v)%string /\ P v.
Proof.
  revert w. induction ws as [|w2 r IH]; intros w H.
  - exists "", w. split; [reflexivity|]. now inversion H.
  - inversion H as [|? ? _ Hr]; subst.
    destruct (IH w2 Hr) as (a & v & E & Pv).
    exists (w ++ d ++ a)%string, v. split; auto.
    change (String.concat d (w :: w2 :: r))
      with (w ++ d ++ String.concat d (w2 :: r))%string.
    now rewrite E, !append_assoc.
Qed.

(** [ft_trim] returns a text that starts with a kept character and
    whose rest [trim_tail] keeps, whatever stripped characters surround
    it. *)
Lemma ft_trim_surrounded l c b r :
  string_forall (fun c => Str.mem c trim_set) l = true ->
  string_forall (fun c => Str.mem c trim_set) r = true ->
  Str.mem c trim_set = false ->
  trim_tail b = b ->
  ft_trim (l ++ String c b ++ r) = String c b.
Proof.
  intros Hl Hr Hc Hb. induction l as [|x l IH].
  - cbn [append]. rewrite (@ft_trim_cons_keep c (b ++ r) Hc).
    now rewrite trim_tail_app_stripped, Hb.
  - cbn [string_forall] in Hl. apply andb_prop in Hl as [Hx Hl].
    cbn [append]. rewrite (@ft_trim_cons_strip x _ Hx). auto.
Qed.

Lemma isValid_front p :
  isValid p = true -> Ascii.eqb (Str.front p) ":" = false.
Proof.
  destruct p as [|c r]; [reflexivity|].
  unfold isValid. cbn [Str.find_first_of Str.front].
  destruct (Str.mem c _) eqn:M; [discriminate|]. intros _.
  cbn [Str.mem] in M. rewrite !orb_false_iff in M. tauto.
Qed.

Lemma parse_loop_valid_params message ps :
  forall m,
    Forall (fun p => isValid p = true) ps ->
    parse_loop message ps false false m
    = {| _cmd := _cmd m; _params := _params m ++ ps; _trailing := _trailing m;
         _notValidParam := _notValidParam m; _errorMsg := _errorMsg m |}.
Proof.
  induction ps as [|p r IH]; intros m H.
  - simpl. rewrite app_nil_r. now destruct m.
  - inversion H as [|? ? Hp Hr]; subst. simpl.
    rewrite (isValid_front _ Hp), Hp, (IH _ Hr). simpl.
    now rewrite <- app_assoc.
Qed.

(** X7: a command and its parameters, written with one space between
    them and surrounded by any run of spaces, tabs and line ends, are
    parsed back to exactly that command and those parameters, with no
    trailing parameter and no error.  The command and the parameters are
    non-empty words without white space; the command does not open a
    tag block and the parameters hold none of LF, CR, TAB and colon. *)
Theorem X7_parse_of_command_and_params l r cmd ps :
  string_forall (fun c => Str.mem c trim_set) l = true ->
  string_forall (fun c => Str.mem c trim_set) r = true ->
  Forall (fun w => w <> "" /\ string_forall (fun c => negb (Str.isspace c)) w = true)
         (cmd :: ps) ->
  Str.front cmd <> "@"%char ->
  Forall (fun p => isValid p = true) ps ->
  ParseMessage_ctor (l ++ String.concat " " (cmd :: ps) ++ r)
  = {| _cmd := cmd; _params := ps; _trailing := "";
       _notValidParam := false; _errorMsg := "" |}.
Proof.
  intros Hl Hr Hw Hat Hv.
  destruct (@concat_ends_with_word _ " " cmd ps Hw) as (a & v & E & Hne & Hcv).
  assert (Hcmd : cmd <> "" /\ string_forall (fun c => negb (Str.isspace c)) cmd = true)
    by now inversion Hw.
  destruct Hcmd as [Hcne Hcc].
  destruct cmd as [|c cmd']; [congruence|].
  assert (Hc : Str.mem c trim_set = false).
  { apply word_not_stripped in Hcc. cbn [string_forall] in Hcc.
    apply andb_prop in Hcc as [Hc _]. now apply negb_true_iff in Hc. }
  set (body := String.concat " " (String c cmd' :: ps)) in *.
  assert (Hb : exists b, body = String c b).
  { subst body. destruct ps; simpl; eauto. }
  destruct Hb as (b & Eb).
  assert (Htail : trim_tail b = b).
  { rewrite E in Eb. destruct a as [|x a'].
    - simpl in Eb. subst v. cbn [string_forall] in Hcv.
      apply andb_prop in Hcv as [_ Hb].
      apply trim_tail_word. now apply word_not_stripped.
    - simpl in Eb. injection Eb as _ <-.
      apply trim_tail_app_word; auto. now apply word_not_stripped. }
  assert (Htrim : ft_trim (l ++ body ++ r) = body).
  { rewrite Eb. now apply ft_trim_surrounded. }
  unfold ParseMessage_ctor.
  assert (Hnonempty : Str.empty (l ++ body ++ r) = false).
  { rewrite Eb. destruct l; reflexivity. }
  rewrite Hnonempty, Htrim.
  assert (Htok : stream_tokens body = String c cmd' :: ps).
  { subst body. unfold stream_tokens. apply split_loop_concat; auto. }
  rewrite Htok. rewrite Eb. cbn [Str.front].
  assert (Hne_at : Ascii.eqb c "@" = false).
  { apply Ascii.eqb_neq. exact Hat. }
  rewrite Hne_at. cbn [parse_loop].
  now rewrite parse_loop_valid_params.
Qed.

Lemma X7_witness :
  ParseMessage_ctor ("" ++ String.concat " " ["MODE"; "#room"; "+k"; "key"] ++ CRLF)
  = {| _cmd := "MODE"; _params := ["#room"; "+k"; "key"]; _trailing := "";
       _notValidParam := false; _errorMsg := "" |}.
Proof.
  apply X7_parse_of_command_and_params.
  - reflexivity.
  - reflexivity.
  - repeat constructor; discriminate.
  - discriminate.
  - repeat constructor.
Defined.

(* ------------------------------------------------------------------ *)
(** ** The line framer *)

Lemma substring_all s : String.substring 0 (String.length s) s = s.
Proof. induction s; simpl; congruence. Qed.

Lemma find_first_of_none set s :
  Str.find_first_of set s = None ->
  string_forall (fun c => negb (Str.mem c set)) s = true.
Proof.
  induction s as [|c r IH]; simpl; auto.
  destruct (Str.mem c set); [discriminate|].
  destruct (Str.find_first_of set r); [discriminate|]. auto.
Qed.

(** Where [find_first_of] finds a character, the text splits there. *)
Lemma find_first_of_some set s pos :
  Str.find_first_of set s = Some pos ->
  exists pre c rest,
    s = (pre ++ String c rest)%string /\
    string_forall (fun c => negb (Str.mem c set)) pre = true /\
    Str.mem c set = true.
Proof.
  revert pos. induction s as [|a t IH]; intros pos; simpl; [discriminate|].
  destruct (Str.mem a set) eqn:M.
  - intros _. exists "", a, t. auto.
  - destruct (Str.find_first_of set t) as [p|] eqn:F; [|discriminate].
    intros _. destruct (IH p eq_refl) as (pre & c & rest & E & Hp & Hc).
    exists (String a pre), c, rest. simpl. rewrite M, E. auto.
Qed.

(** The three operations of one turn of the loop, on a text split at its
    first character from the set. *)
Lemma cut_at_first set pre c rest :
  string_forall (fun c => negb (Str.mem c set)) pre = true ->
  Str.mem c set = true ->
  let s := (pre ++ String c rest)%string in
  Str.find_first_of set s = Some (String.length pre) /\
  Str.substr s 0 (String.length pre + 1) = (pre ++ String c "")%string /\
  Str.substr_from s (String.length pre + 1) = rest.
Proof.
  intros Hp Hc. induction pre as [|a pre IH]; cbn zeta.
  - simpl. rewrite Hc. unfold Str.substr, Str.substr_from. simpl.
    rewrite Nat.sub_0_r, substring_all. now destruct rest.
  - cbn [string_forall] in Hp. apply andb_prop in Hp as [Ha Hp].
    apply negb_true_iff in Ha.
    destruct (IH Hp) as (F & S1 & S2).
    cbn [append Str.find_first_of String.length]. rewrite Ha, F.
    unfold Str.substr, Str.substr_from in *. simpl. rewrite S1.
    simpl in S2. rewrite S2. auto.
Qed.

Lemma mem_singleton c d : Str.mem c (String d "") = true -> c = d.
Proof.
  simpl. rewrite orb_false_r. apply Ascii.eqb_eq.
Qed.

Lemma length_append a b :
  String.length (a ++ b) = (String.length a + String.length b)%nat.
Proof. induction a; simpl; auto. Qed.

(** With fuel for every character, the loop: cuts the buffer into the
    commands followed by the rest; ends each command with its only LF;
    leaves no LF in the rest. *)
Lemma frame_loop_spec fuel :
  forall buffer,
    (String.length buffer <= fuel)%nat ->
    let r := frame_loop fuel buffer in
    buffer = (fold_right String.append "" (fst r) ++ snd r)%string /\
    Forall (fun cmd => exists pre,
                         cmd = (pre ++ String "010" "")%string /\
                         string_forall (fun c => negb (Ascii.eqb c "010")) pre = true)
           (fst r) /\
    string_forall (fun c => negb (Ascii.eqb c "010")) (snd r) = true.
Proof.
  assert (Hnl : forall s,
             string_forall (fun c => negb (Str.mem c (String "010" ""))) s = true ->
             string_forall (fun c => negb (Ascii.eqb c "010")) s = true).
  { induction s as [|c s IH]; cbn [string_forall Str.mem]; auto.
    rewrite orb_false_r. intros [-> H]%andb_prop. auto. }
  induction fuel as [|fuel IH]; intros buffer Hlen; cbn zeta.
  - destruct buffer; [|simpl in Hlen; lia]. repeat split. constructor.
  - cbn [frame_loop].
    destruct (Str.find_first_of (String "010" "") buffer) as [pos|] eqn:F.
    + destruct (find_first_of_some _ _ F) as (pre & c & rest & E & Hp & Hc).
      destruct (@cut_at_first _ pre c rest Hp Hc) as (F' & S1 & S2).
      rewrite <- E in F', S1, S2.
      assert (pos = String.length pre) by congruence. subst pos.
      rewrite S1, S2. apply mem_singleton in Hc. subst c.
      assert (Hr : (String.length rest <= fuel)%nat).
      { rewrite E, length_append in Hlen. simpl in Hlen. lia. }
      destruct (IH rest Hr) as (E' & Hcmds & Hrest).
      cbn [fst snd fold_right]. repeat split; auto.
      * rewrite E at 1. rewrite E' at 1. now rewrite !append_assoc.
      * constructor; auto. exists pre. split; auto.
    + cbn [fst snd fold_right]. repeat split; auto.
      apply Hnl. now apply find_first_of_none.
Qed.

(** X8: the framer cuts the buffer into complete commands and a rest:
    put back together they are the buffer; each command ends with LF and
    has no other LF; the rest, which stays buffered, has no LF. *)
Theorem X8_framer_cuts_at_every_line_feed buffer :
  let r := extract_commands buffer in
  buffer = (fold_right String.append "" (fst r) ++ snd r)%string /\
  Forall (fun cmd => exists pre,
                       cmd = (pre ++ String "010" "")%string /\
                       string_forall (fun c => negb (Ascii.eqb c "010")) pre = true)
         (fst r) /\
  string_forall (fun c => negb (Ascii.eqb c "010")) (snd r) = true.
Proof. apply frame_loop_spec. unfold ge. apply Nat.le_refl. Qed.

(** One turn of the loop on a buffer that holds a LF. *)
Lemma frame_loop_step fuel pre rest :
  string_forall (fun c => negb (Str.mem c (String "010" ""))) pre = true ->
  frame_loop (S fuel) (pre ++ String "010" rest)
  = ((pre ++ String "010" "")%string :: fst (frame_loop fuel rest),
     snd (frame_loop fuel rest)).
Proof.
  intros Hp.
  destruct (@cut_at_first (String "010" "") pre "010" rest Hp eq_refl) as (F & S1 & S2).
  cbn [frame_loop]. now rewrite F, S1, S2.
Qed.

Lemma frame_loop_no_lf fuel buffer :
  Str.find_first_of (String "010" "") buffer = None ->
  frame_loop fuel buffer = ([], buffer).
Proof. intros F. destruct fuel; simpl; [reflexivity|now rewrite F]. Qed.

(** Any fuel that covers the buffer gives the same result. *)
Lemma frame_loop_fuel f1 :
  forall buffer f2,
    (String.length buffer <= f1)%nat -> (String.length buffer <= f2)%nat ->
    frame_loop f1 buffer = frame_loop f2 buffer.
Proof.
  induction f1 as [|f1 IH]; intros buffer f2 H1 H2.
  - destruct buffer; [|simpl in H1; lia]. now rewrite !frame_loop_no_lf.
  - destruct (Str.find_first_of (String "010" "") buffer) as [pos|] eqn:F.
    + destruct (find_first_of_some _ _ F) as (pre & c & rest & E & Hp & Hc).
      apply mem_singleton in Hc. subst c. subst buffer.
      rewrite length_append in H1, H2. simpl in H1, H2.
      destruct f2 as [|f2]; [lia|].
      rewrite !frame_loop_step by assumption.
      rewrite (IH rest f2) by lia. reflexivity.
    + now rewrite !frame_loop_no_lf.
Qed.

Lemma frame_loop_app fuel :
  forall a b f2 f3,
    (String.length a <= fuel)%nat ->
    (String.length (a ++ b) <= f2)%nat ->
    (String.length (snd (frame_loop fuel a) ++ b) <= f3)%nat ->
    frame_loop f2 (a ++ b)
    = (fst (frame_loop fuel a) ++ fst (frame_loop f3 (snd (frame_loop fuel a) ++ b)),
       snd (frame_loop f3 (snd (frame_loop fuel a) ++ b))).
Proof.
  induction fuel as [|fuel IH]; intros a b f2 f3 Ha H2 H3.
  - destruct a; [|simpl in Ha; lia]. simpl in *.
    rewrite (@frame_loop_fuel f2 b f3) by assumption.
    now destruct (frame_loop f3 b).
  - destruct (Str.find_first_of (String "010" "") a) as [pos|] eqn:F.
    + destruct (find_first_of_some _ _ F) as (pre & c & rest & E & Hp & Hc).
      apply mem_singleton in Hc. subst c. subst a.
      rewrite frame_loop_step in * by assumption. cbn [fst snd] in *.
      rewrite append_assoc in *. cbn [append] in *.
      rewrite length_append in Ha, H2. simpl in Ha, H2.
      destruct f2 as [|f2]; [lia|].
      rewrite frame_loop_step by assumption.
      rewrite (IH rest b f2 f3) by lia. reflexivity.
    + rewrite (@frame_loop_no_lf (S fuel) a F) in *. cbn [fst snd] in *.
      rewrite (@frame_loop_fuel f2 (a ++ b)%string f3) by assumption.
      now destruct (frame_loop f3 (a ++ b)).
Qed.

(** X9: the framer does not depend on how the stream is cut into reads.
    Framing [a], then framing what it left in the buffer followed by
    [b], yields the commands and the rest that framing [a ++ b] in one
    go yields; a line that arrives in two reads is one command. *)
Theorem X9_framer_independent_of_read_boundaries a b :
  let r1 := extract_commands a in
  let r2 := extract_commands (snd r1 ++ b) in
  extract_commands (a ++ b) = (fst r1 ++ fst r2, snd r2).
Proof.
  cbn zeta. unfold extract_commands.
  apply frame_loop_app; apply Nat.le_refl.
Qed.

(* ------------------------------------------------------------------ *)
(** ** Channel flags *)

(** X10: on a letter that has an entry, [setMode] reports a change
    exactly when the requested value differs from the current one;
    afterwards the letter has the requested value, every other letter
    has the value it had, and the member maps, topic, key and limit are
    untouched. *)
Theorem X10_setMode_reports_exactly_the_changes c setting ch cur :
  StdMap.find c (modes ch) = Some cur ->
  let r := setMode c setting ch in
  fst r = negb (Bool.eqb setting cur) /\
  checkMode c (snd r) = setting /\
  (forall d, d <> c -> checkMode d (snd r) = checkMode d ch) /\
  users (snd r) = users ch /\ operators (snd r) = operators ch /\
  inviteList (snd r) = inviteList ch /\
  _topic (snd r) = _topic ch /\ _key (snd r) = _key ch /\
  UserLimit (snd r) = UserLimit ch.
Proof.
  intros F. unfold setMode. rewrite F.
  destruct (Bool.eqb setting cur) eqn:E; cbn [fst snd negb].
  - apply eqb_prop in E. subst cur.
    repeat split; auto. unfold checkMode. now rewrite F.
  - repeat split; auto.
    + unfold checkMode. simpl. now rewrite find_assign_same.
    + intros d Hd. unfold checkMode. simpl.
      rewrite find_assign_other; auto.
Qed.

Lemma X10_witness :
  fst (setMode "i" true Sample.room) = true /\
  checkMode "i" (snd (setMode "i" true Sample.room)) = true.
Proof.
  destruct (@X10_setMode_reports_exactly_the_changes "i" true Sample.room false eq_refl)
    as (H1 & H2 & _).
  split; [exact H1 | exact H2].
Defined.

(* ------------------------------------------------------------------ *)
(** ** Operators are never left empty *)

Lemma empty_assign {K V : Type} `{Ordered K} (k : K) (v : V) (m : StdMap.t K V) :
  StdMap.empty (StdMap.assign k v m) = false.
Proof.
  destruct m as [|[k' v'] r]; simpl; auto.
  destruct (key_eqb k k'); auto. destruct (key_ltb k k'); auto.
Qed.

Lemma removeOperator_nonempty n ch :
  StdMap.empty (users ch) = false ->
  StdMap.empty (operators (removeOperator n ch)) = false.
Proof.
  intros Hu. rewrite removeOperator_operators, Hu. simpl.
  destruct (StdMap.empty (StdMap.erase n (operators ch))) eqn:E; simpl; auto.
  destruct (begin_nonempty _ Hu) as ([k v] & B). rewrite B.
  apply empty_assign.
Qed.

(** X11: the operator map is not left empty.  [addClient] always leaves
    an operator; [removeOperator] and [removeClient] leave one whenever
    the channel had a user when they were called. *)
Theorem X11_operators_not_left_empty h p n ch :
  StdMap.empty (operators (addClient h p ch)) = false /\
  (StdMap.empty (users ch) = false ->
   StdMap.empty (operators (removeOperator n ch)) = false /\
   StdMap.empty (operators (removeClient h p ch)) = false).
Proof.
  split.
  - rewrite addClient_operators.
    destruct (StdMap.size (operators ch) =? 0)%nat eqn:E.
    + apply empty_assign.
    + destruct (operators ch); [discriminate|reflexivity].
  - intros Hu. split.
    + now apply removeOperator_nonempty.
    + rewrite removeClient_operators. now apply removeOperator_nonempty.
Qed.

Lemma X11_witness :
  StdMap.empty (operators (removeOperator "alice" Sample.room)) = false /\
  StdMap.empty (operators (removeClient (mem Sample.s_room) 1 Sample.room)) = false.
Proof.
  destruct (X11_operators_not_left_empty (mem Sample.s_room) 1 "alice" Sample.room)
    as [_ H].
  apply H. reflexivity.
Defined.

(* ------------------------------------------------------------------ *)
(** ** [addClient] *)

Lemma addClient_inviteList h p ch :
  inviteList (addClient h p ch) = StdMap.erase (getNickname h p) (inviteList ch).
Proof.
  unfold addClient, isInvited. simpl.
  destruct (StdMap.contains (getNickname h p) (inviteList ch)) eqn:I; simpl.
  - destruct (StdMap.size (operators ch) =? 0)%nat; reflexivity.
  - rewrite erase_absent by now apply contains_false.
    destruct (StdMap.size (operators ch) =? 0)%nat; reflexivity.
Qed.

(** X12: [addClient] enters the client in [users] under the nickname it
    holds and uses up its invitation; the other entries of [users] and
    of [inviteList] stay; [operators] changes only when it was empty,
    and then the client is its one entry. *)
Theorem X12_addClient_enters_member_and_uses_invitation h p ch :
  let nick := getNickname h p in
  let ch' := addClient h p ch in
  StdMap.find nick (users ch') = Some p /\
  isInvited nick ch' = false /\
  (forall m, m <> nick ->
     StdMap.find m (users ch') = StdMap.find m (users ch) /\
     StdMap.find m (inviteList ch') = StdMap.find m (inviteList ch)) /\
  operators ch' = (if StdMap.empty (operators ch)
                   then [(nick, p)] else operators ch) /\
  modes ch' = modes ch /\ _topic ch' = _topic ch /\ _key ch' = _key ch /\
  UserLimit ch' = UserLimit ch.
Proof.
  cbn zeta. rewrite addClient_users, addClient_operators.
  unfold isInvited. rewrite addClient_inviteList.
  split; [apply find_assign_same|].
  split; [unfold StdMap.contains; now rewrite find_erase_same|].
  split.
  - intros m Hm. split.
    + apply find_assign_other. congruence.
    + apply find_erase_other. congruence.
  - split.
    + destruct (operators ch); reflexivity.
    + unfold addClient. destruct (isInvited _ _); simpl;
        destruct (StdMap.size _ =? 0)%nat; auto.
Qed.

(* ------------------------------------------------------------------ *)
(** ** Broadcasts *)

Lemma find_push_reply p q msg h :
  StdMap.find q (push_reply p msg h)
  = if (q =? p)%nat
    then option_map (fun c => add_replies c [msg]) (StdMap.find q h)
    else StdMap.find q h.
Proof.
  destruct (Nat.eqb_spec q p) as [->|Hne].
  - unfold push_reply. destruct (StdMap.find p h) as [c|] eqn:F; simpl.
    + now rewrite find_assign_same.
    + exact F.
  - now apply find_push_reply_other.
Qed.

Lemma add_replies_nil c : add_replies c [] = c.
Proof. destruct c. unfold add_replies. simpl. now rewrite app_nil_r. Qed.

Lemma add_replies_app c l1 l2 :
  add_replies (add_replies c l1) l2 = add_replies c (l1 ++ l2).
Proof. unfold add_replies. simpl. now rewrite app_assoc. Qed.

(** The fold shared by [broadcastMessage] and [sendToOthers]: each entry
    of the map whose client passes the test gets one copy. *)
Lemma deliver_fold (test : heap -> ptr -> bool) msg (l : list (string * ptr)) :
  (forall h p m q, test (push_reply p m h) q = test h q) ->
  forall h q,
    StdMap.find q
      (fold_left (fun hp (e : string * ptr) =>
                    if test hp (snd e) then push_reply (snd e) msg hp else hp) l h)
    = option_map
        (fun c => add_replies c
                    (repeat msg (if test h q
                                 then count_occ Nat.eq_dec (List.map snd l) q
                                 else 0)))
        (StdMap.find q h).
Proof.
  intros Hstable. induction l as [|[k p] r IH]; intros h q; simpl.
  - destruct (StdMap.find q h) as [c|]; simpl; auto.
    destruct (test h q); now rewrite add_replies_nil.
  - rewrite IH. destruct (test h p) eqn:T.
    + rewrite Hstable, find_push_reply.
      destruct (Nat.eq_dec p q) as [->|Hne].
      * rewrite Nat.eqb_refl, T.
        destruct (StdMap.find q h) as [c|]; simpl; auto.
        now rewrite add_replies_app.
      * destruct (Nat.eqb_spec q p) as [->|_]; [congruence|]. reflexivity.
    + destruct (Nat.eq_dec p q) as [->|Hne]; [|reflexivity].
      rewrite T.
      destruct (StdMap.find q h) as [c|]; simpl; auto.
Qed.

Lemma fold_left_pointwise {A B : Type} (f g : A -> B -> A) (l : list B) :
  (forall a b, f a b = g a b) ->
  forall a, fold_left f l a = fold_left g l a.
Proof.
  intros E. induction l as [|b r IH]; intros a; simpl; auto.
  now rewrite E, IH.
Qed.

Lemma getFd_push_reply p msg h q : getFd (push_reply p msg h) q = getFd h q.
Proof.
  unfold getFd, deref. rewrite find_push_reply.
  destruct (q =? p)%nat; auto. now destruct (StdMap.find q h).
Qed.

Lemma broadcastMessage_find msg ch h q :
  StdMap.find q (broadcastMessage msg ch h)
  = option_map
      (fun c => add_replies c
                  (repeat msg (if (getFd h q =? -1)%Z then 0 else held_by ch q)))
      (StdMap.find q h).
Proof.
  unfold broadcastMessage, held_by.
  rewrite (fold_left_pointwise _
             (fun hp (e : string * ptr) =>
                if negb (getFd hp (snd e) =? -1)%Z
                then push_reply (snd e) msg hp else hp)).
  - rewrite (deliver_fold (fun hp p => negb (getFd hp p =? -1)%Z)).
    + now destruct (getFd h q =? -1)%Z.
    + intros. now rewrite getFd_push_reply.
  - intros hp e. now destruct (getFd hp (snd e) =? -1)%Z.
Qed.

(** X13: [broadcastMessage] queues the frame once for each entry of
    [users] that holds a client, behind the frames the client already
    has, unless the client's descriptor is -1; it changes nothing else
    in any client record, and adds and removes no client. *)
Theorem X13_broadcast_reaches_each_open_member_once msg ch h q :
  StdMap.find q (broadcastMessage msg ch h)
  = option_map
      (fun c => add_replies c
                  (repeat msg (if (_fd c =? -1)%Z then 0 else held_by ch q)))
      (StdMap.find q h).
Proof.
  rewrite broadcastMessage_find. unfold getFd, deref.
  now destruct (StdMap.find q h).
Qed.

Lemma sendToOthers_find client msg ch h q :
  StdMap.find q (sendToOthers client msg ch h)
  = option_map
      (fun c => add_replies c
                  (repeat msg (if negb (getFd h q =? -1)%Z && negb (q =? client)%nat
                               then held_by ch q else 0)))
      (StdMap.find q h).
Proof.
  unfold sendToOthers, held_by.
  apply (deliver_fold (fun hp p => negb (getFd hp p =? -1)%Z && negb (p =? client)%nat)).
  intros. now rewrite getFd_push_reply.
Qed.

(** X14: [sendToOthers] leaves the record of the sender as it is, and
    gives every other client what [broadcastMessage] gives it. *)
Theorem X14_sendToOthers_skips_only_the_sender client msg ch h q :
  StdMap.find q (sendToOthers client msg ch h)
  = if (q =? client)%nat then StdMap.find q h
    else StdMap.find q (broadcastMessage msg ch h).
Proof.
  rewrite sendToOthers_find, broadcastMessage_find.
  destruct (q =? client)%nat; simpl.
  - rewrite andb_false_r. destruct (StdMap.find q h); simpl; auto.
    now rewrite add_replies_nil.
  - rewrite andb_true_r. now destruct (getFd h q =? -1)%Z.
Qed.

(* ------------------------------------------------------------------ *)
(** ** JOIN: admission *)

Lemma removeInvite_maps n ch :
  users (removeInvite n ch) = users ch /\
  operators (removeInvite n ch) = operators ch /\
  inviteList (removeInvite n ch) = StdMap.erase n (inviteList ch) /\
  modes (removeInvite n ch) = modes ch /\
  _topic (removeInvite n ch) = _topic ch /\
  _key (removeInvite n ch) = _key ch /\
  UserLimit (removeInvite n ch) = UserLimit ch.
Proof.
  unfold removeInvite. destruct (StdMap.find n (inviteList ch)) eqn:F; simpl.
  - repeat split.
  - repeat split. now rewrite erase_absent.
Qed.








(* ------------------------------------------------------------------ *)
(** ** JOIN: creation and skipped names *)



(** X18: a JOIN whose channel list holds only names that start with
    neither [#] nor [&] does nothing at all: no channel, no reply. *)
Theorem X18_join_of_unprefixed_names_is_ignored client pm s :
  (List.length (getParams pm) = 1 \/ List.length (getParams pm) = 2)%nat ->
  forallb (fun n => negb (channel_prefix n))
          (ft_split (nth 0 (getParams pm) "") ",") = true ->
  joinCommand client pm s = s.
Proof.
  intros Hlen Hskip. unfold joinCommand.
  assert (L2 : (2 <? List.length (getParams pm))%nat = false)
    by (apply Nat.ltb_ge; lia).
  assert (L1 : (List.length (getParams pm) <? 1)%nat = false)
    by (apply Nat.ltb_ge; lia).
  rewrite L2, L1. cbn zeta.
  match goal with
  | |- join_loop client ?keys ?chans s = s =>
      pose proof (@join_loop_skip client keys chans [] s Hskip) as E
  end.
  rewrite app_nil_r in E. exact E.
Qed.

Lemma X18_witness :
  joinCommand 1 (Sample.line "JOIN room,+chat") Sample.s_room = Sample.s_room.
Proof.
  apply X18_join_of_unprefixed_names_is_ignored.
  - left. vm_compute. reflexivity.
  - vm_compute. reflexivity.
Defined.

(* ------------------------------------------------------------------ *)
(** ** JOIN keeps [operators ⊆ users] *)

Lemma Channel_ctor_subset name h client :
  ops_subset_users (Channel_ctor name h client).
Proof. intros n. unfold isOperator, isClientInChannel. now simpl. Qed.

Lemma removeInvite_subset n ch :
  ops_subset_users ch -> ops_subset_users (removeInvite n ch).
Proof.
  intros I m. unfold isOperator, isClientInChannel.
  destruct (removeInvite_maps n ch) as (-> & -> & _). apply I.
Qed.

Lemma every_channel_assign P name ch s h :
  every_channel P s -> P ch ->
  every_channel P (with_mem h (with_channels (StdMap.assign name ch (_channels s)) s)).
Proof.
  intros Hs Hc n c. unfold getChannel. simpl. rewrite find_assign.
  destruct (key_eqb n name).
  - intros [= <-]. exact Hc.
  - apply Hs.
Qed.

Lemma join_loop_every_channel client keys chans :
  forall s,
    every_channel ops_subset_users s ->
    every_channel ops_subset_users (join_loop client keys chans s).
Proof.
  induction chans as [|n rest IH]; intros s Hs; simpl; auto.
  destruct (negb (channel_prefix n)); auto.
  destruct (getChannel n s) as [chn|] eqn:Gn.
  - unfold join_existing.
    destruct (join_checks _ _ _ _ _) as [r [|]]; [|exact Hs].
    apply every_channel_assign; auto.
    apply addClient_subset, removeInvite_subset. now apply (Hs n).
  - apply IH. unfold join_new.
    set (s1 := with_channels
                 (StdMap.insert n (Channel_ctor n (mem s) client) (_channels s)) s).
    assert (H1 : every_channel ops_subset_users s1).
    { subst s1. unfold StdMap.insert, StdMap.contains.
      unfold getChannel in Gn. rewrite Gn.
      apply (@every_channel_assign _ n _ s (mem s)); auto.
      apply Channel_ctor_subset. }
    destruct (getChannel n s1); exact H1.
Qed.

(** X19: if [operators ⊆ users] holds on every registered channel, it
    holds on every registered channel after JOIN, whatever the JOIN
    lists and whether it is admitted or refused. *)
Theorem X19_join_keeps_operators_among_users client pm s :
  every_channel ops_subset_users s ->
  every_channel ops_subset_users (joinCommand client pm s).
Proof.
  intros Hs. unfold joinCommand.
  destruct (2 <? List.length (getParams pm))%nat; auto.
  destruct (List.length (getParams pm) <? 1)%nat; auto.
  now apply join_loop_every_channel.
Qed.

Lemma find_In {V : Type} (name : string) (v : V) (m : StdMap.t string V) :
  StdMap.find name m = Some v -> exists k, In (k, v) m.
Proof.
  induction m as [|[k w] r IH]; simpl; [discriminate|].
  destruct (String.eqb name k).
  - intros [= ->]. exists k. auto.
  - intros F. destruct (IH F) as (k' & Hin). exists k'. auto.
Qed.

(** A computable check of a property of every registered channel. *)
Lemma every_channel_forallb (P : Channel -> Prop) (Pb : Channel -> bool) s :
  (forall ch, Pb ch = true -> P ch) ->
  forallb (fun e => Pb (snd e)) (_channels s) = true ->
  every_channel P s.
Proof.
  intros HP Hall name ch Hg. apply HP.
  destruct (find_In _ _ Hg) as (k & Hin).
  rewrite forallb_forall in Hall. exact (Hall _ Hin).
Qed.

Lemma X19_witness :
  every_channel ops_subset_users
    (joinCommand 2 (Sample.line "JOIN #new,#b k2") Sample.s_keyed).
Proof.
  apply X19_join_keeps_operators_among_users.
  apply (every_channel_forallb ops_subset_users ops_subset_usersb).
  - intros ch. apply ops_subset_usersb_spec.
  - vm_compute. reflexivity.
Defined.

(* ------------------------------------------------------------------ *)
(** ** NICK *)

(** X20: a refused NICK changes nothing but the sender's queue.  With no
    parameter the reply is ERR_NONICKNAMEGIVEN; with one of [#@:&] in
    the nick it is ERR_ERRONEUSNICKNAME; with a nick that is in the
    index, the sender's own current nick included, it is
    ERR_NICKNAMEINUSE.  The character test comes first. *)
Theorem X20_refused_nick_changes_nothing client params s :
  (params = [] ->
   nickCommand client params s = reply client [ERR_NONICKNAMEGIVEN "ircserver"] s) /\
  (forall newNick rest,
     params = newNick :: rest ->
     Str.find_first_of "#@:&" newNick <> None ->
     nickCommand client params s
     = reply client [ERR_ERRONEUSNICKNAME "ircserver" newNick] s) /\
  (forall newNick rest,
     params = newNick :: rest ->
     Str.find_first_of "#@:&" newNick = None ->
     In newNick (_nicknames s) ->
     nickCommand client params s
     = reply client [ERR_NICKNAMEINUSE "ircserver" newNick] s).
Proof.
  split; [intros ->; reflexivity|]. split.
  - intros newNick rest -> Hbad. simpl.
    destruct (Str.find_first_of "#@:&" newNick); [reflexivity|congruence].
  - intros newNick rest -> Hok Hin. simpl. rewrite Hok.
    assert (E : existsb (String.eqb newNick) (_nicknames s) = true).
    { apply existsb_exists. exists newNick. split; auto. apply String.eqb_refl. }
    rewrite E. destruct (_nicknames s); [contradiction|reflexivity].
Qed.

Lemma X20_witness :
  nickCommand 2 ["bob"] Sample.s_room
  = reply 2 [ERR_NICKNAMEINUSE "ircserver" "bob"] Sample.s_room /\
  nickCommand 2 ["b#b"] Sample.s_room
  = reply 2 [ERR_ERRONEUSNICKNAME "ircserver" "b#b"] Sample.s_room.
Proof.
  destruct (X20_refused_nick_changes_nothing 2 ["bob"] Sample.s_room) as (_ & _ & Huse).
  destruct (X20_refused_nick_changes_nothing 2 ["b#b"] Sample.s_room) as (_ & Hbad & _).
  split.
  - apply (Huse "bob" []); [reflexivity|reflexivity|vm_compute; auto].
  - apply (Hbad "b#b" []); [reflexivity|vm_compute; discriminate].
Defined.

Lemma existsb_eqb_false n l :
  existsb (String.eqb n) l = false -> ~ In n l.
Proof.
  intros E Hin.
  assert (E' : existsb (String.eqb n) l = true).
  { apply existsb_exists. exists n. split; auto. apply String.eqb_refl. }
  congruence.
Qed.

Lemma getNickname_setNickname p nick h c :
  StdMap.find p h = Some c -> getNickname (setNickname p nick h) p = nick.
Proof.
  intros F. unfold getNickname, deref, setNickname. rewrite F.
  now rewrite find_assign_same.
Qed.

Lemma find_setNickname_other p q nick h :
  q <> p -> StdMap.find q (setNickname p nick h) = StdMap.find q h.
Proof.
  intros Hne. unfold setNickname. destruct (StdMap.find p h); auto.
  apply find_assign_other. congruence.
Qed.

(** The index after an accepted NICK. *)
Lemma nickCommand_nicknames client newNick rest s :
  Str.find_first_of "#@:&" newNick = None ->
  isUserInServer newNick s = false ->
  let oldNick := getNickname (mem s) client in
  _nicknames (nickCommand client (newNick :: rest) s)
  = (if negb (Str.empty oldNick)
     then List.filter (fun n => negb (String.eqb n oldNick)) (_nicknames s)
     else _nicknames s) ++ [newNick].
Proof.
  intros Hv Hu. unfold nickCommand. rewrite Hv.
  unfold isUserInServer in Hu. rewrite Hu, andb_false_r. simpl.
  now destruct (negb (Str.empty (getNickname (mem s) client))).
Qed.

Lemma nickCommand_mem client newNick rest s :
  Str.find_first_of "#@:&" newNick = None ->
  isUserInServer newNick s = false ->
  let oldNick := getNickname (mem s) client in
  mem (nickCommand client (newNick :: rest) s)
  = setNickname client newNick
      (if negb (Str.empty oldNick)
       then push_reply client
              [RPL_NICK oldNick (getUsername (mem s) client) newNick] (mem s)
       else mem s).
Proof.
  intros Hv Hu. unfold nickCommand. rewrite Hv.
  unfold isUserInServer in Hu. rewrite Hu, andb_false_r. simpl.
  now destruct (negb (Str.empty (getNickname (mem s) client))).
Qed.

(** X21: an accepted NICK keeps the nickname index free of duplicates,
    enters the new nick, takes the old nick out when the client had one,
    keeps every other nick, and stores the new nick in the client
    record; every other client record is untouched. *)
Theorem X21_accepted_nick_updates_index_and_client client newNick rest s c :
  Str.find_first_of "#@:&" newNick = None ->
  isUserInServer newNick s = false ->
  StdMap.find client (mem s) = Some c ->
  NoDup (_nicknames s) ->
  let oldNick := _nickname c in
  let s' := nickCommand client (newNick :: rest) s in
  NoDup (_nicknames s') /\
  In newNick (_nicknames s') /\
  (oldNick <> "" -> oldNick <> newNick -> ~ In oldNick (_nicknames s')) /\
  (forall n, n <> oldNick -> n <> newNick ->
     (In n (_nicknames s') <-> In n (_nicknames s))) /\
  getNickname (mem s') client = newNick /\
  (forall q, q <> client -> StdMap.find q (mem s') = StdMap.find q (mem s)).
Proof.
  intros Hv Hu F Hnd oldNick s'. subst s'.
  assert (Hold : getNickname (mem s) client = oldNick)
    by (unfold getNickname, deref; now rewrite F).
  rewrite (@nickCommand_nicknames client newNick rest s Hv Hu),
          (@nickCommand_mem client newNick rest s Hv Hu), Hold.
  pose proof (existsb_eqb_false _ _ Hu) as Hfresh.
  set (kept := if negb (Str.empty oldNick)
               then List.filter (fun n => negb (String.eqb n oldNick)) (_nicknames s)
               else _nicknames s).
  assert (Hkept : forall n, In n kept -> In n (_nicknames s)).
  { intros n. subst kept. destruct (negb (Str.empty oldNick)); auto.
    rewrite filter_In. tauto. }
  assert (Hkept' : forall n, n <> oldNick -> In n (_nicknames s) -> In n kept).
  { intros n Hn Hin. subst kept. destruct (negb (Str.empty oldNick)); auto.
    apply filter_In. split; auto. apply negb_true_iff. now apply String.eqb_neq. }
  split; [|split; [|split; [|split; [|split]]]].
  - apply NoDup_app.
    + subst kept. destruct (negb (Str.empty oldNick)); auto.
      now apply NoDup_filter.
    + repeat constructor. auto.
    + intros n Hn [<-|[]]. auto.
  - apply in_or_app. right. now left.
  - intros Hne1 Hne2 Hin. apply in_app_or in Hin as [Hin|[E|[]]]; [|congruence].
    subst kept. destruct oldNick as [|a o]; [congruence|]. simpl in Hin.
    apply filter_In in Hin as [_ Hin].
    rewrite String.eqb_refl in Hin. discriminate.
  - intros n Hn1 Hn2. split.
    + intros Hin. apply in_app_or in Hin as [Hin|[E|[]]]; [auto|congruence].
    + intros Hin. apply in_or_app. left. auto.
  - destruct (negb (Str.empty oldNick)).
    + destruct (StdMap.find client
                  (push_reply client
                     [RPL_NICK oldNick (getUsername (mem s) client) newNick] (mem s)))
        as [c'|] eqn:F'.
      * now apply getNickname_setNickname with (c := c').
      * rewrite find_push_reply, Nat.eqb_refl, F in F'. discriminate.
    + now apply getNickname_setNickname with (c := c).
  - intros q Hq. rewrite find_setNickname_other by assumption.
    destruct (negb (Str.empty oldNick)); auto.
    now apply find_push_reply_other.
Qed.

Lemma X21_witness :
  NoDup (_nicknames (nickCommand 2 ["robert"] Sample.s_room)) /\
  In "robert" (_nicknames (nickCommand 2 ["robert"] Sample.s_room)) /\
  ~ In "bob" (_nicknames (nickCommand 2 ["robert"] Sample.s_room)).
Proof.
  destruct (@X21_accepted_nick_updates_index_and_client
              2 "robert" [] Sample.s_room (deref (mem Sample.s_room) 2))
    as (H1 & H2 & H3 & _).
  - vm_compute. reflexivity.
  - vm_compute. reflexivity.
  - vm_compute. reflexivity.
  - vm_compute. repeat constructor; simpl; intuition discriminate.
  - split; [exact H1|]. split; [exact H2|].
    apply H3; vm_compute; discriminate.
Defined.

Lemma nick_update_channel_subset o n ch :
  ops_subset_users ch -> ops_subset_users (nick_update_channel o n ch).
Proof.
  intros I. unfold nick_update_channel.
  destruct (isClientInChannel o ch); [now apply updateNickname_subset|].
  destruct (isInvited o ch); [now apply updateNickname_subset|exact I].
Qed.

(** X22: if [operators ⊆ users] holds on every registered channel, it
    holds on every registered channel after NICK, accepted or refused. *)
Theorem X22_nick_keeps_operators_among_users client params s :
  every_channel ops_subset_users s ->
  every_channel ops_subset_users (nickCommand client params s).
Proof.
  intros Hs. unfold nickCommand.
  destruct params as [|newNick rest]; [exact Hs|].
  destruct (Str.find_first_of "#@:&" newNick); [exact Hs|].
  destruct (negb (vector_empty (_nicknames s)) && existsb _ _); [exact Hs|].
  intros name ch. unfold getChannel. cbn [_channels with_mem with_channels].
  assert (E : forall s0 : Server,
             _channels s0 = _channels s ->
             StdMap.find name
               (List.map (fun e : string * Channel =>
                            (fst e, nick_update_channel (getNickname (mem s) client)
                                      newNick (snd e))) (_channels s0)) = Some ch ->
             ops_subset_users ch).
  { intros s0 E0. rewrite E0, find_map_values.
    destruct (StdMap.find name (_channels s)) as [c0|] eqn:F; [|discriminate].
    intros [= <-]. apply nick_update_channel_subset. now apply (Hs name). }
  destruct (negb (Str.empty (getNickname (mem s) client))); apply E; reflexivity.
Qed.

Lemma X22_witness :
  every_channel ops_subset_users (nickCommand 1 ["alicia"] Sample.s_room).
Proof.
  apply X22_nick_keeps_operators_among_users.
  apply (every_channel_forallb ops_subset_users ops_subset_usersb).
  - intros ch. apply ops_subset_usersb_spec.
  - vm_compute. reflexivity.
Defined.

(* ------------------------------------------------------------------ *)
(** ** TOPIC *)

Lemma setTopic_state topic ch :
  StdMap.contains "t"%char (modes ch) = true ->
  let ch' := setTopic topic ch in
  getTopic ch' = topic /\ checkMode "t" ch' = true /\
  users ch' = users ch /\ operators ch' = operators ch /\
  inviteList ch' = inviteList ch /\ _key ch' = _key ch /\
  UserLimit ch' = UserLimit ch /\ channelName ch' = channelName ch.
Proof.
  intros Ht. cbn zeta. unfold setTopic, setMode, getTopic, checkMode.
  unfold StdMap.contains in Ht. simpl.
  destruct (StdMap.find "t"%char (modes ch)) as [cur|] eqn:F; [|discriminate].
  destruct cur; simpl.
  - rewrite F. repeat split.
  - rewrite find_assign_same. repeat split.
Qed.

(** X23: a TOPIC with a text from a member, on a channel where mode [t]
    is clear or the member is an operator, stores the text as the topic
    and sets [t], whatever it was; members, key and limit stay, and
    every client gets RPL_CHANGETOPIC once per entry of [users] that
    holds it, unless its descriptor is -1.  So the next TOPIC with a
    text from a member who is no operator is refused with
    ERR_CHANOPRIVSNEEDED, even if the channel had [t] clear before. *)
Theorem X23_topic_sets_text_and_forces_protection client pm s chanName rest ch :
  getParams pm = chanName :: rest ->
  channel_prefix chanName = true ->
  getChannel chanName s = Some ch ->
  StdMap.contains "t"%char (modes ch) = true ->
  let nick := getNickname (mem s) client in
  isClientInChannel nick ch = true ->
  Str.empty (getTrailing pm) = false ->
  checkMode "t" ch = false \/ isOperator nick ch = true ->
  let s1 := topicCommand client pm s in
  let notice := [RPL_CHANGETOPIC (user_id nick (getUsername (mem s) client))
                                 (channelName ch) (getTrailing pm)] in
  (exists ch1,
     getChannel chanName s1 = Some ch1 /\
     getTopic ch1 = getTrailing pm /\ checkMode "t" ch1 = true /\
     users ch1 = users ch /\ operators ch1 = operators ch /\
     inviteList ch1 = inviteList ch /\ _key ch1 = _key ch /\
     UserLimit ch1 = UserLimit ch) /\
  (forall q,
     StdMap.find q (mem s1)
     = option_map
         (fun c => add_replies c
                     (repeat notice (if (_fd c =? -1)%Z then 0 else held_by ch q)))
         (StdMap.find q (mem s))) /\
  (isOperator nick ch = false ->
   forall pm2 rest2,
     getParams pm2 = chanName :: rest2 ->
     Str.empty (getTrailing pm2) = false ->
     topicCommand client pm2 s1
     = reply client [ERR_CHANOPRIVSNEEDED nick chanName] s1).
Proof.
  intros Hp Hc Hg Ht nick Hm Htr Hperm s1 notice.
  destruct (setTopic_state (getTrailing pm) ch Ht)
    as (T1 & T2 & T3 & T4 & T5 & T6 & T7 & T8).
  assert (E : s1 = with_mem (broadcastMessage notice (setTopic (getTrailing pm) ch) (mem s))
                     (with_channels
                        (StdMap.assign chanName (setTopic (getTrailing pm) ch)
                                       (_channels s)) s)).
  { subst s1 notice. unfold topicCommand. fold nick.
    rewrite Hp, Hc, Hg, Hm, Htr. simpl.
    assert (G : checkMode "t" ch && negb (isOperator nick ch) = false).
    { destruct Hperm as [-> | ->]; [reflexivity|apply andb_false_r]. }
    rewrite G. unfold getChannelName. now rewrite T8. }
  assert (G1 : getChannel chanName s1 = Some (setTopic (getTrailing pm) ch)).
  { rewrite E. unfold getChannel. simpl. apply find_assign_same. }
  split; [|split].
  - exists (setTopic (getTrailing pm) ch). repeat split; auto.
  - intros q. rewrite E. simpl. rewrite broadcastMessage_find.
    unfold held_by. rewrite T3. unfold getFd, deref.
    now destruct (StdMap.find q (mem s)).
  - intros Hop pm2 rest2 Hp2 Htr2. unfold topicCommand.
    assert (Hn : getNickname (mem s1) client = nick).
    { rewrite E. simpl. apply getNickname_broadcast. }
    rewrite Hn, Hp2, Hc, G1.
    unfold isClientInChannel, isOperator in *. rewrite T3, T4, Hm, Hop, Htr2.
    simpl. now rewrite T2.
Qed.

Lemma X23_witness :
  (exists ch1,
     getChannel "#room" (topicCommand 2 (Sample.line "TOPIC #room :hi") Sample2.s_open)
     = Some ch1 /\
     getTopic ch1 = "hi" /\ checkMode "t" ch1 = true) /\
  topicCommand 2 (Sample.line "TOPIC #room :again")
    (topicCommand 2 (Sample.line "TOPIC #room :hi") Sample2.s_open)
  = reply 2 [ERR_CHANOPRIVSNEEDED "bob" "#room"]
      (topicCommand 2 (Sample.line "TOPIC #room :hi") Sample2.s_open).
Proof.
  destruct (@X23_topic_sets_text_and_forces_protection
              2 (Sample.line "TOPIC #room :hi") Sample2.s_open "#room" []
              Sample2.open_room)
    as ((ch1 & Hg & Ht & Hm & _) & _ & Hnext).
  - vm_compute. reflexivity.
  - vm_compute. reflexivity.
  - vm_compute. reflexivity.
  - vm_compute. reflexivity.
  - vm_compute. reflexivity.
  - vm_compute. reflexivity.
  - left. vm_compute. reflexivity.
  - split.
    + exists ch1. repeat split; assumption.
    + apply (Hnext eq_refl (Sample.line "TOPIC #room :again") []);
        vm_compute; reflexivity.
Defined.

(* ------------------------------------------------------------------ *)
(** ** MODE on a channel: the three early replies *)

(** X24: MODE on a target with a channel prefix answers, and does
    nothing else, in three cases: ERR_NOSUCHCHANNEL when the channel is
    not registered; RPL_CHANNELMODEIS with the mode letters when there
    is no mode string, whoever asks; ERR_CHANOPRIVSNEEDED when there is
    a mode string and the sender is no operator of the channel. *)
Theorem X24_mode_early_replies client pm s target rest :
  mode_params pm = target :: rest ->
  channel_prefix target = true ->
  let nick := getNickname (mem s) client in
  let s' := handelModeCommand client pm s in
  (getChannel target s = None ->
   s' = reply client [ERR_NOSUCHCHANNEL nick target] s) /\
  (forall ch, getChannel target s = Some ch -> rest = [] ->
   s' = reply client [RPL_CHANNELMODEIS nick target (getModes ch)] s) /\
  (forall ch, getChannel target s = Some ch -> rest <> [] ->
   isOperator nick ch = false ->
   s' = reply client [ERR_CHANOPRIVSNEEDED nick target] s).
Proof.
  intros Hp Hc nick s'. subst s'. unfold handelModeCommand.
  change (if negb (Str.empty (getTrailing pm))
          then getParams pm ++ ft_split (getTrailing pm) " "
          else getParams pm) with (mode_params pm).
  rewrite Hp. cbn [List.length Nat.ltb Nat.leb nth]. rewrite Hc.
  unfold handleChannelMode. fold nick.
  split; [|split].
  - now intros ->.
  - intros ch -> ->. reflexivity.
  - intros ch -> Hr Hop. destruct rest; [congruence|]. simpl. now rewrite Hop.
Qed.

Lemma X24_witness :
  handelModeCommand 2 (Sample.line "MODE #room +i") Sample.s_room
  = reply 2 [ERR_CHANOPRIVSNEEDED "bob" "#room"] Sample.s_room /\
  handelModeCommand 2 (Sample.line "MODE #room") Sample.s_room
  = reply 2 [RPL_CHANNELMODEIS "bob" "#room" "+t"] Sample.s_room /\
  handelModeCommand 2 (Sample.line "MODE #nowhere +i") Sample.s_room
  = reply 2 [ERR_NOSUCHCHANNEL "bob" "#nowhere"] Sample.s_room.
Proof.
  split; [|split].
  - destruct (@X24_mode_early_replies 2 (Sample.line "MODE #room +i") Sample.s_room
                "#room" ["+i"] eq_refl eq_refl) as (_ & _ & H).
    apply (H Sample.room); [vm_compute; reflexivity|discriminate|vm_compute; reflexivity].
  - destruct (@X24_mode_early_replies 2 (Sample.line "MODE #room") Sample.s_room
                "#room" [] eq_refl eq_refl) as (_ & H & _).
    apply (H Sample.room); [vm_compute; reflexivity|reflexivity].
  - destruct (@X24_mode_early_replies 2 (Sample.line "MODE #nowhere +i") Sample.s_room
                "#nowhere" ["+i"] eq_refl eq_refl) as (H & _ & _).
    apply H. vm_compute. reflexivity.
Defined.

(* ------------------------------------------------------------------ *)
(** ** MODE keeps limit and key meaningful *)

(** [std::atoi] yields an [int], and the number it read whenever that
    number is one. *)
Lemma atoi_is_int s : (- 2 ^ 31 <= Str.atoi s < 2 ^ 31)%Z.
Proof.
  unfold Str.atoi, Str.to_int.
  pose proof (Z.mod_pos_bound (Str.clamp_long (Str.strtol_value s) + 2 ^ 31) (2 ^ 32)).
  lia.
Qed.

Lemma atoi_in_range s :
  (- 2 ^ 31 <= Str.strtol_value s < 2 ^ 31)%Z -> Str.atoi s = Str.strtol_value s.
Proof.
  intros H. unfold Str.atoi, Str.to_int, Str.clamp_long.
  rewrite Z.min_l, Z.max_r by lia. rewrite Z.mod_small by lia. lia.
Qed.

(** Arguments of [+l] beyond [int]: [2147483648] converts to a negative
    number and is refused, [4294967297] converts to 1, which is the
    limit stored. *)
Lemma handleLimitMode_beyond_int :
  Str.atoi "2147483648" = (-2147483648)%Z /\
  Str.atoi "4294967297" = 1%Z /\
  _channels (handelModeCommand 1 (Sample.line "MODE #room +l 2147483648") Sample.s_room)
  = _channels Sample.s_room /\
  last (outbox (handelModeCommand 1 (Sample.line "MODE #room +l 2147483648")
                  Sample.s_room) 1) []
  = [ERR_INVALIDMODEPARAM "alice" "#room" "l" "2147483648"] /\
  (exists ch,
     getChannel "#room"
       (handelModeCommand 1 (Sample.line "MODE #room +l 4294967297") Sample.s_room)
     = Some ch /\
     checkMode "l" ch = true /\ getUserLimit ch = 1%Z).
Proof. evaluate. Qed.

Lemma setMode_other c d b ch :
  d <> c -> checkMode d (snd (setMode c b ch)) = checkMode d ch.
Proof.
  intros Hd. unfold setMode, checkMode.
  destruct (StdMap.find c (modes ch)) as [cur|]; [|reflexivity].
  destruct (Bool.eqb b cur); [reflexivity|]. simpl.
  now rewrite find_assign_other by congruence.
Qed.

Lemma setMode_clears c ch : checkMode c (snd (setMode c false ch)) = false.
Proof.
  unfold setMode, checkMode.
  destruct (StdMap.find c (modes ch)) as [cur|] eqn:F; simpl; [|now rewrite F].
  destruct cur; simpl.
  - now rewrite find_assign_same.
  - now rewrite F.
Qed.

Lemma setMode_settings c b ch :
  _key (snd (setMode c b ch)) = _key ch /\
  UserLimit (snd (setMode c b ch)) = UserLimit ch.
Proof.
  unfold setMode. destruct (StdMap.find c (modes ch)) as [cur|]; [|auto].
  now destruct (Bool.eqb b cur).
Qed.

Lemma sound_frame ch ch' :
  checkMode "l" ch' = checkMode "l" ch ->
  checkMode "k" ch' = checkMode "k" ch ->
  _key ch' = _key ch -> UserLimit ch' = UserLimit ch ->
  mode_settings_sound ch -> mode_settings_sound ch'.
Proof. unfold mode_settings_sound. intros -> -> -> ->. auto. Qed.

Lemma setMode_sound c b ch :
  c <> "l"%char -> c <> "k"%char ->
  mode_settings_sound ch -> mode_settings_sound (snd (setMode c b ch)).
Proof.
  intros Hl Hk. destruct (setMode_settings c b ch) as [Ek El].
  apply sound_frame; auto; apply setMode_other; congruence.
Qed.

Lemma addOperator_sound h n ch :
  mode_settings_sound ch -> mode_settings_sound (addOperator h n ch).
Proof.
  intros Hs. unfold addOperator. destruct (StdMap.find n (users ch)); auto.
  apply setMode_sound; try discriminate. exact Hs.
Qed.

Lemma removeOperator_sound n ch :
  mode_settings_sound ch -> mode_settings_sound (removeOperator n ch).
Proof.
  intros Hs. unfold removeOperator.
  set (ch1 := match StdMap.find n (operators ch) with
              | Some _ => _ | None => ch end).
  assert (H1 : mode_settings_sound ch1).
  { subst ch1. destruct (StdMap.find n (operators ch)); auto.
    apply setMode_sound; try discriminate. exact Hs. }
  destruct (StdMap.empty (operators ch1) && negb (StdMap.empty (users ch1))); auto.
  destruct (StdMap.begin (users ch1)) as [[k v]|]; auto.
Qed.

Lemma processSingleChannelMode_sound client mode isAdding params st :
  Forall (fun p => p <> "") params ->
  mode_settings_sound (m_channel st) ->
  mode_settings_sound
    (m_channel (snd (processSingleChannelMode client mode isAdding params st))).
Proof.
  intros Hne Hs. unfold processSingleChannelMode.
  destruct (Ascii.eqb mode "i"); [simpl; apply setMode_sound; auto; discriminate|].
  destruct (Ascii.eqb mode "k").
  { unfold handleKeyMode.
    destruct (Bool.eqb isAdding (mode_flag "k" (m_channel st))); auto.
    destruct (isAdding && (paramIndex st <? List.length params)%nat) eqn:C.
    - apply andb_prop in C as [_ C]. apply Nat.ltb_lt in C.
      destruct (isAlphanumeric _); auto. simpl.
      unfold setKey. destruct (setMode_settings "k" true
                                 (with_key (nth (paramIndex st) params "") (m_channel st)))
        as [Ek El].
      split.
      + rewrite setMode_other by discriminate. rewrite El. apply Hs.
      + intros _. rewrite Ek. simpl.
        rewrite Forall_forall in Hne. apply Hne. now apply nth_In.
    - destruct isAdding; auto. simpl. unfold removeKey.
      destruct (setMode_settings "k" false (with_key "" (m_channel st))) as [Ek El].
      split.
      + rewrite setMode_other by discriminate. rewrite El. apply Hs.
      + rewrite setMode_clears. discriminate. }
  destruct (Ascii.eqb mode "l").
  { unfold handleLimitMode.
    destruct (Bool.eqb isAdding (mode_flag "l" (m_channel st))); auto.
    destruct (isAdding && (paramIndex st <? List.length params)%nat) eqn:C.
    - destruct (0 <? Str.atoi _)%Z eqn:L; auto. simpl.
      unfold setUserLimit. rewrite L.
      destruct (setMode_settings "l" true
                  (with_UserLimit (Str.atoi (nth (paramIndex st) params ""))
                                  (m_channel st))) as [Ek El].
      split.
      + intros _. rewrite El. simpl. now apply Z.ltb_lt.
      + rewrite setMode_other by discriminate. rewrite Ek. apply Hs.
    - destruct isAdding; auto. simpl. unfold removeUserLimit.
      destruct (setMode_settings "l" false (with_UserLimit (-1) (m_channel st)))
        as [Ek El].
      split.
      + rewrite setMode_clears. discriminate.
      + rewrite setMode_other by discriminate. rewrite Ek. apply Hs. }
  destruct (Ascii.eqb mode "t"); [simpl; apply setMode_sound; auto; discriminate|].
  destruct (Ascii.eqb mode "o").
  { unfold handleOperatorMode.
    destruct (Bool.eqb isAdding (mode_flag "o" (m_channel st))); auto.
    destruct (paramIndex st <? List.length params)%nat; auto.
    destruct (negb (isClientInChannel _ _)); auto. simpl.
    destruct isAdding; [now apply addOperator_sound|now apply removeOperator_sound]. }
  destruct (Ascii.eqb mode "b"); auto.
Qed.

Lemma mode_loop_sound client params modeString :
  forall isAdding modeStr st,
    Forall (fun p => p <> "") params ->
    mode_settings_sound (m_channel st) ->
    mode_settings_sound
      (m_channel (snd (mode_loop client params modeString isAdding modeStr st))).
Proof.
  induction modeString as [|c r IH]; intros isAdding modeStr st Hne Hs; simpl; auto.
  destruct (Ascii.eqb c "+" || Ascii.eqb c "-"); [now apply IH|].
  apply IH; auto. now apply processSingleChannelMode_sound.
Qed.

(** X25: MODE keeps the settings behind [l] and [k] meaningful.  If on
    every registered channel a set [l] comes with a positive limit and a
    set [k] with a non-empty key, the same holds after any MODE command
    whose arguments are non-empty words. *)
Theorem X25_mode_keeps_limit_positive_and_key_nonempty client pm s :
  Forall (fun p => p <> "") (mode_params pm) ->
  every_channel mode_settings_sound s ->
  every_channel mode_settings_sound (handelModeCommand client pm s).
Proof.
  intros Hne Hs. unfold handelModeCommand.
  change (if negb (Str.empty (getTrailing pm))
          then getParams pm ++ ft_split (getTrailing pm) " "
          else getParams pm) with (mode_params pm).
  destruct (List.length (mode_params pm) <? 1)%nat; [exact Hs|].
  destruct (channel_prefix _).
  2:{ destruct (negb (isUserInServer _ s)); exact Hs. }
  unfold handleChannelMode.
  destruct (getChannel _ s) as [ch|] eqn:G; [|exact Hs].
  destruct (List.length (mode_params pm) =? 1)%nat; [exact Hs|].
  destruct (negb (isOperator _ ch)); [exact Hs|].
  apply every_channel_assign; auto.
  unfold processChannelModes.
  destruct (negb (Str.empty _)); simpl;
    apply mode_loop_sound; auto; simpl; exact (Hs _ _ G).
Qed.

Lemma mode_settings_soundb_spec ch :
  (negb (checkMode "l" ch) || (0 <? UserLimit ch)%Z)
  && (negb (checkMode "k" ch) || negb (Str.empty (_key ch))) = true ->
  mode_settings_sound ch.
Proof.
  intros [H1 H2]%andb_prop. split; intros E; rewrite E in *; simpl in *.
  - now apply Z.ltb_lt.
  - apply negb_true_iff in H2. now apply str_empty_false_iff.
Qed.

Lemma X25_witness :
  every_channel mode_settings_sound
    (handelModeCommand 2 (Sample.line "MODE #b -k+l 7") Sample.s_keyed).
Proof.
  apply X25_mode_keeps_limit_positive_and_key_nonempty.
  - vm_compute. repeat constructor; discriminate.
  - apply (every_channel_forallb mode_settings_sound
             (fun ch => (negb (checkMode "l" ch) || (0 <? UserLimit ch)%Z)
                        && (negb (checkMode "k" ch) || negb (Str.empty (_key ch))))).
    + apply mode_settings_soundb_spec.
    + vm_compute. reflexivity.
Defined.

(* ------------------------------------------------------------------ *)
(** ** MODE: no broadcast, no change *)

Lemma append_nonempty_r a b : b <> "" -> (a ++ b)%string <> "".
Proof. intros Hb E. destruct a; simpl in E; [auto|discriminate]. Qed.

Lemma mode_loop_silent client params modeString :
  forall isAdding modeStr st,
    fst (mode_loop client params modeString isAdding modeStr st) = "" ->
    modeStr = "" /\
    m_channel (snd (mode_loop client params modeString isAdding modeStr st))
    = m_channel st.
Proof.
  induction modeString as [|c r IH]; intros isAdding modeStr st; simpl; auto.
  destruct (Ascii.eqb c "+" || Ascii.eqb c "-"); [apply IH|].
  intros E. destruct (IH _ _ _ E) as [E1 E2].
  destruct (fst (processSingleChannelMode client c isAdding params st)) eqn:A.
  - exfalso. revert E1. apply append_nonempty_r. now destruct isAdding.
  - split; auto. rewrite E2. now apply mode_not_applied_keeps_channel.
Qed.

(** X26: whenever the letters of a MODE command add up to no aggregated
    string, so that no MODE message is broadcast, the channel record
    comes out exactly as it went in. *)
Theorem X26_mode_without_broadcast_changes_no_channel client channel params h :
  let r := mode_loop client params (nth 1 params "") true ""
             {| m_channel := channel; m_mem := h; paramIndex := 2 |} in
  fst r = "" ->
  processChannelModes client channel params h = (channel, m_mem (snd r)).
Proof.
  intros r E. unfold processChannelModes. fold r. rewrite E. simpl.
  destruct (mode_loop_silent _ _ _ _ _ _ E) as [_ Ec]. fold r in Ec.
  now rewrite Ec.
Qed.

Lemma X26_witness :
  fst (processChannelModes 1 Sample.room ["#room"; "+t-kb"] (mem Sample.s_room))
  = Sample.room.
Proof.
  rewrite (@X26_mode_without_broadcast_changes_no_channel
             1 Sample.room ["#room"; "+t-kb"] (mem Sample.s_room)).
  - reflexivity.
  - vm_compute. reflexivity.
Defined.

(* ------------------------------------------------------------------ *)
(** ** MODE keeps [operators ⊆ users] *)

Lemma addOperator_users h n ch : users (addOperator h n ch) = users ch.
Proof.
  unfold addOperator. destruct (StdMap.find n (users ch)); auto.
  now rewrite setMode_users.
Qed.

Lemma members_frame ch ch' :
  users ch' = users ch -> operators ch' = operators ch ->
  ops_subset_users ch -> ops_subset_users ch'.
Proof.
  intros Eu Eo I n. unfold isOperator, isClientInChannel. rewrite Eu, Eo. apply I.
Qed.

Lemma users_keyed_frame h h' ch ch' :
  users ch' = users ch ->
  (forall q, getNickname h' q = getNickname h q) ->
  users_keyed h ch -> users_keyed h' ch'.
Proof.
  intros Eu En K n p. rewrite Eu, En. apply K.
Qed.

(** One letter keeps: the users map, the nicknames in the store, and the
    inclusion. *)
Lemma processSingleChannelMode_members client mode isAdding params st :
  users_keyed (m_mem st) (m_channel st) ->
  ops_subset_users (m_channel st) ->
  let st' := snd (processSingleChannelMode client mode isAdding params st) in
  users (m_channel st') = users (m_channel st) /\
  (forall q, getNickname (m_mem st') q = getNickname (m_mem st) q) /\
  ops_subset_users (m_channel st').
Proof.
  intros K I. cbn zeta.
  assert (Hsame : forall ch' h',
             users ch' = users (m_channel st) ->
             operators ch' = operators (m_channel st) ->
             (forall q, getNickname h' q = getNickname (m_mem st) q) ->
             users ch' = users (m_channel st) /\
             (forall q, getNickname h' q = getNickname (m_mem st) q) /\
             ops_subset_users ch').
  { intros ch' h' Eu Eo En. repeat split; auto.
    exact (@members_frame (m_channel st) ch' Eu Eo I). }
  assert (Hpush : forall msg q,
             getNickname (push_reply client msg (m_mem st)) q
             = getNickname (m_mem st) q)
    by (intros; apply getNickname_push_reply).
  unfold processSingleChannelMode.
  destruct (Ascii.eqb mode "i");
    [simpl; apply Hsame; auto using setMode_users, setMode_operators|].
  destruct (Ascii.eqb mode "k").
  { unfold handleKeyMode.
    destruct (Bool.eqb isAdding (mode_flag "k" (m_channel st))); [now apply Hsame|].
    destruct (isAdding && (paramIndex st <? List.length params)%nat).
    - destruct (isAlphanumeric _); simpl; apply Hsame; auto;
        unfold setKey; now rewrite ?setMode_users, ?setMode_operators.
    - destruct isAdding; simpl; apply Hsame; auto;
        unfold removeKey; now rewrite ?setMode_users, ?setMode_operators. }
  destruct (Ascii.eqb mode "l").
  { unfold handleLimitMode.
    destruct (Bool.eqb isAdding (mode_flag "l" (m_channel st))); [now apply Hsame|].
    destruct (isAdding && (paramIndex st <? List.length params)%nat).
    - destruct (0 <? Str.atoi _)%Z eqn:L; simpl; apply Hsame; auto;
        unfold setUserLimit; rewrite L;
        now rewrite ?setMode_users, ?setMode_operators.
    - destruct isAdding; simpl; apply Hsame; auto;
        unfold removeUserLimit; now rewrite ?setMode_users, ?setMode_operators. }
  destruct (Ascii.eqb mode "t");
    [simpl; apply Hsame; auto using setMode_users, setMode_operators|].
  destruct (Ascii.eqb mode "o").
  { unfold handleOperatorMode.
    destruct (Bool.eqb isAdding (mode_flag "o" (m_channel st))); [now apply Hsame|].
    destruct (paramIndex st <? List.length params)%nat; [|simpl; now apply Hsame].
    destruct (negb (isClientInChannel _ _)); [simpl; now apply Hsame|]. simpl.
    destruct isAdding.
    - repeat split; auto using addOperator_users. now apply addOperator_subset.
    - repeat split; auto using removeOperator_users. now apply removeOperator_subset. }
  destruct (Ascii.eqb mode "b"); simpl; now apply Hsame.
Qed.

Lemma mode_loop_members client params modeString :
  forall isAdding modeStr st,
    users_keyed (m_mem st) (m_channel st) ->
    ops_subset_users (m_channel st) ->
    ops_subset_users
      (m_channel (snd (mode_loop client params modeString isAdding modeStr st))).
Proof.
  induction modeString as [|c r IH]; intros isAdding modeStr st K I; simpl; auto.
  destruct (Ascii.eqb c "+" || Ascii.eqb c "-"); [now apply IH|].
  destruct (@processSingleChannelMode_members client c isAdding params st K I)
    as (Eu & En & I').
  apply IH; auto. exact (@users_keyed_frame _ _ _ _ Eu En K).
Qed.

(** X27: if [operators ⊆ users] holds on every registered channel and
    the users of the channel addressed are keyed by the nicknames their
    clients hold, the inclusion holds on every registered channel after
    MODE. *)
Theorem X27_mode_keeps_operators_among_users client pm s :
  every_channel ops_subset_users s ->
  every_channel (users_keyed (mem s)) s ->
  every_channel ops_subset_users (handelModeCommand client pm s).
Proof.
  intros Hs Hk. unfold handelModeCommand.
  change (if negb (Str.empty (getTrailing pm))
          then getParams pm ++ ft_split (getTrailing pm) " "
          else getParams pm) with (mode_params pm).
  destruct (List.length (mode_params pm) <? 1)%nat; [exact Hs|].
  destruct (channel_prefix _).
  2:{ destruct (negb (isUserInServer _ s)); exact Hs. }
  unfold handleChannelMode.
  destruct (getChannel _ s) as [ch|] eqn:G; [|exact Hs].
  destruct (List.length (mode_params pm) =? 1)%nat; [exact Hs|].
  destruct (negb (isOperator _ ch)); [exact Hs|].
  apply every_channel_assign; auto.
  unfold processChannelModes.
  destruct (negb (Str.empty _)); simpl;
    apply mode_loop_members; simpl; eauto.
Qed.

Lemma find_In_key {V : Type} (name : string) (v : V) (m : StdMap.t string V) :
  StdMap.find name m = Some v -> In (name, v) m.
Proof.
  induction m as [|[k w] r IH]; simpl; [discriminate|].
  destruct (String.eqb_spec name k) as [->|Hne].
  - intros [= ->]. now left.
  - intros F. right. auto.
Qed.

Lemma users_keyedb_spec h ch :
  forallb (fun e : string * ptr => String.eqb (getNickname h (snd e)) (fst e))
          (users ch) = true ->
  users_keyed h ch.
Proof.
  intros Hall n p F. apply find_In_key in F.
  rewrite forallb_forall in Hall.
  specialize (Hall _ F). simpl in Hall. now apply String.eqb_eq.
Qed.

Lemma X27_witness :
  every_channel ops_subset_users
    (handelModeCommand 1 (Sample.line "MODE #room +o-o bob alice") Sample.s_room).
Proof.
  apply X27_mode_keeps_operators_among_users.
  - apply (every_channel_forallb ops_subset_users ops_subset_usersb).
    + intros ch. apply ops_subset_usersb_spec.
    + vm_compute. reflexivity.
  - apply (every_channel_forallb (users_keyed (mem Sample.s_room))
             (fun ch => forallb (fun e : string * ptr =>
                                   String.eqb (getNickname (mem Sample.s_room) (snd e))
                                              (fst e)) (users ch))).
    + intros ch. apply users_keyedb_spec.
    + vm_compute. reflexivity.
Defined.

(* ------------------------------------------------------------------ *)
(** ** KICK *)

Lemma removeClient_keeps_member h p ch m :
  m <> getNickname h p -> isClientInChannel m ch = true ->
  isClientInChannel m (removeClient h p ch) = true.
Proof.
  intros Hm Im. unfold isClientInChannel.
  rewrite removeClient_users, contains_erase, (key_eqb_neq Hm). exact Im.
Qed.

Lemma removeClient_removes h p ch :
  isClientInChannel (getNickname h p) (removeClient h p ch) = false.
Proof.
  unfold isClientInChannel. rewrite removeClient_users, contains_erase.
  now rewrite key_eqb_refl.
Qed.

Lemma removeClient_never_adds h p ch t :
  isClientInChannel t ch = false ->
  isClientInChannel t (removeClient h p ch) = false.
Proof.
  unfold isClientInChannel. rewrite removeClient_users, contains_erase.
  intros ->. apply andb_false_r.
Qed.

(** While the loop runs the channel stays registered, with the kicker a
    member and an operator, and keeps the inclusion. *)
Lemma kick_loop_keeps_kicker client name tm targets :
  forall s ch,
    getChannel name s = Some ch ->
    ops_subset_users ch ->
    isClientInChannel (getNickname (mem s) client) ch = true ->
    isOperator (getNickname (mem s) client) ch = true ->
    exists ch',
      getChannel name (kick_loop client name tm targets s) = Some ch' /\
      ops_subset_users ch' /\
      isClientInChannel (getNickname (mem s) client) ch' = true /\
      isOperator (getNickname (mem s) client) ch' = true.
Proof.
  induction targets as [|t rest IH]; intros s ch Hg I Me Op; simpl.
  - exists ch. auto.
  - rewrite Hg.
    assert (Hrep : forall msg,
               exists ch',
                 getChannel name (kick_loop client name tm rest (reply client msg s))
                 = Some ch' /\
                 ops_subset_users ch' /\
                 isClientInChannel (getNickname (mem s) client) ch' = true /\
                 isOperator (getNickname (mem s) client) ch' = true).
    { intros msg.
      destruct (IH (reply client msg s) ch) as (ch' & H); auto;
        simpl; rewrite ?getNickname_push_reply; auto.
      exists ch'. simpl in H. now rewrite getNickname_push_reply in H. }
    destruct (String.eqb_spec t (getNickname (mem s) client)) as [->|Hne]; [apply Hrep|].
    destruct (getClient t s) as [tc|] eqn:Gc; [|apply Hrep].
    destruct (negb (isClientInChannel t ch)); [apply Hrep|].
    set (h1 := broadcastMessage _ ch (mem s)).
    assert (Ht : getNickname h1 tc = t).
    { subst h1. rewrite getNickname_broadcast. now apply getClient_nick. }
    assert (Hk : getNickname h1 client = getNickname (mem s) client).
    { subst h1. now rewrite getNickname_broadcast. }
    assert (Hne' : getNickname (mem s) client <> getNickname h1 tc) by congruence.
    pose proof (removeClient_keeps_member h1 tc ch Hne' Me) as Me'.
    assert (Hfull : StdMap.empty (getUsers (removeClient h1 tc ch)) = false).
    { unfold getUsers. destruct (StdMap.empty _) eqn:E; auto.
      unfold isClientInChannel in Me'.
      rewrite (contains_empty _ _ E) in Me'. discriminate. }
    rewrite Hfull.
    destruct (IH (with_mem h1
                    (with_channels
                       (StdMap.assign name (removeClient h1 tc ch) (_channels s)) s))
                 (removeClient h1 tc ch)) as (ch' & H).
    + unfold getChannel. simpl. apply find_assign_same.
    + now apply removeClient_subset_other with (m := getNickname (mem s) client).
    + simpl. now rewrite Hk.
    + simpl. rewrite Hk. now apply removeClient_keeps_operator.
    + exists ch'. simpl in H. now rewrite Hk in H.
Qed.

(** X28: KICK never removes the kicker and never empties or deletes the
    channel: after KICK on a registered channel that keeps
    [operators ⊆ users], the channel is still registered and keeps the
    inclusion, and a sender who was a member is a member, and one who
    was an operator is an operator. *)
Theorem X28_kick_keeps_channel_and_kicker client pm s ch :
  let name := nth 0 (getParams pm) "" in
  let nick := getNickname (mem s) client in
  getChannel name s = Some ch ->
  ops_subset_users ch ->
  exists ch',
    getChannel name (handelKickCommand client pm s) = Some ch' /\
    ops_subset_users ch' /\
    (isClientInChannel nick ch = true -> isClientInChannel nick ch' = true) /\
    (isOperator nick ch = true -> isOperator nick ch' = true).
Proof.
  intros name nick Hg I. unfold handelKickCommand. fold name nick.
  assert (Hsame : forall msg,
             exists ch',
               getChannel name (reply client msg s) = Some ch' /\
               ops_subset_users ch' /\
               (isClientInChannel nick ch = true -> isClientInChannel nick ch' = true) /\
               (isOperator nick ch = true -> isOperator nick ch' = true)).
  { intros msg. exists ch. auto. }
  destruct (List.length (getParams pm) <? 2)%nat; [apply Hsame|].
  rewrite Hg.
  destruct (isClientInChannel nick ch) eqn:Me; simpl; [|apply Hsame].
  destruct (isOperator nick ch) eqn:Op; simpl; [|apply Hsame].
  destruct (@kick_loop_keeps_kicker client name (getTrailing pm)
              (ft_split (nth 1 (getParams pm) "") ",") s ch Hg I Me Op)
    as (ch' & H1 & H2 & H3 & H4).
  exists ch'. auto.
Qed.

Lemma X28_witness :
  exists ch',
    getChannel "#room"
      (handelKickCommand 1 (Sample.line "KICK #room bob,alice,carol :bye") Sample.s_room)
    = Some ch' /\
    isClientInChannel "alice" ch' = true /\ isOperator "alice" ch' = true.
Proof.
  destruct (@X28_kick_keeps_channel_and_kicker
              1 (Sample.line "KICK #room bob,alice,carol :bye") Sample.s_room Sample.room)
    as (ch' & Hg & _ & Hm & Ho).
  - vm_compute. reflexivity.
  - apply ops_subset_usersb_spec. vm_compute. reflexivity.
  - exists ch'. split; [exact Hg|]. split; [apply Hm|apply Ho]; vm_compute; reflexivity.
Defined.

Lemma find_pointwise {A : Type} (f g : A -> bool) (l : list A) :
  (forall a, f a = g a) -> List.find f l = List.find g l.
Proof.
  intros E. induction l as [|a r IH]; simpl; auto. now rewrite E, IH.
Qed.

Lemma getClient_frame n s s' :
  _clients s' = _clients s ->
  (forall q, getNickname (mem s') q = getNickname (mem s) q) ->
  getClient n s' = getClient n s.
Proof.
  intros Ec En. unfold getClient. rewrite Ec.
  f_equal. apply find_pointwise. intros e. now rewrite En.
Qed.

Lemma kick_loop_never_adds client name tm targets t :
  forall s,
    (forall ch, getChannel name s = Some ch -> isClientInChannel t ch = false) ->
    forall ch',
      getChannel name (kick_loop client name tm targets s) = Some ch' ->
      isClientInChannel t ch' = false.
Proof.
  induction targets as [|x rest IH]; intros s Hs ch'; simpl; [apply Hs|].
  case_eq (getChannel name s); [intros ch Hg|intros Hg; apply Hs].
  assert (Hrep : forall msg,
             getChannel name (kick_loop client name tm rest (reply client msg s)) = Some ch' ->
             isClientInChannel t ch' = false).
  { intros msg. apply IH. exact Hs. }
  destruct (String.eqb x (getNickname (mem s) client)); [apply Hrep|].
  destruct (getClient x s) as [xc|]; [|apply Hrep].
  destruct (negb (isClientInChannel x ch)); [apply Hrep|].
  set (h1 := broadcastMessage _ ch (mem s)).
  destruct (StdMap.empty (getUsers (removeClient h1 xc ch))).
  - unfold getChannel. simpl. rewrite find_erase_same. discriminate.
  - apply IH. intros c. unfold getChannel. simpl. rewrite find_assign_same.
    intros [= <-]. apply removeClient_never_adds. exact (Hs ch Hg).
Qed.

Lemma kick_loop_removes client name tm targets t tc :
  forall s,
    In t targets ->
    t <> getNickname (mem s) client ->
    getClient t s = Some tc ->
    forall ch',
      getChannel name (kick_loop client name tm targets s) = Some ch' ->
      isClientInChannel t ch' = false.
Proof.
  induction targets as [|x rest IH]; intros s Hin Hne Hgc ch'; [destruct Hin|].
  simpl. destruct (getChannel name s) as [ch|] eqn:Hg; [|congruence].
  assert (Hrep : forall msg,
             x <> t \/ isClientInChannel t ch = false ->
             getChannel name (kick_loop client name tm rest (reply client msg s)) = Some ch' ->
             isClientInChannel t ch' = false).
  { intros msg [Hx|Hout].
    - apply IH.
      + destruct Hin; [congruence|assumption].
      + simpl. now rewrite getNickname_push_reply.
      + rewrite (@getClient_frame t s (reply client msg s)); auto.
        intros q. simpl. apply getNickname_push_reply.
    - apply kick_loop_never_adds. intros c. simpl.
      change (getChannel name (reply client msg s)) with (getChannel name s).
      rewrite Hg. now intros [= <-]. }
  destruct (String.eqb_spec x (getNickname (mem s) client)) as [Ex|Nx].
  { apply Hrep. left. congruence. }
  destruct (getClient x s) as [xc|] eqn:Gx.
  2:{ apply Hrep. left. congruence. }
  destruct (isClientInChannel x ch) eqn:Mx; simpl.
  2:{ apply Hrep. destruct (String.eqb_spec x t) as [->|]; auto. }
  set (h1 := broadcastMessage _ ch (mem s)).
  assert (Hx : getNickname h1 xc = x).
  { subst h1. rewrite getNickname_broadcast. now apply getClient_nick. }
  destruct (StdMap.empty (getUsers (removeClient h1 xc ch))).
  { unfold getChannel. simpl. rewrite find_erase_same. discriminate. }
  set (s1 := with_mem h1 (with_channels
                            (StdMap.assign name (removeClient h1 xc ch) (_channels s)) s)).
  assert (G1 : getChannel name s1 = Some (removeClient h1 xc ch)).
  { unfold getChannel. simpl. apply find_assign_same. }
  destruct (String.eqb_spec x t) as [->|Hxt].
  - apply kick_loop_never_adds. intros c. rewrite G1. intros [= <-].
    rewrite <- Hx at 1. apply removeClient_removes.
  - apply IH.
    + destruct Hin; [congruence|assumption].
    + simpl. subst h1. now rewrite getNickname_broadcast.
    + rewrite (@getClient_frame t s s1); auto.
      intros q. simpl. subst h1. apply getNickname_broadcast.
Qed.

(** X29: after KICK by an operator who is in the channel, no target of
    the list that names a connected client other than the kicker is a
    member of the channel, wherever it stands in the list. *)
Theorem X29_kick_removes_every_named_member client pm s ch t tc :
  let name := nth 0 (getParams pm) "" in
  let nick := getNickname (mem s) client in
  (2 <= List.length (getParams pm))%nat ->
  getChannel name s = Some ch ->
  isClientInChannel nick ch = true ->
  isOperator nick ch = true ->
  In t (ft_split (nth 1 (getParams pm) "") ",") ->
  t <> nick ->
  getClient t s = Some tc ->
  forall ch',
    getChannel name (handelKickCommand client pm s) = Some ch' ->
    isClientInChannel t ch' = false.
Proof.
  intros name nick Hlen Hg Me Op Hin Hne Hgc ch'.
  unfold handelKickCommand. fold name nick.
  assert (L : (List.length (getParams pm) <? 2)%nat = false)
    by (apply Nat.ltb_ge; lia).
  rewrite L, Hg, Me, Op. simpl.
  now apply kick_loop_removes with (tc := tc).
Qed.

Lemma X29_witness :
  exists ch',
    getChannel "#room"
      (handelKickCommand 1 (Sample.line "KICK #room bob,carol :bye") Sample.s_room)
    = Some ch' /\
    isClientInChannel "carol" ch' = false.
Proof.
  eexists. split; [vm_compute; reflexivity|].
  apply (@X29_kick_removes_every_named_member
           1 (Sample.line "KICK #room bob,carol :bye") Sample.s_room Sample.room
           "carol" 3%nat).
  - vm_compute. lia.
  - vm_compute. reflexivity.
  - vm_compute. reflexivity.
  - vm_compute. reflexivity.
  - vm_compute. auto.
  - vm_compute. discriminate.
  - vm_compute. reflexivity.
  - vm_compute. reflexivity.
Defined.

(* ------------------------------------------------------------------ *)
(** ** PRIVMSG *)

(** X30: PRIVMSG never touches the channel registry, the nickname index
    or the connection table.  Sent to a registered channel by one of its
    members, with a text, it leaves the sender's record as it is and
    queues one frame, built from the sender's nickname (twice), the
    channel name and the text, for every other client: once per entry
    of [users] that holds the client, unless its descriptor is -1.  Sent
    by a client that is no member, it only queues ERR_CANNOTSENDTOCHAN
    for the sender. *)
Theorem X30_privmsg_to_channel M client pm s receiver rest ch :
  let s' := privateMessage M client pm s in
  let nick := getNickname (mem s) client in
  let text := getTrailing pm in
  (_channels s' = _channels s /\ _nicknames s' = _nicknames s /\
   _clients s' = _clients s) /\
  (getParams pm = receiver :: rest ->
   Str.empty text = false ->
   channel_prefix receiver = true ->
   getChannel receiver s = Some ch ->
   (isClientInChannel nick ch = false ->
    s' = reply client (ERR_CANNOTSENDTOCHAN M nick receiver) s) /\
   (isClientInChannel nick ch = true ->
    forall q,
      StdMap.find q (mem s')
      = if (q =? client)%nat then StdMap.find q (mem s)
        else option_map
               (fun c => add_replies c
                           (repeat (RPL_PRIVMSG M nick nick receiver text)
                                   (if (_fd c =? -1)%Z then 0 else held_by ch q)))
               (StdMap.find q (mem s)))).
Proof.
  intros s' nick text. split.
  - subst s'. unfold privateMessage.
    destruct (vector_empty (getParams pm) || Str.empty (getTrailing pm)).
    + destruct (vector_empty (getParams pm)); auto.
    + destruct (channel_prefix _).
      * destruct (getChannel _ s) as [c0|]; auto.
        destruct (negb (isClientInChannel _ c0)); auto.
      * destruct (negb (isUserInServer _ s)); auto.
        destruct (getClient _ s); auto.
  - intros Hp Ht Hc Hg. subst s'. unfold privateMessage. fold nick text.
    rewrite Hp, Ht. cbn [vector_empty orb nth]. rewrite Hc, Hg.
    split.
    + now intros ->.
    + intros -> q. simpl. rewrite sendToOthers_find.
      destruct (q =? client)%nat; simpl.
      * rewrite andb_false_r. destruct (StdMap.find q (mem s)); simpl; auto.
        now rewrite add_replies_nil.
      * rewrite andb_true_r. unfold getFd, deref.
        destruct (StdMap.find q (mem s)) as [c|]; simpl; auto.
        now destruct (_fd c =? -1)%Z.
Qed.

Lemma X30_witness :
  outbox (privateMessage sample_macros 2 (Sample.line "PRIVMSG #room :hello all")
            Sample.s_room) 2
  = outbox Sample.s_room 2 /\
  StdMap.find 3%nat
    (mem (privateMessage sample_macros 2 (Sample.line "PRIVMSG #room :hello all")
            Sample.s_room))
  = option_map
      (fun c => add_replies c [[Literal ":bob!bob PRIVMSG #room :hello all"]])
      (StdMap.find 3%nat (mem Sample.s_room)).
Proof.
  destruct (@X30_privmsg_to_channel sample_macros 2
              (Sample.line "PRIVMSG #room :hello all") Sample.s_room "#room" []
              Sample.room) as [_ H].
  destruct H as [_ Hsend]; try (vm_compute; reflexivity).
  split.
  - unfold outbox, deref. rewrite (Hsend eq_refl 2%nat). reflexivity.
  - etransitivity; [exact (Hsend eq_refl 3%nat)|vm_compute; reflexivity].
Defined.

Lemma X12_witness :
  StdMap.find "alice" (users (addClient (mem Sample.s_room) 1 Sample.keyed_b))
  = Some 1%nat /\
  StdMap.find "bob" (users (addClient (mem Sample.s_room) 1 Sample.keyed_b))
  = StdMap.find "bob" (users Sample.keyed_b).
Proof.
  destruct (X12_addClient_enters_member_and_uses_invitation
              (mem Sample.s_room) 1 Sample.keyed_b) as (H1 & _ & H3 & _).
  split; [exact H1|].
  destruct (H3 "bob") as [H _]; [vm_compute; discriminate|exact H].
Defined.
